(** * Midnight Market: the market-data core, embedded and verified

    The development follows the TypeScript sources:
    - [App.tsx]: the two asset adapters ([fetchBluechips],
      [fetchMemecoins]), the query coordinator (the [useEffect] that
      debounces the search), the sort/filter pipeline
      ([processedAssets]) and the click handlers;
    - [components/NewsFeed.tsx]: the TTL cache kept in [localStorage];
    - [components/ChatBot.tsx]: the assistant and its simulated fallback;
    - the second [NewsFeed] component, fed by a public aggregator: its
      mapping of the reply, its cache and its auto-refresh;
    - [types.ts]: the canonical [Asset].

    How JavaScript is modelled.
    - A [number] is [NaN], a signed infinity or a finite value kept as
      an exact rational.  Rounding and overflow of doubles are not
      modelled; the sign of a difference of two finite doubles is the
      sign of the exact difference, which is all the comparators use.
    - A string is a Rocq [string], read as UTF-8 text; case mapping and
      white space are those of ASCII.  Where the public feed clips a
      text, [length] and [substring] count UTF-16 code units as the
      engine does; a surrogate that a cut leaves on its own is kept as
      its three bytes, which the cache writes and reads back unchanged.
    - [localStorage] is a finite map from keys to texts, and [setItem]
      always succeeds.
    - Network replies and clock readings are inputs of the functions
      that consume them; a component's state is a record with one field
      per [useState], passed in and returned.
    - The records of the feeds have the fields and types the adapters
      read; a record on which a property read would throw is not one.
    - Time is counted in milliseconds and a timer runs its callback at
      the time it is due.  The timer table holds every timer that
      [setTimeout] has set until it runs or [clearTimeout] clears it. *)

From Stdlib Require Import ZArith QArith Ascii String List Lia Lqa Bool.
From Stdlib Require Import Decimal DecimalString DecimalN DecimalPos Sorted.
From stdpp Require Import gmap strings list.

Local Open Scope string_scope.
Local Open Scope list_scope.
#[local] Set Warnings "-register-all".

(** ** JavaScript built-ins used by the sources *)

Module JS.

Inductive number : Type :=
| NaN
| Inf (negative : bool)
| Fin (q : Q).

Definition zero : number := Fin 0.

(** Unary minus. *)
Definition neg (x : number) : number :=
  match x with
  | NaN => NaN
  | Inf s => Inf (negb s)
  | Fin q => Fin (Qopp q)
  end.

Definition add (x y : number) : number :=
  match x, y with
  | NaN, _ | _, NaN => NaN
  | Inf a, Inf b => if Bool.eqb a b then Inf a else NaN
  | Inf a, Fin _ => Inf a
  | Fin _, Inf b => Inf b
  | Fin p, Fin q => Fin (Qplus p q)
  end.

(** [x - y] *)
Definition sub (x y : number) : number := add x (neg y).

(** [x > 0]; false on [NaN]. *)
Definition positive (x : number) : bool :=
  match x with
  | NaN => false
  | Inf s => negb s
  | Fin q => negb (Qle_bool q 0)
  end.

(** [x < y] on numbers; false as soon as one side is [NaN]. *)
Definition lt (x y : number) : bool :=
  match x, y with
  | NaN, _ | _, NaN => false
  | Inf a, Inf b => a && negb b
  | Inf a, Fin _ => a
  | Fin _, Inf b => negb b
  | Fin p, Fin q => negb (Qle_bool q p)
  end.

(** ToBoolean on a number: [0] and [NaN] are falsy. *)
Definition truthy (x : number) : bool :=
  match x with
  | NaN => false
  | Inf _ => true
  | Fin q => negb (Qeq_bool q 0)
  end.

(** [x || 0] on a number. *)
Definition or_zero (x : number) : number :=
  if truthy x then x else zero.

(** *** Strings *)

(** White space and line terminators that [trim] removes (the ASCII
    ones: TAB, LF, VT, FF, CR, SP). *)
Definition is_space (c : ascii) : bool :=
  let n := N_of_ascii c in
  ((9 <=? n)%N && (n <=? 13)%N) || (n =? 32)%N.

Fixpoint trimStart (s : string) : string :=
  match s with
  | EmptyString => EmptyString
  | String c r => if is_space c then trimStart r else s
  end.

Fixpoint trimEnd (s : string) : string :=
  match s with
  | EmptyString => EmptyString
  | String c r =>
      match trimEnd r with
      | EmptyString => if is_space c then EmptyString else String c EmptyString
      | t => String c t
      end
  end.

Definition trim (s : string) : string := trimEnd (trimStart s).

(** ToBoolean on a string: only the empty string is falsy. *)
Definition nonempty (s : string) : bool :=
  match s with EmptyString => false | _ => true end.

(** [toLowerCase], on the ASCII letters. *)
Definition lower_char (c : ascii) : ascii :=
  let n := N_of_ascii c in
  if ((65 <=? n)%N && (n <=? 90)%N)%bool then ascii_of_N (n + 32) else c.

Fixpoint toLowerCase (s : string) : string :=
  match s with
  | EmptyString => EmptyString
  | String c r => String (lower_char c) (toLowerCase r)
  end.

(** [s.includes(sub)] *)
Fixpoint includes (s sub : string) : bool :=
  String.prefix sub s ||
  match s with
  | EmptyString => false
  | String _ r => includes r sub
  end.

(** *** Numeric literals *)

Definition digit_of (c : ascii) : option (uint -> uint) :=
  match c with
  | "0"%char => Some D0 | "1"%char => Some D1 | "2"%char => Some D2
  | "3"%char => Some D3 | "4"%char => Some D4 | "5"%char => Some D5
  | "6"%char => Some D6 | "7"%char => Some D7 | "8"%char => Some D8
  | "9"%char => Some D9
  | _ => None
  end.

(** The longest prefix of decimal digits, and what follows it. *)
Fixpoint scan_digits (s : string) : uint * string :=
  match s with
  | EmptyString => (Nil, EmptyString)
  | String c r =>
      match digit_of c with
      | Some d => let (u, r') := scan_digits r in (d u, r')
      | None => (Nil, s)
      end
  end.

Definition has_digits (u : uint) : bool :=
  match u with Nil => false | _ => true end.

(** An optional sign; [true] when negative. *)
Definition scan_sign (s : string) : bool * string :=
  match s with
  | String "-"%char r => (true, r)
  | String "+"%char r => (false, r)
  | _ => (false, s)
  end.

(** An ExponentPart [e±ddd], when one is there in full. *)
Definition scan_exponent (s : string) : option (Z * string) :=
  match s with
  | String c r =>
      if (Ascii.eqb c "e" || Ascii.eqb c "E")%bool then
        let (sg, r1) := scan_sign r in
        let (u, r2) := scan_digits r1 in
        if has_digits u
        then Some ((if sg then Z.opp else id) (Z.of_N (N.of_uint u)), r2)
        else None
      else None
  | EmptyString => None
  end.

(** The mathematical value of [int.frac e exp]. *)
Definition decimal_value (int frac : uint) (exp : Z) : Q :=
  let k := Z.of_nat (nb_digits frac) in
  let m := (Z.of_N (N.of_uint int) * 10 ^ k + Z.of_N (N.of_uint frac))%Z in
  Qred (Qmult (inject_Z m) (Qpower (inject_Z 10) (exp - k))).

(** The longest prefix that is a StrUnsignedDecimalLiteral other than
    [Infinity]: digits, an optional fraction, an optional exponent. *)
Definition scan_unsigned_decimal (s : string) : option (Q * string) :=
  let (int, r1) := scan_digits s in
  let '(frac, r2, dotted) :=
    match r1 with
    | String "."%char r =>
        let (f, r') := scan_digits r in
        if (has_digits int || has_digits f)%bool then (f, r', true) else (Nil, r1, false)
    | _ => (Nil, r1, false)
    end in
  if (has_digits int || dotted)%bool then
    match scan_exponent r2 with
    | Some (e, r3) => Some (decimal_value int frac e, r3)
    | None => Some (decimal_value int frac 0, r2)
    end
  else None.

(** The longest prefix that is a StrDecimalLiteral. *)
Definition scan_decimal (s : string) : option (number * string) :=
  let (sg, r) := scan_sign s in
  if String.prefix "Infinity" r
  then Some (Inf sg, String.substring 8 (String.length r - 8) r)
  else
    match scan_unsigned_decimal r with
    | Some (q, r') => Some (Fin (if sg then Qopp q else q), r')
    | None => None
    end.

(** [parseFloat(s)] on a string. *)
Definition parseFloat (s : string) : number :=
  match scan_decimal (trimStart s) with
  | Some (x, _) => x
  | None => NaN
  end.

(** [parseFloat(v)] on what a numeric field of a feed holds.  A number
    goes through ToString and back, which returns it; [undefined]
    reads as the text [undefined], which is no literal. *)
Inductive value : Type :=
| Missing
| Text (s : string)
| Number (n : number).

(** ToBoolean *)
Definition value_truthy (v : value) : bool :=
  match v with
  | Missing => false
  | Text s => nonempty s
  | Number n => truthy n
  end.

(** [v || d] with a text default. *)
Definition or_text (v : value) (d : string) : value :=
  if value_truthy v then v else Text d.

Definition parseFloat_value (v : value) : number :=
  match v with
  | Missing => NaN
  | Text s => parseFloat s
  | Number n => n
  end.

(** *** StringToNumber, as ToNumber applies it to a string *)

Definition digit_val (c : ascii) : option N :=
  let n := N_of_ascii c in
  if ((48 <=? n) && (n <=? 57))%N then Some (n - 48)%N
  else if ((97 <=? n) && (n <=? 102))%N then Some (n - 87)%N
  else if ((65 <=? n) && (n <=? 70))%N then Some (n - 55)%N
  else None.

Fixpoint radix_value (radix acc : N) (s : string) : option N :=
  match s with
  | EmptyString => Some acc
  | String c r =>
      match digit_val c with
      | Some d => if (d <? radix)%N then radix_value radix (acc * radix + d)%N r else None
      | None => None
      end
  end.

(** [0x], [0o] and [0b] literals. *)
Definition nondecimal (s : string) : option N :=
  match s with
  | String "0"%char (String c (String d r)) =>
      let body := String d r in
      if (Ascii.eqb c "x" || Ascii.eqb c "X")%bool then radix_value 16 0 body
      else if (Ascii.eqb c "o" || Ascii.eqb c "O")%bool then radix_value 8 0 body
      else if (Ascii.eqb c "b" || Ascii.eqb c "B")%bool then radix_value 2 0 body
      else None
  | _ => None
  end.

Definition StringToNumber (s : string) : number :=
  match trim s with
  | EmptyString => zero
  | t =>
      match nondecimal t with
      | Some n => Fin (inject_Z (Z.of_N n))
      | None =>
          match scan_decimal t with
          | Some (x, EmptyString) => x
          | _ => NaN
          end
      end
  end.

(** *** Array.prototype.sort

    [sort] is stable, and [SortCompare] reads a comparator result
    that is [NaN] as [0].  With a comparator that orders the elements
    consistently every stable sort returns the same array; insertion
    from the right is the one written here: [x] goes after [y] only
    when [cmp x y > 0]. *)
Fixpoint insert {A : Type} (cmp : A -> A -> number) (x : A) (l : list A) : list A :=
  match l with
  | [] => [x]
  | y :: r => if positive (cmp x y) then y :: insert cmp x r else x :: l
  end.

Definition sort {A : Type} (cmp : A -> A -> number) (l : list A) : list A :=
  fold_right (insert cmp) [] l.

(** [x <= y] on numbers; false as soon as one side is [NaN]. *)
Definition leb (x y : number) : bool :=
  match x, y with
  | NaN, _ | _, NaN => false
  | Inf a, Inf b => a || negb b
  | Inf a, Fin _ => a
  | Fin _, Inf b => negb b
  | Fin p, Fin q => Qle_bool p q
  end.

(** [toUpperCase], on the ASCII letters. *)
Definition upper_char (c : ascii) : ascii :=
  let n := N_of_ascii c in
  if ((97 <=? n)%N && (n <=? 122)%N)%bool then ascii_of_N (n - 32) else c.

Fixpoint toUpperCase (s : string) : string :=
  match s with
  | EmptyString => EmptyString
  | String c r => String (upper_char c) (toUpperCase r)
  end.

(** *** Lengths and cuts, in UTF-16 code units

    [length] and [substring] count the code units of a string.  Of the
    bytes of the UTF-8 text, one that continues a character counts
    nothing, one that starts a character outside the basic plane (four
    bytes, a surrogate pair in the string) counts two, any other one. *)
Definition units (c : ascii) : nat :=
  let n := N_of_ascii c in
  if (n <? 128)%N then 1
  else if (n <? 192)%N then 0
  else if (n <? 240)%N then 1
  else 2.

(** [s.length] *)
Fixpoint length (s : string) : nat :=
  match s with
  | EmptyString => 0
  | String c r => units c + length r
  end.

(** The low six bits of the byte at [k], the payload of a byte that
    continues a character. *)
Definition payload (k : nat) (r : string) : N :=
  match String.get k r with
  | Some c => N.land (N_of_ascii c) 63
  | None => 0
  end.

(** The high surrogate of the character that starts with the byte [c]
    and goes on in [r], as the three bytes that stand for a surrogate on
    its own. *)
Definition high_surrogate (c : ascii) (r : string) : string :=
  let code_point :=
    (N.land (N_of_ascii c) 7 * 262144 + payload 0 r * 4096 + payload 1 r * 64 + payload 2 r)%N in
  let high := (55296 + (code_point - 65536) / 1024)%N in
  String (ascii_of_N 237)
    (String (ascii_of_N (128 + (high / 64) mod 64))
       (String (ascii_of_N (128 + high mod 64)) EmptyString)).

(** [s.substring(0, n)]: the first [n] code units; a cut inside a
    surrogate pair keeps the high surrogate. *)
Fixpoint substring_from_0 (n : nat) (s : string) : string :=
  match s with
  | EmptyString => EmptyString
  | String c r =>
      match units c, n with
      | 0, _ => String c (substring_from_0 n r)
      | _, 0 => EmptyString
      | 1, S m => String c (substring_from_0 m r)
      | _, 1 => high_surrogate c r
      | _, S (S m) => String c (substring_from_0 m r)
      end
  end.

End JS.


(** ** [JSON.parse], [JSON.stringify] and the values they exchange *)

Module JSON.

(** A value as the program sees it once its static type is erased. *)
Inductive any : Type :=
| Undefined
| Null
| Bool (b : bool)
| Num (n : JS.number)
| Str (s : string)
| Arr (elements : list any)
| Obj (members : list (string * any)).

(** The double quote and the backslash. *)
Definition dq : ascii := "034"%char.
Definition bs : ascii := "092"%char.

(** [o[key]] on an object literal: the last member of that name. *)
Fixpoint member (key : string) (members : list (string * any)) : any :=
  match members with
  | [] => Undefined
  | (k, v) :: r =>
      match member key r with
      | Undefined => if String.eqb k key then v else Undefined
      | found => found
      end
  end.

(** [v.key] for the keys the program reads; [None] is the TypeError
    that reading a property of [null] or [undefined] throws. *)
Definition get (v : any) (key : string) : option any :=
  match v with
  | Undefined | Null => None
  | Obj members => Some (member key members)
  | _ => Some Undefined
  end.

(** ToNumber.  An array goes through [join]: no element reads as the
    empty text, one element as that element's text, more as a text with
    a comma in it, which is no number. *)
Fixpoint ToNumber (v : any) : JS.number :=
  match v with
  | Undefined => JS.NaN
  | Null => JS.zero
  | Bool b => JS.Fin (if b then 1 else 0)
  | Num n => n
  | Str s => JS.StringToNumber s
  | Obj _ => JS.NaN
  | Arr [] => JS.zero
  | Arr [e] =>
      match e with
      | Undefined | Null => JS.zero
      | Bool _ | Obj _ => JS.NaN
      | Num n => n
      | Str s => JS.StringToNumber s
      | Arr _ => ToNumber e
      end
  | Arr _ => JS.NaN
  end.

(** *** Writing *)

Definition hex_digit (n : N) : ascii :=
  if (n <? 10)%N then ascii_of_N (48 + n) else ascii_of_N (87 + n).

(** QuoteJSONString on one character. *)
Definition escape (c : ascii) : string :=
  let n := N_of_ascii c in
  if Ascii.eqb c dq then String bs (String dq EmptyString)
  else if Ascii.eqb c bs then String bs (String bs EmptyString)
  else if (n =? 8)%N then String bs "b"
  else if (n =? 9)%N then String bs "t"
  else if (n =? 10)%N then String bs "n"
  else if (n =? 12)%N then String bs "f"
  else if (n =? 13)%N then String bs "r"
  else if (n <? 32)%N then
    String bs (String "u" (String "0" (String "0"
      (String (hex_digit (n / 16)) (String (hex_digit (n mod 16)) EmptyString)))))
  else String c EmptyString.

Fixpoint escaped (s : string) : string :=
  match s with
  | EmptyString => EmptyString
  | String c r => escape c ++ escaped r
  end.

Definition quote (s : string) : string :=
  String dq (escaped s ++ String dq EmptyString).

(** An integer, as Number::toString writes it below 10^21. *)
Definition integer (z : Z) : string :=
  match z with
  | Zneg p => String "-" (NilEmpty.string_of_uint (Pos.to_uint p))
  | _ => NilEmpty.string_of_uint (N.to_uint (Z.to_N z))
  end.

(** *** Reading *)

Definition is_ws (c : ascii) : bool :=
  Ascii.eqb c " " || Ascii.eqb c "009" || Ascii.eqb c "010" || Ascii.eqb c "013".

Fixpoint skip_ws (s : string) : string :=
  match s with
  | EmptyString => EmptyString
  | String c r => if is_ws c then skip_ws r else s
  end.

(** [strip p s] is what follows [p] in [s]. *)
Fixpoint strip (p s : string) : option string :=
  match p with
  | EmptyString => Some s
  | String a p' =>
      match s with
      | String b s' => if Ascii.eqb a b then strip p' s' else None
      | EmptyString => None
      end
  end.

(** The UTF-8 bytes of a code unit given by a [\u] escape. *)
Definition utf8 (n : N) (rest : string) : string :=
  if (n <? 128)%N then String (ascii_of_N n) rest
  else if (n <? 2048)%N then
    String (ascii_of_N (192 + n / 64)) (String (ascii_of_N (128 + n mod 64)) rest)
  else
    String (ascii_of_N (224 + n / 4096))
      (String (ascii_of_N (128 + (n / 64) mod 64))
         (String (ascii_of_N (128 + n mod 64)) rest)).

(** The four hexadecimal digits of a [\u] escape. *)
Definition hex4 (s : string) : option (N * string) :=
  match s with
  | String a (String b (String c (String d r))) =>
      match JS.digit_val a, JS.digit_val b, JS.digit_val c, JS.digit_val d with
      | Some x, Some y, Some z, Some w => Some (((x * 16 + y) * 16 + z) * 16 + w, r)%N
      | _, _, _, _ => None
      end
  | _ => None
  end.

(** The characters of a string literal after its opening quote, and
    what follows the closing quote. *)
Fixpoint parse_chars (fuel : nat) (s : string) : option (string * string) :=
  match fuel with
  | O => None
  | S fuel =>
      match s with
      | EmptyString => None
      | String c r =>
          if Ascii.eqb c dq then Some (EmptyString, r)
          else if Ascii.eqb c bs then
            match r with
            | EmptyString => None
            | String e r' =>
                let simple (x : N) :=
                  match parse_chars fuel r' with
                  | Some (t, k) => Some (String (ascii_of_N x) t, k)
                  | None => None
                  end in
                if Ascii.eqb e dq then simple 34%N
                else if Ascii.eqb e bs then simple 92%N
                else if Ascii.eqb e "/" then simple 47%N
                else if Ascii.eqb e "b" then simple 8%N
                else if Ascii.eqb e "f" then simple 12%N
                else if Ascii.eqb e "n" then simple 10%N
                else if Ascii.eqb e "r" then simple 13%N
                else if Ascii.eqb e "t" then simple 9%N
                else if Ascii.eqb e "u" then
                  match hex4 r' with
                  | Some (n, r'') =>
                      match parse_chars fuel r'' with
                      | Some (t, k) => Some (utf8 n t, k)
                      | None => None
                      end
                  | None => None
                  end
                else None
            end
          else if (N_of_ascii c <? 32)%N then None
          else
            match parse_chars fuel r with
            | Some (t, k) => Some (String c t, k)
            | None => None
            end
      end
  end.

Definition parse_string (s : string) : option (string * string) :=
  parse_chars (String.length s) s.

(** The digits of [int]: [0], or digits with no leading zero. *)
Definition well_formed_int (u : uint) : bool :=
  match u with
  | Nil => false
  | D0 Nil => true
  | D0 _ => false
  | _ => true
  end.

Definition scan_minus (s : string) : bool * string :=
  match s with
  | String c r => if Ascii.eqb c "-" then (true, r) else (false, s)
  | EmptyString => (false, s)
  end.

(** [frac]: nothing, or a point and at least one digit. *)
Definition scan_fraction (s : string) : option (option uint * string) :=
  match s with
  | String c r =>
      if Ascii.eqb c "." then
        let (f, r') := JS.scan_digits r in
        if JS.has_digits f then Some (Some f, r') else None
      else Some (None, s)
  | EmptyString => Some (None, s)
  end.

(** [exp]: nothing, or [e], an optional sign and at least one digit. *)
Definition scan_exp (s : string) : option (option Z * string) :=
  match s with
  | String c _ =>
      if (Ascii.eqb c "e" || Ascii.eqb c "E")%bool then
        match JS.scan_exponent s with
        | Some (e, r) => Some (Some e, r)
        | None => None
        end
      else Some (None, s)
  | EmptyString => Some (None, s)
  end.

(** A JSON number: [-? int frac? exp?]. *)
Definition parse_number (s : string) : option (JS.number * string) :=
  let (sg, r0) := scan_minus s in
  let (int, r1) := JS.scan_digits r0 in
  if well_formed_int int then
    match scan_fraction r1 with
    | Some (frac, r2) =>
        match scan_exp r2 with
        | Some (exp, r3) =>
            let q :=
              match frac, exp with
              | None, None => inject_Z (Z.of_N (N.of_uint int))
              | _, _ => JS.decimal_value int (default Nil frac) (default 0%Z exp)
              end in
            Some (JS.Fin (if sg then Qopp q else q), r3)
        | None => None
        end
    | None => None
    end
  else None.

Fixpoint parse_value (fuel : nat) (s : string) : option (any * string) :=
  match fuel with
  | O => None
  | S fuel =>
      match skip_ws s with
      | EmptyString => None
      | String c r =>
          if Ascii.eqb c "{" then
            match skip_ws r with
            | String c' r' =>
                if Ascii.eqb c' "}" then Some (Obj [], r')
                else parse_members fuel (String c' r') []
            | EmptyString => None
            end
          else if Ascii.eqb c "[" then
            match skip_ws r with
            | String c' r' =>
                if Ascii.eqb c' "]" then Some (Arr [], r')
                else parse_elements fuel (String c' r') []
            | EmptyString => None
            end
          else if Ascii.eqb c dq then
            match parse_string r with
            | Some (t, r') => Some (Str t, r')
            | None => None
            end
          else if Ascii.eqb c "n" then
            match strip "ull" r with Some r' => Some (Null, r') | None => None end
          else if Ascii.eqb c "t" then
            match strip "rue" r with Some r' => Some (Bool true, r') | None => None end
          else if Ascii.eqb c "f" then
            match strip "alse" r with Some r' => Some (Bool false, r') | None => None end
          else
            match parse_number (String c r) with
            | Some (n, r') => Some (Num n, r')
            | None => None
            end
      end
  end

with parse_elements (fuel : nat) (s : string) (acc : list any) : option (any * string) :=
  match fuel with
  | O => None
  | S fuel =>
      match parse_value fuel s with
      | Some (v, r) =>
          match skip_ws r with
          | String c r' =>
              if Ascii.eqb c "," then parse_elements fuel r' (v :: acc)
              else if Ascii.eqb c "]" then Some (Arr (List.rev (v :: acc)), r')
              else None
          | EmptyString => None
          end
      | None => None
      end
  end

with parse_members (fuel : nat) (s : string) (acc : list (string * any)) : option (any * string) :=
  match fuel with
  | O => None
  | S fuel =>
      match skip_ws s with
      | String q r =>
          if Ascii.eqb q dq then
            match parse_string r with
            | Some (key, r1) =>
                match skip_ws r1 with
                | String c r2 =>
                    if Ascii.eqb c ":" then
                      match parse_value fuel r2 with
                      | Some (v, r3) =>
                          match skip_ws r3 with
                          | String c' r4 =>
                              if Ascii.eqb c' "," then parse_members fuel r4 ((key, v) :: acc)
                              else if Ascii.eqb c' "}" then
                                Some (Obj (List.rev ((key, v) :: acc)), r4)
                              else None
                          | EmptyString => None
                          end
                      | None => None
                      end
                    else None
                | EmptyString => None
                end
            | None => None
            end
          else None
      | EmptyString => None
      end
  end.

(** [JSON.parse(text)]; [None] is the SyntaxError.  A value takes at
    most two units of fuel for each of its characters. *)
Definition parse (text : string) : option any :=
  match parse_value (2 * String.length text + 2) text with
  | Some (v, r) =>
      match skip_ws r with
      | EmptyString => Some v
      | _ => None
      end
  | None => None
  end.

End JSON.

(** ** The canonical model ([types.ts]) *)

Module Types.

Record Asset : Type := {
  id : string;
  symbol : string;
  name : string;
  currentPrice : JS.number;
  priceChange24h : JS.number;
  marketCap : JS.number;
  volume24h : JS.number;
  sparklineData : list JS.number;
  image : string;
  rank : JS.number;
  blockchain : option string;
  contractAddress : option string
}.

Inductive MarketMode : Type := bluechips | memecoins.

Inductive Blockchain : Type := solana | ethereum | base | bsc | all.

(** The string each [Blockchain] literal is. *)
Definition Blockchain_text (b : Blockchain) : string :=
  match b with
  | solana => "solana"
  | ethereum => "ethereum"
  | base => "base"
  | bsc => "bsc"
  | all => "all"
  end.

Definition MarketMode_eqb (a b : MarketMode) : bool :=
  match a, b with
  | bluechips, bluechips | memecoins, memecoins => true
  | _, _ => false
  end.

End Types.

(** ** Upstream feeds, as the adapters read them *)

Module Feed.

(** One item of the ranked-asset feed. *)
Record Coin : Type := {
  coin_id : string;
  coin_symbol : string;
  coin_name : string;
  current_price : JS.number;
  price_change_percentage_24h : option JS.number;
  market_cap : JS.number;
  total_volume : JS.number;
  sparkline_in_7d_price : list JS.number;
  coin_image : string;
  market_cap_rank : JS.number
}.

Record BaseToken : Type := {
  address : string;
  token_symbol : string;
  token_name : string
}.

(** One trading pair of the DEX feed.  [priceChange], [volume] and
    [liquidity] are read with [?.], so each may be absent. *)
Record Pair : Type := {
  chainId : string;
  baseToken : BaseToken;
  priceUsd : JS.value;
  priceChange_h24 : option JS.value;
  fdv : JS.value;
  volume_h24 : option JS.value;
  liquidity_usd : option JS.number
}.

(** The body of a pair lookup or search: [data.pairs] may be absent. *)
Record PairData : Type := { pairs : option (list Pair) }.

(** The body of the token-profiles feed: an array of profiles, each with
    a [tokenAddress] that may be absent, or something that is no array. *)
Inductive ProfilesData : Type :=
| NotArray
| Profiles (tokenAddress : list (option string)).

(** What [await response.json()] gives. *)
Inductive body (A : Type) : Type :=
| BadJson (message : string)
| Json (data : A).

(** What [await fetch(url)] gives: a rejection, or a response with its
    [ok] flag and body. *)
Inductive reply (A : Type) : Type :=
| Failed (message : string)
| Response (ok : bool) (json : body A).

Arguments BadJson {A} message.
Arguments Json {A} data.
Arguments Failed {A} message.
Arguments Response {A} ok json.

(** The DEX endpoints [fetchMemecoins] calls. *)
Record Dex : Type := {
  search : string -> reply PairData;
  token_profiles : reply ProfilesData;
  tokens : string -> reply PairData
}.

End Feed.

(** ** [App.tsx] *)

Module App.

Import Types Feed.

Inductive SortKey : Type := market_cap | price_change | volume | by_name.
Inductive SortOrder : Type := desc | asc.
Inductive Theme : Type := dark | light.

Definition SortKey_eqb (a b : SortKey) : bool :=
  match a, b with
  | market_cap, market_cap | price_change, price_change
  | volume, volume | by_name, by_name => true
  | _, _ => false
  end.

(** The component state, one field per [useState]. *)
Record State : Type := {
  selectedAsset : option Asset;
  searchQuery : string;
  assets : list Asset;
  loading : bool;
  error : option string;
  lastUpdated : option Z;
  sortKey : SortKey;
  sortOrder : SortOrder;
  theme : Theme;
  marketMode : MarketMode;
  blockchain : Blockchain
}.

Definition initial : State := {|
  selectedAsset := None; searchQuery := ""; assets := []; loading := true;
  error := None; lastUpdated := None; sortKey := market_cap;
  sortOrder := desc; theme := dark; marketMode := bluechips;
  blockchain := all
|}.

Definition setSearchQuery (v : string) (st : State) : State :=
  {| selectedAsset := selectedAsset st; searchQuery := v; assets := assets st;
     loading := loading st; error := error st; lastUpdated := lastUpdated st;
     sortKey := sortKey st; sortOrder := sortOrder st; theme := theme st;
     marketMode := marketMode st; blockchain := blockchain st |}.

Definition setAssets (v : list Asset) (st : State) : State :=
  {| selectedAsset := selectedAsset st; searchQuery := searchQuery st; assets := v;
     loading := loading st; error := error st; lastUpdated := lastUpdated st;
     sortKey := sortKey st; sortOrder := sortOrder st; theme := theme st;
     marketMode := marketMode st; blockchain := blockchain st |}.

Definition setLoading (v : bool) (st : State) : State :=
  {| selectedAsset := selectedAsset st; searchQuery := searchQuery st; assets := assets st;
     loading := v; error := error st; lastUpdated := lastUpdated st;
     sortKey := sortKey st; sortOrder := sortOrder st; theme := theme st;
     marketMode := marketMode st; blockchain := blockchain st |}.

Definition setError (v : option string) (st : State) : State :=
  {| selectedAsset := selectedAsset st; searchQuery := searchQuery st; assets := assets st;
     loading := loading st; error := v; lastUpdated := lastUpdated st;
     sortKey := sortKey st; sortOrder := sortOrder st; theme := theme st;
     marketMode := marketMode st; blockchain := blockchain st |}.

Definition setLastUpdated (v : option Z) (st : State) : State :=
  {| selectedAsset := selectedAsset st; searchQuery := searchQuery st; assets := assets st;
     loading := loading st; error := error st; lastUpdated := v;
     sortKey := sortKey st; sortOrder := sortOrder st; theme := theme st;
     marketMode := marketMode st; blockchain := blockchain st |}.

Definition setSortKey (v : SortKey) (st : State) : State :=
  {| selectedAsset := selectedAsset st; searchQuery := searchQuery st; assets := assets st;
     loading := loading st; error := error st; lastUpdated := lastUpdated st;
     sortKey := v; sortOrder := sortOrder st; theme := theme st;
     marketMode := marketMode st; blockchain := blockchain st |}.

Definition setSortOrder (v : SortOrder) (st : State) : State :=
  {| selectedAsset := selectedAsset st; searchQuery := searchQuery st; assets := assets st;
     loading := loading st; error := error st; lastUpdated := lastUpdated st;
     sortKey := sortKey st; sortOrder := v; theme := theme st;
     marketMode := marketMode st; blockchain := blockchain st |}.

Definition setMarketMode (v : MarketMode) (st : State) : State :=
  {| selectedAsset := selectedAsset st; searchQuery := searchQuery st; assets := assets st;
     loading := loading st; error := error st; lastUpdated := lastUpdated st;
     sortKey := sortKey st; sortOrder := sortOrder st; theme := theme st;
     marketMode := v; blockchain := blockchain st |}.

Definition setBlockchain (v : Blockchain) (st : State) : State :=
  {| selectedAsset := selectedAsset st; searchQuery := searchQuery st; assets := assets st;
     loading := loading st; error := error st; lastUpdated := lastUpdated st;
     sortKey := sortKey st; sortOrder := sortOrder st; theme := theme st;
     marketMode := marketMode st; blockchain := v |}.

(** *** [fetchBluechips] *)

(** [coin.price_change_percentage_24h || 0] *)
Definition change_or_zero (c : option JS.number) : JS.number :=
  match c with
  | Some x => JS.or_zero x
  | None => JS.zero
  end.

Definition mapCoin (coin : Coin) : Asset := {|
  id := coin_id coin;
  symbol := JS.toUpperCase (coin_symbol coin);
  name := coin_name coin;
  currentPrice := current_price coin;
  priceChange24h := change_or_zero (price_change_percentage_24h coin);
  marketCap := Feed.market_cap coin;
  volume24h := total_volume coin;
  sparklineData := sparkline_in_7d_price coin;
  image := coin_image coin;
  rank := market_cap_rank coin;
  Types.blockchain := None;
  contractAddress := None
|}.

(** The body of the [try]: the new state, or the message of what was
    thrown. *)
Definition fetchBluechips_try (net : reply (list Coin)) (now : Z)
    (st : State) : string + State :=
  match net with
  | Failed message => inl message
  | Response false _ => inl "Liquidity feed dropped."
  | Response true (BadJson message) => inl message
  | Response true (Json data) =>
      inr (setLastUpdated (Some now) (setAssets (List.map mapCoin data) st))
  end.

Definition fetchBluechips (net : reply (list Coin)) (now : Z) (st : State) : State :=
  let st := setError None (setLoading true st) in
  let st :=
    match fetchBluechips_try net now st with
    | inr st' => st'
    | inl message => setError (Some message) st
    end in
  setLoading false st.

(** *** [fetchMemecoins] *)

(** [query && query.trim().length > 0] *)
Definition searching (query : option string) : bool :=
  match query with
  | Some q => JS.nonempty q && (0 <? String.length (JS.trim q))%nat
  | None => false
  end.

(** The body a reply gives to the code after it, [None] when the
    [await] throws: a rejected [fetch], a status that is not [ok], a
    body that is no JSON. *)
Definition read {A : Type} (r : reply A) : option A :=
  match r with
  | Response true (Json data) => Some data
  | _ => None
  end.

(** [data.pairs || []] *)
Definition pairs_or_empty (data : PairData) : list Pair :=
  match pairs data with
  | Some l => l
  | None => []
  end.

(** [Array.isArray(data) ? data.slice(0, 50).map(p => p.tokenAddress).join(',') : ''];
    [join] writes an absent element as the empty text. *)
Definition addresses_of (data : ProfilesData) : string :=
  match data with
  | Profiles l =>
      String.concat ","
        (List.map (fun a => match a with Some s => s | None => "" end) (firstn 50 l))
  | NotArray => ""
  end.

(** The first half of the [try]: the pair records, or the two ways out. *)
Inductive lookup : Type :=
| Threw
| NoAddresses
| Found (pairResults : list Pair).

Definition pairResults_of (dex : Dex) (query : option string) : lookup :=
  if searching query then
    match read (search dex (default "" query)) with
    | Some data => Found (pairs_or_empty data)
    | None => Threw
    end
  else
    match read (token_profiles dex) with
    | None => Threw
    | Some data =>
        let addresses := addresses_of data in
        if JS.nonempty addresses then
          match read (tokens dex addresses) with
          | Some pairData => Found (pairs_or_empty pairData)
          | None => Threw
          end
        else NoAddresses
    end.

Definition filteredPairs (blockchain : Blockchain) (pairResults : list Pair) : list Pair :=
  match blockchain with
  | all => pairResults
  | _ => List.filter (fun p => String.eqb (chainId p) (Blockchain_text blockchain)) pairResults
  end.

(** [pair.liquidity?.usd || 0] *)
Definition liquidity (p : Pair) : JS.number :=
  match liquidity_usd p with
  | Some x => JS.or_zero x
  | None => JS.zero
  end.

Definition by_liquidity (a b : Pair) : JS.number :=
  JS.sub (liquidity b) (liquidity a).

Definition sortedPairs (filtered : list Pair) : list Pair :=
  JS.sort by_liquidity filtered.

(** [parseFloat(v || '0')] *)
Definition parse_or_zero (v : JS.value) : JS.number :=
  JS.parseFloat_value (JS.or_text v "0").

(** [o?.h24] *)
Definition h24 (o : option JS.value) : JS.value := default JS.Missing o.

Definition mapPair (pair : Pair) : Asset :=
  let tokenAddress := address (baseToken pair) in {|
  id := tokenAddress;
  symbol := token_symbol (baseToken pair);
  name := token_name (baseToken pair);
  currentPrice := parse_or_zero (priceUsd pair);
  priceChange24h := parse_or_zero (h24 (priceChange_h24 pair));
  marketCap := parse_or_zero (fdv pair);
  volume24h := parse_or_zero (h24 (volume_h24 pair));
  sparklineData := [];
  image := "https://dd.dexscreener.com/ds-data/tokens/" ++ chainId pair ++ "/"
           ++ tokenAddress ++ ".png";
  rank := JS.Fin 999;
  Types.blockchain := Some (chainId pair);
  contractAddress := Some tokenAddress
|}.

(** One turn of the [forEach]: [seenTokens] and [mappedAssets] are the
    two collections it updates. *)
Definition visit (acc : gset string * list Asset) (pair : Pair)
    : gset string * list Asset :=
  let (seenTokens, mappedAssets) := acc in
  let tokenAddress := address (baseToken pair) in
  if decide (tokenAddress ∈ seenTokens) then acc
  else ({[tokenAddress]} ∪ seenTokens, mappedAssets ++ [mapPair pair]).

Definition mappedAssets (blockchain : Blockchain) (pairResults : list Pair) : list Asset :=
  snd (fold_left visit (sortedPairs (filteredPairs blockchain pairResults)) (∅, [])).

Definition fetchMemecoins (dex : Dex) (now : Z) (query : option string)
    (st : State) : State :=
  let st := setError None (setLoading true st) in
  let st :=
    match pairResults_of dex query with
    | Threw => setError (Some "Dex Uplink Interrupted") st
    | NoAddresses => setLoading false (setAssets [] st)
    | Found pairResults =>
        setLastUpdated (Some now)
          (setAssets (mappedAssets (blockchain st) pairResults) st)
    end in
  setLoading false st.

(** *** The sort/filter pipeline ([processedAssets]) *)

Section Pipeline.

(** [a.localeCompare(b)], which the host's collation decides. *)
Variable localeCompare : string -> string -> JS.number.

Definition comp (key : SortKey) (a b : Asset) : JS.number :=
  match key with
  | market_cap => JS.sub (marketCap b) (marketCap a)
  | price_change => JS.sub (priceChange24h b) (priceChange24h a)
  | volume => JS.sub (volume24h b) (volume24h a)
  | by_name => localeCompare (name a) (name b)
  end.

Definition comparator (key : SortKey) (order : SortOrder) (a b : Asset) : JS.number :=
  match order with
  | desc => comp key a b
  | asc => JS.neg (comp key a b)
  end.

Definition processedAssets (st : State) : list Asset :=
  let result :=
    if MarketMode_eqb (marketMode st) bluechips
       && (0 <? String.length (JS.trim (searchQuery st)))%nat
    then
      let query := JS.toLowerCase (searchQuery st) in
      List.filter (fun a => JS.includes (JS.toLowerCase (name a)) query
                         || JS.includes (JS.toLowerCase (symbol a)) query)
                  (assets st)
    else assets st in
  JS.sort (comparator (sortKey st) (sortOrder st)) result.

End Pipeline.

(** *** Click handlers *)

(** The market-mode buttons. *)
Definition clickMode (mode : MarketMode) (st : State) : State :=
  setSearchQuery "" (setBlockchain all (setMarketMode mode st)).

(** The sort buttons. *)
Definition clickSort (id : SortKey) (st : State) : State :=
  if SortKey_eqb (sortKey st) id
  then setSortOrder (match sortOrder st with desc => asc | asc => desc end) st
  else setSortOrder desc (setSortKey id st).

(** *** The query coordinator (the [useEffect] and its timer) *)

Inductive Call : Type :=
| CallBluechips
| CallMemecoins (query : option string).

(** What one run of the effect does: a call at once, or a call handed
    to [setTimeout] (the run then returns the [clearTimeout] cleanup). *)
Inductive Effect : Type :=
| Run (c : Call)
| Timeout (c : Call) (delay : Z).

Definition effect (st : State) : Effect :=
  match marketMode st with
  | bluechips => Run CallBluechips
  | memecoins =>
      if (0 <? String.length (JS.trim (searchQuery st)))%nat
      then Timeout (CallMemecoins (Some (searchQuery st))) 600
      else Run (CallMemecoins None)
  end.

Record Timer : Type := { due : Z; callback : Call }.

(** The browser's table of timers, each under the handle [setTimeout]
    returned for it; the handle the cleanup returned by the effect's
    last run closes over, if that run returned one; the calls made so
    far with the time of each (in ms). *)
Record Scheduler : Type := {
  timers : list (nat * Timer);
  next_handle : nat;
  destroy : option nat;
  calls : list (Z * Call)
}.

(** Nothing scheduled, nothing called. *)
Definition idle : Scheduler :=
  {| timers := []; next_handle := 0; destroy := None; calls := [] |}.

(** [setTimeout(callback, delay)] at time [t]: one more timer in the
    table; the others stay. *)
Definition setTimeout (t : Z) (c : Call) (delay : Z) (s : Scheduler) : nat * Scheduler :=
  (next_handle s,
   {| timers := timers s ++ [(next_handle s, {| due := t + delay; callback := c |})];
      next_handle := S (next_handle s);
      destroy := destroy s;
      calls := calls s |}).

(** [clearTimeout(handle)]: the timer under that handle leaves the
    table; the others stay. *)
Definition clearTimeout (handle : nat) (s : Scheduler) : Scheduler :=
  {| timers := List.filter (fun e => negb (Nat.eqb (fst e) handle)) (timers s);
     next_handle := next_handle s;
     destroy := destroy s;
     calls := calls s |}.

(** Timers run in the order of their due times, and in the order they
    were set when due together. *)
Fixpoint enqueue (e : nat * Timer) (l : list (nat * Timer)) : list (nat * Timer) :=
  match l with
  | [] => [e]
  | x :: r => if (due (snd e) <? due (snd x))%Z then e :: l else x :: enqueue e r
  end.

Definition by_due (l : list (nat * Timer)) : list (nat * Timer) :=
  fold_left (fun queue e => enqueue e queue) l [].

Definition fired (l : list (nat * Timer)) : list (Z * Call) :=
  List.map (fun e => (due (snd e), callback (snd e))) (by_due l).

(** The timers that are due by [t] run their callbacks and leave the
    table. *)
Definition fire_due (t : Z) (s : Scheduler) : Scheduler :=
  {| timers := List.filter (fun e => negb (due (snd e) <=? t)%Z) (timers s);
     next_handle := next_handle s;
     destroy := destroy s;
     calls := calls s ++ fired (List.filter (fun e => (due (snd e) <=? t)%Z) (timers s)) |}.

(** The cleanup of the previous run, when that run returned one:
    [clearTimeout(timer)] with the handle of its own timer. *)
Definition cleanup (s : Scheduler) : Scheduler :=
  match destroy s with
  | Some timer => clearTimeout timer s
  | None => s
  end.

(** One run of the effect at time [t]; what it returns replaces the
    cleanup of the run before. *)
Definition run_effect (t : Z) (st : State) (s : Scheduler) : Scheduler :=
  match effect st with
  | Run c =>
      {| timers := timers s; next_handle := next_handle s; destroy := None;
         calls := calls s ++ [(t, c)] |}
  | Timeout c delay =>
      let (timer, s) := setTimeout t c delay s in
      {| timers := timers s; next_handle := next_handle s; destroy := Some timer;
         calls := calls s |}
  end.

(** The search box's [onChange] at time [t]: a new text re-renders, and
    the effect, which depends on [searchQuery], is cleaned up and run
    again; the same text changes nothing. *)
Definition onChange (t : Z) (text : string) (w : State * Scheduler) : State * Scheduler :=
  let (st, s) := w in
  let s := fire_due t s in
  if String.eqb text (searchQuery st) then (st, s)
  else
    let st' := setSearchQuery text st in
    (st', run_effect t st' (cleanup s)).

Definition typing (changes : list (Z * string)) (w : State * Scheduler) : State * Scheduler :=
  fold_left (fun w c => onChange (fst c) (snd c) w) changes w.

(** Time passes with no further event: every timer left in the table
    fires. *)
Definition settle (s : Scheduler) : Scheduler :=
  {| timers := []; next_handle := next_handle s; destroy := destroy s;
     calls := calls s ++ fired (timers s) |}.

End App.

(** ** [components/NewsFeed.tsx] *)

Module NewsFeed.

Record NewsItem : Type := {
  headline : string;
  summary : string;
  url : string;
  timestamp : string
}.

Record CacheData : Type := {
  items : list NewsItem;
  expiry : Z
}.

Definition CACHE_KEY : string := "midnight_market_news_cache".
Definition CACHE_TTL : Z := 15 * 60 * 1000.

(** The run-time value of a typed one. *)
Definition any_of_NewsItem (i : NewsItem) : JSON.any :=
  JSON.Obj [("headline", JSON.Str (headline i)); ("summary", JSON.Str (summary i));
            ("url", JSON.Str (url i)); ("timestamp", JSON.Str (timestamp i))].

Definition any_of_items (l : list NewsItem) : JSON.any :=
  JSON.Arr (List.map any_of_NewsItem l).

Definition any_of_CacheData (d : CacheData) : JSON.any :=
  JSON.Obj [("items", any_of_items (items d));
            ("expiry", JSON.Num (JS.Fin (inject_Z (expiry d))))].

(** [JSON.stringify] at the two record types, members in the order the
    object literals list them. *)
Definition field (key : string) (text : string) : string :=
  JSON.quote key ++ ":" ++ text.

Definition stringify_NewsItem (i : NewsItem) : string :=
  "{" ++ field "headline" (JSON.quote (headline i)) ++ ","
      ++ field "summary" (JSON.quote (summary i)) ++ ","
      ++ field "url" (JSON.quote (url i)) ++ ","
      ++ field "timestamp" (JSON.quote (timestamp i)) ++ "}".

Definition stringify (d : CacheData) : string :=
  "{" ++ field "items" ("[" ++ String.concat "," (List.map stringify_NewsItem (items d)) ++ "]")
      ++ "," ++ field "expiry" (JSON.integer (expiry d)) ++ "}".

(** The component state, one field per [useState]. *)
Record State : Type := {
  news : JSON.any;
  loading : bool;
  error : bool;
  isCached : bool
}.

(** The component with what it reaches outside itself: the browser's
    [localStorage] and the live calls made so far. *)
Record World : Type := {
  state : State;
  localStorage : gmap string string;
  requests : nat
}.

Definition initial : State :=
  {| news := JSON.Arr []; loading := true; error := false; isCached := false |}.

(** Step 1 of [fetchNews], when not forced: the cached [items] on a
    hit, and the store as the read leaves it. *)
Inductive lookup : Type :=
| Hit (cached_items : JSON.any)
| Miss.

Definition read_cache (now : Z) (store : gmap string string)
    : lookup * gmap string string :=
  match store !! CACHE_KEY with
  | Some cached =>
      if JS.nonempty cached then
        match JSON.parse cached with
        | Some parsed =>
            match JSON.get parsed "expiry" with
            | Some expiry =>
                if JS.lt (JS.Fin (inject_Z now)) (JSON.ToNumber expiry)
                then (Hit (default JSON.Undefined (JSON.get parsed "items")), store)
                else (Miss, store)
            | None => (Miss, delete CACHE_KEY store)
            end
        | None => (Miss, delete CACHE_KEY store)
        end
      else (Miss, store)
  | None => (Miss, store)
  end.

(** Steps 2 and 3: the live call and the cache update.  [fetched] is
    the [newsItems] array built from the reply, [None] when the call
    or the reading of its reply throws; [now] is the clock when the
    entry is written. *)
Definition fresh_fetch (fetched : option (list NewsItem)) (now : Z) (w : World) : World :=
  let st := state w in
  let st := {| news := news st; loading := true; error := false; isCached := false |} in
  let requests := S (requests w) in
  match fetched with
  | Some (i :: l) =>
      let newsItems := i :: l in
      let cacheData := {| items := newsItems; expiry := now + CACHE_TTL |} in
      {| state := {| news := any_of_items newsItems; loading := false;
                     error := error st; isCached := isCached st |};
         localStorage := <[CACHE_KEY := stringify cacheData]> (localStorage w);
         requests := requests |}
  | _ =>
      {| state := {| news := news st; loading := false; error := true;
                     isCached := isCached st |};
         localStorage := localStorage w;
         requests := requests |}
  end.

(** [fetchNews(force)]: [now] is the clock at the cache check, [now']
    the clock at the cache update. *)
Definition fetchNews (force : bool) (now : Z) (fetched : option (list NewsItem))
    (now' : Z) (w : World) : World :=
  if force then fresh_fetch fetched now' w
  else
    match read_cache now (localStorage w) with
    | (Hit cached_items, store) =>
        {| state := {| news := cached_items; loading := false;
                       error := error (state w); isCached := true |};
           localStorage := store;
           requests := requests w |}
    | (Miss, store) =>
        fresh_fetch fetched now'
          {| state := state w; localStorage := store; requests := requests w |}
    end.

End NewsFeed.

(** ** [components/ChatBot.tsx] *)

Module ChatBot.

Inductive Role : Type := user | model.

Record Source : Type := { title : string; uri : string }.

Record Message : Type := {
  role : Role;
  text : string;
  sources : option (list Source);
  timestamp : string
}.

Record State : Type := {
  messages : list Message;
  input : string;
  isTyping : bool
}.

(** What [generateContent] resolves to: the reply text, when there is
    one, and the [web] part of each grounding chunk, when there is one. *)
Record GenerateContentResponse : Type := {
  response_text : option string;
  groundingChunks : option (list (option Source))
}.

Definition getSimulatedResponse (userInput : string) : string :=
  let input := JS.toLowerCase userInput in
  if JS.includes input "bitcoin" || JS.includes input "btc" then
    "Bitcoin is currently testing major psychological resistance levels. On-chain data suggests institutional wallets are in a 'holding' phase, while retail sentiment remains cautiously optimistic. Watch the 200-day moving average for trend confirmation."
  else if JS.includes input "ethereum" || JS.includes input "eth" then
    "Ethereum's network activity has seen a slight uptick in L2 gas consumption. Deflationary pressures are mounting as burn rates exceed issuance. The current focus is on upcoming network upgrades aimed at scalability."
  else if JS.includes input "memecoin" || JS.includes input "meme" then
    "The memecoin sector is currently high-volatility with significant rotation observed into AI-themed assets. While liquidity is thin, social dominance for top-tier memes remains strong. High risk, high reward dynamics are dominant here."
  else if JS.includes input "analysis" || JS.includes input "market" then
    "Broad market structure remains in a consolidation phase. Dominance levels are shifting as capital rotates into specific sector narratives. Macro indicators point towards a period of volatility as traders await clarity on global fiscal policies."
  else
    "The terminal is operating in simulated intelligence mode. Current data streams indicate localized volatility and increasing accumulation in blue-chip assets. Interrogate specific tickers for deeper surveillance.".

(** The text appended when the live call failed. *)
Definition degraded : string := " (Note: Live uplink failed, using simulated data).".

(** [overrideInput || input] *)
Definition textToSend (overrideInput : option string) (st : State) : string :=
  match overrideInput with
  | Some o => if JS.nonempty o then o else input st
  | None => input st
  end.

(** The guard [!textToSend.trim() || isTyping], negated. *)
Definition accepted (overrideInput : option string) (st : State) : bool :=
  JS.nonempty (JS.trim (textToSend overrideInput st)) && negb (isTyping st).

(** [grounding.map(chunk => chunk.web).filter(web => !!web?.uri)] *)
Definition sources_of (grounding : list (option Source)) : list Source :=
  omap (fun web => match web with
                   | Some w => if JS.nonempty (uri w) then Some w else None
                   | None => None
                   end) grounding.

Definition reply (HAS_API_KEY : bool) (live : option GenerateContentResponse)
    (textToSend : string) (at_reply : string) : Message :=
  if negb HAS_API_KEY then
    {| role := model; text := getSimulatedResponse textToSend;
       sources := None; timestamp := at_reply |}
  else
    match live with
    | Some response =>
        let modelText :=
          match response_text response with
          | Some t => if JS.nonempty t then t else "Protocol timeout. Signal lost."
          | None => "Protocol timeout. Signal lost."
          end in
        let sources := sources_of (default [] (groundingChunks response)) in
        {| role := model; text := modelText;
           sources := match sources with [] => None | _ => Some sources end;
           timestamp := at_reply |}
    | None =>
        {| role := model; text := getSimulatedResponse textToSend ++ degraded;
           sources := None; timestamp := at_reply |}
    end.

(** [sendMessage(overrideInput)], up to the moment the reply is in the
    list (one second later when simulated).  [live] is what the live
    call does on the text sent, [None] when it throws; [at_send] and
    [at_reply] are the clock's two readings. *)
Definition sendMessage (HAS_API_KEY : bool)
    (live : string -> option GenerateContentResponse)
    (at_send at_reply : string) (overrideInput : option string) (st : State) : State :=
  let textToSend := textToSend overrideInput st in
  if negb (accepted overrideInput st) then st
  else
    let userMessage :=
      {| role := user; text := textToSend; sources := None; timestamp := at_send |} in
    {| messages := (messages st ++ [userMessage])
                   ++ [reply HAS_API_KEY (live textToSend) textToSend at_reply];
       input := "";
       isTyping := false |}.

End ChatBot.

(** ** The query coordinator under every event ([App.tsx]) *)

Module Coordinator.

Import Types.

(** What the user can do to the three values the effect depends on. *)
Inductive Event : Type :=
| Typed (text : string)
| ModeClicked (mode : MarketMode)
| ChainClicked (chain : Blockchain).

Definition Blockchain_eqb (a b : Blockchain) : bool :=
  match a, b with
  | solana, solana | ethereum, ethereum | base, base | bsc, bsc | all, all => true
  | _, _ => false
  end.

(** The handlers.  The chain buttons are rendered in Memecoin mode only. *)
Definition handle (e : Event) (st : App.State) : App.State :=
  match e with
  | Typed text => App.setSearchQuery text st
  | ModeClicked mode => App.clickMode mode st
  | ChainClicked chain =>
      match App.marketMode st with
      | memecoins => App.setBlockchain chain st
      | bluechips => st
      end
  end.

(** The dependencies of the effect hold the same values in both states:
    [marketMode], [blockchain] (with which [fetchMemecoins] is made
    anew) and [searchQuery]; [fetchBluechips] is made once. *)
Definition same_deps (st st' : App.State) : bool :=
  MarketMode_eqb (App.marketMode st) (App.marketMode st')
  && Blockchain_eqb (App.blockchain st) (App.blockchain st')
  && String.eqb (App.searchQuery st) (App.searchQuery st').

(** After a render: when a dependency changed, the cleanup of the last
    run and then the effect. *)
Definition commit (t : Z) (st st' : App.State) (s : App.Scheduler) : App.Scheduler :=
  if same_deps st st' then s else App.run_effect t st' (App.cleanup s).

(** An event at time [t]: timers due by then have run; the handler's
    updates are rendered together. *)
Definition step (t : Z) (e : Event) (w : App.State * App.Scheduler)
    : App.State * App.Scheduler :=
  let (st, s) := w in
  let st' := handle e st in
  (st', commit t st st' (App.fire_due t s)).

Definition run (events : list (Z * Event)) (w : App.State * App.Scheduler)
    : App.State * App.Scheduler :=
  fold_left (fun w e => step (fst e) (snd e) w) events w.

(** The first render at time [t]: the effect runs. *)
Definition mount (t : Z) (st : App.State) : App.State * App.Scheduler :=
  (st, App.run_effect t st App.idle).

End Coordinator.

(** ** The reply of the live news call ([components/NewsFeed.tsx]) *)

Module NewsReply.

Import NewsFeed.

(** What [generateContent] resolves to, as [fetchNews] reads it: the
    reply text, and for each grounding chunk of the first candidate its
    [web.uri]; each may be absent. *)
Record GenerateContentResponse : Type := {
  text : option string;
  groundingChunks : option (list (option string))
}.

(** [s.split(sep)] with a one-character separator. *)
Fixpoint split (sep : ascii) (s : string) : list string :=
  match s with
  | EmptyString => [EmptyString]
  | String c r =>
      if Ascii.eqb c sep then EmptyString :: split sep r
      else
        match split sep r with
        | x :: xs => String c x :: xs
        | [] => [String c EmptyString]
        end
  end.

(** [text.split('\n').filter(l => l.trim().length > 10)] *)
Definition lines (text : string) : list string :=
  List.filter (fun l => (10 <? String.length (JS.trim l))%nat) (split "010" text).

(** [.replace(/^\d+\.\s*/, '')]: digits, a point and the white space
    after it, when the line starts so. *)
Definition strip_ordinal (s : string) : string :=
  let (digits, r) := JS.scan_digits s in
  if JS.has_digits digits then
    match r with
    | String c r' => if Ascii.eqb c "." then JS.trimStart r' else s
    | EmptyString => s
    end
  else s.

(** [.replace(/^[-*]\s*/, '')] *)
Definition strip_bullet (s : string) : string :=
  match s with
  | String c r => if (Ascii.eqb c "-" || Ascii.eqb c "*")%bool then JS.trimStart r else s
  | EmptyString => s
  end.

(** [s.split(':')[0]] *)
Definition before_colon (s : string) : string := List.hd EmptyString (split ":" s).

(** [s.split(':').slice(1).join(':')] *)
Definition after_colon (s : string) : string := String.concat ":" (List.tl (split ":" s)).

Definition headline_of (line : string) : string :=
  let h := before_colon (strip_bullet (strip_ordinal line)) in
  if JS.nonempty h then h else "Market Intel".

Definition summary_of (line : string) : string :=
  if JS.includes line ":" then JS.trim (after_colon line) else line.

(** [chunks[i]?.web?.uri], when it is there and not empty. *)
Definition uri_at (chunks : list (option string)) (i : nat) : option string :=
  match List.nth_error chunks i with
  | Some (Some u) => if JS.nonempty u then Some u else None
  | _ => None
  end.

(** [chunks[i]?.web?.uri || chunks[0]?.web?.uri || "#"] *)
Definition url_of (chunks : list (option string)) (i : nat) : string :=
  match uri_at chunks i with
  | Some u => u
  | None =>
      match uri_at chunks 0 with
      | Some u => u
      | None => "#"
      end
  end.

Section Clock.

(** [new Date(ms).toLocaleTimeString([], { hour: '2-digit', minute: '2-digit' })],
    which the host's locale decides. *)
Variable toLocaleTimeString : Z -> string.

(** The body of the loop at index [i]. *)
Definition item (now : Z) (chunks : list (option string)) (i : nat) (line : string)
    : NewsItem :=
  {| headline := headline_of line;
     summary := summary_of line;
     url := url_of chunks i;
     timestamp := toLocaleTimeString (now - Z.of_nat i * 15 * 60000) |}.

(** The [newsItems] built from a reply; [now] is [new Date()]. *)
Definition newsItems (response : GenerateContentResponse) (now : Z) : list NewsItem :=
  let text := match text response with
              | Some t => t
              | None => EmptyString
              end in
  let chunks := default [] (groundingChunks response) in
  imap (item now chunks) (List.firstn 8 (lines text)).

(** [fetchNews(force)] with the live call's outcome in place of the
    items: [reply] is [None] when the call throws; [date] is
    [new Date()] after the reply. *)
Definition fetchNews_live (force : bool) (now : Z) (reply : option GenerateContentResponse)
    (date now' : Z) (w : World) : World :=
  fetchNews force now
    (match reply with
     | Some response => Some (newsItems response date)
     | None => None
     end) now' w.

End Clock.

End NewsReply.

(** ** The suggestion bar of the assistant ([components/ChatBot.tsx]) *)

Module Suggestions.

Record State : Type := {
  suggestions : list string;
  loadingSuggestions : bool
}.

Definition initial : State :=
  {| suggestions := ["Current market analysis?"; "Next Bitcoin move?";
                     "Trending memecoins?"; "Institutional sentiment?"];
     loadingSuggestions := false |}.

(** [fetchDynamicSuggestions].  [reply] is what the live call and
    [JSON.parse] give: [None] when either throws, else the [suggestions]
    member of the parsed data, which may be absent. *)
Definition fetchDynamicSuggestions (HAS_API_KEY : bool)
    (reply : option (option (list string))) (st : State) : State :=
  if negb HAS_API_KEY then
    {| suggestions := ["Explain current liquidity flows"; "Top AI-narrative tokens?";
                       "Bitcoin halving impact?"; "Assess Ethereum network health"];
       loadingSuggestions := loadingSuggestions st |}
  else
    match reply with
    | Some (Some (x :: l)) => {| suggestions := x :: l; loadingSuggestions := false |}
    | _ => {| suggestions := suggestions st; loadingSuggestions := false |}
    end.

End Suggestions.

(** ** The public news feed (the second [NewsFeed] component) *)

Module PublicFeed.

Record NewsItem : Type := {
  headline : string;
  summary : string;
  url : string;
  timestamp : string;
  source : string
}.

Record CacheData : Type := {
  items : list NewsItem;
  expiry : Z
}.

Definition CACHE_KEY : string := "midnight_market_news_cache_v2".
Definition CACHE_TTL : Z := 5 * 60 * 1000.

(** One entry of [data.Data], with the members the feed documents;
    [source_info?.name] may be absent. *)
Record Article : Type := {
  title : string;
  body : string;
  article_url : string;
  source_info_name : option string;
  published_on : Z
}.

(** The body of the news feed, as [data && data.Data] and the [slice]
    and [map] after it tell it apart: nothing truthy under [Data], an
    array of entries, or a truthy value that is no array (on which the
    mapping throws). *)
Inductive NewsData : Type :=
| NoData
| Entries (Data : list Article)
| NotArray.

(** The run-time value of a typed one, members in the order the object
    literal lists them. *)
Definition any_of_NewsItem (i : NewsItem) : JSON.any :=
  JSON.Obj [("headline", JSON.Str (headline i)); ("summary", JSON.Str (summary i));
            ("url", JSON.Str (url i)); ("source", JSON.Str (source i));
            ("timestamp", JSON.Str (timestamp i))].

Definition any_of_items (l : list NewsItem) : JSON.any :=
  JSON.Arr (List.map any_of_NewsItem l).

Definition any_of_CacheData (d : CacheData) : JSON.any :=
  JSON.Obj [("items", any_of_items (items d));
            ("expiry", JSON.Num (JS.Fin (inject_Z (expiry d))))].

Definition field (key : string) (text : string) : string :=
  JSON.quote key ++ ":" ++ text.

Definition stringify_NewsItem (i : NewsItem) : string :=
  "{" ++ field "headline" (JSON.quote (headline i)) ++ ","
      ++ field "summary" (JSON.quote (summary i)) ++ ","
      ++ field "url" (JSON.quote (url i)) ++ ","
      ++ field "source" (JSON.quote (source i)) ++ ","
      ++ field "timestamp" (JSON.quote (timestamp i)) ++ "}".

Definition stringify (d : CacheData) : string :=
  "{" ++ field "items" ("[" ++ String.concat "," (List.map stringify_NewsItem (items d)) ++ "]")
      ++ "," ++ field "expiry" (JSON.integer (expiry d)) ++ "}".

Record State : Type := {
  news : JSON.any;
  loading : bool;
  error : bool
}.

Record World : Type := {
  state : State;
  localStorage : gmap string string;
  requests : nat
}.

Definition initial : State :=
  {| news := JSON.Arr []; loading := true; error := false |}.

Section Clock.

(** [new Date(ms).toLocaleTimeString([], { hour: '2-digit', minute: '2-digit' })] *)
Variable toLocaleTimeString : Z -> string.

(** The callback of [data.Data.slice(0, 15).map]. *)
Definition mapArticle (item : Article) : NewsItem :=
  {| headline := title item;
     summary := if (120 <? JS.length (body item))%nat
                then JS.substring_from_0 117 (body item) ++ "..."
                else body item;
     url := article_url item;
     source := match source_info_name item with
               | Some name => if JS.nonempty name then name else "CRYPTO_INTEL"
               | None => "CRYPTO_INTEL"
               end;
     timestamp := toLocaleTimeString (published_on item * 1000) |}.

Definition mappedItems (Data : list Article) : list NewsItem :=
  List.map mapArticle (List.firstn 15 Data).

Inductive lookup : Type :=
| Hit (cached_items : JSON.any)
| Miss.

(** The cache check, when not forced. *)
Definition read_cache (now : Z) (store : gmap string string)
    : lookup * gmap string string :=
  match store !! CACHE_KEY with
  | Some cached =>
      if JS.nonempty cached then
        match JSON.parse cached with
        | Some parsed =>
            match JSON.get parsed "expiry" with
            | Some expiry =>
                if JS.lt (JS.Fin (inject_Z now)) (JSON.ToNumber expiry)
                then (Hit (default JSON.Undefined (JSON.get parsed "items")), store)
                else (Miss, store)
            | None => (Miss, delete CACHE_KEY store)
            end
        | None => (Miss, delete CACHE_KEY store)
        end
      else (Miss, store)
  | None => (Miss, store)
  end.

(** The fetch and the cache update; [now] is the clock when the entry
    is written. *)
Definition fresh_fetch (net : Feed.reply NewsData) (now : Z) (w : World) : World :=
  let requests := S (requests w) in
  match App.read net with
  | Some (Entries Data) =>
      let mappedItems := mappedItems Data in
      let cacheData := {| items := mappedItems; expiry := now + CACHE_TTL |} in
      {| state := {| news := any_of_items mappedItems; loading := false; error := false |};
         localStorage := <[CACHE_KEY := stringify cacheData]> (localStorage w);
         requests := requests |}
  | Some NoData =>
      {| state := {| news := news (state w); loading := false; error := false |};
         localStorage := localStorage w;
         requests := requests |}
  | Some NotArray | None =>
      {| state := {| news := news (state w); loading := false; error := true |};
         localStorage := localStorage w;
         requests := requests |}
  end.

(** [fetchNews(force)]: [now] is the clock at the cache check, [now']
    the clock at the cache update. *)
Definition fetchNews (force : bool) (now : Z) (net : Feed.reply NewsData)
    (now' : Z) (w : World) : World :=
  if force then fresh_fetch net now' w
  else
    match read_cache now (localStorage w) with
    | (Hit cached_items, store) =>
        {| state := {| news := cached_items; loading := false; error := error (state w) |};
           localStorage := store;
           requests := requests w |}
    | (Miss, store) =>
        fresh_fetch net now'
          {| state := state w; localStorage := store; requests := requests w |}
    end.

End Clock.

End PublicFeed.

(** ** The auto-refresh of the two news feeds (their [useEffect]) *)

Module Refresh.

(** The period of [setInterval(() => fetchNews(), 300000)]. *)
Definition INTERVAL : Z := 300000.

(** What one run of [fetchNews()] meets: the items its live call would
    build, and the time from its cache check to its cache update. *)
Record Tick : Type := {
  fetched : option (list NewsFeed.NewsItem);
  took : Z
}.

(** The unforced reads of [components/NewsFeed.tsx], one per tick from
    [now] on, each finished before the next begins. *)
Fixpoint refresh (now : Z) (ticks : list Tick) (w : NewsFeed.World) : NewsFeed.World :=
  match ticks with
  | [] => w
  | t :: ticks =>
      refresh (now + INTERVAL) ticks
        (NewsFeed.fetchNews false now (fetched t) (now + took t) w)
  end.

Record PublicTick : Type := {
  net : Feed.reply PublicFeed.NewsData;
  public_took : Z
}.

(** The same for the public feed. *)
Fixpoint public_refresh (toLocaleTimeString : Z -> string) (now : Z)
    (ticks : list PublicTick) (w : PublicFeed.World) : PublicFeed.World :=
  match ticks with
  | [] => w
  | t :: ticks =>
      public_refresh toLocaleTimeString (now + INTERVAL) ticks
        (PublicFeed.fetchNews toLocaleTimeString false now (net t) (now + public_took t) w)
  end.

End Refresh.

(** ** Vocabulary of the statements *)

(** The first occurrence of each address not yet in [seen], in order:
    what the [forEach] keeps. *)
Fixpoint firsts (seen : gset string) (l : list Feed.Pair) : list Feed.Pair :=
  match l with
  | [] => []
  | p :: r =>
      let a := Feed.address (Feed.baseToken p) in
      if decide (a ∈ seen) then firsts seen r
      else p :: firsts ({[a]} ∪ seen) r
  end.

(** [a] may stand before [b] in the sorted array: [b] is not more liquid. *)
Definition above (a b : Feed.Pair) : Prop :=
  JS.leb (App.liquidity b) (App.liquidity a) = true.

(** A burst of typing after the change to [text] at time [t]: each
    further change sets a text that differs from the one before, is not
    blank, and comes less than 600 ms after the change before it. *)
Fixpoint burst (t : Z) (text : string) (changes : list (Z * string)) : Prop :=
  match changes with
  | [] => True
  | (t', text') :: rest =>
      (t' - t < 600)%Z /\ (text' <> text) /\
      ((0 <? String.length (JS.trim text'))%nat = true) /\
      burst t' text' rest
  end.

(** A world with another content of [localStorage]. *)
Definition with_store (store : gmap string string) (w : NewsFeed.World) : NewsFeed.World :=
  {| NewsFeed.state := NewsFeed.state w;
     NewsFeed.localStorage := store;
     NewsFeed.requests := NewsFeed.requests w |}.

(** The field a numeric sort key compares; the name key compares no
    number. *)
Definition sort_field (key : App.SortKey) (a : Types.Asset) : JS.number :=
  match key with
  | App.market_cap => Types.marketCap a
  | App.price_change => Types.priceChange24h a
  | App.volume => Types.volume24h a
  | App.by_name => JS.NaN
  end.

(** [a] may stand before [b] in the list sorted by [key] in [order]. *)
Definition in_order (key : App.SortKey) (order : App.SortOrder) (a b : Types.Asset) : Prop :=
  match order with
  | App.desc => JS.leb (sort_field key b) (sort_field key a) = true
  | App.asc => JS.leb (sort_field key a) (sort_field key b) = true
  end.

(** The search text is found in the name or the symbol, in lower case. *)
Definition matches (searchQuery : string) (a : Types.Asset) : bool :=
  JS.includes (JS.toLowerCase (Types.name a)) (JS.toLowerCase searchQuery)
  || JS.includes (JS.toLowerCase (Types.symbol a)) (JS.toLowerCase searchQuery).

(** The timer table holds at most one timer, and that one belongs to
    the state: the mode is Memecoin and the timer will search for the
    search text as it is. *)
Definition timer_is_current (w : App.State * App.Scheduler) : Prop :=
  match App.timers (snd w) with
  | [] => True
  | [(_, tm)] =>
      App.marketMode (fst w) = Types.memecoins /\
      App.callback tm = App.CallMemecoins (Some (App.searchQuery (fst w))) /\
      (0 <? String.length (JS.trim (App.searchQuery (fst w))))%nat = true
  | _ :: _ :: _ => False
  end.

(** The timer table holds at most the timer of the effect's last run,
    the one the cleanup that run returned will clear. *)
Definition last_run_only (s : App.Scheduler) : Prop :=
  App.timers s = [] \/
  exists (timer : nat) (tm : App.Timer),
    App.timers s = [(timer, tm)] /\ App.destroy s = Some timer.

(** The character does not occur in the text. *)
Fixpoint free_of (c : ascii) (s : string) : bool :=
  match s with
  | EmptyString => true
  | String a r => negb (Ascii.eqb a c) && free_of c r
  end.

(** The text is white space throughout. *)
Fixpoint all_space (s : string) : bool :=
  match s with
  | EmptyString => true
  | String c r => JS.is_space c && all_space r
  end.

(** ** Sample inputs *)

(** A DEX none of whose endpoints answers. *)
Definition dex_down : Feed.Dex :=
  {| Feed.search := fun _ => Feed.Failed "network";
     Feed.token_profiles := Feed.Response false (Feed.BadJson "");
     Feed.tokens := fun _ => Feed.Failed "network" |}.

(** A chat panel with a question typed in. *)
Definition chat_asking : ChatBot.State :=
  {| ChatBot.messages := []; ChatBot.input := "Next Bitcoin move?";
     ChatBot.isTyping := false |}.

(** A user in Memecoin mode, nothing typed, no timer pending. *)
Definition memecoin_idle : App.State * App.Scheduler :=
  (App.setMarketMode Types.memecoins App.initial, App.idle).

(** The scenario of the specification: token [0xAB] quoted on two Solana
    pools, with liquidity 100 and 500, and a third pool on another chain. *)
Definition token_AB : Feed.BaseToken :=
  {| Feed.address := "0xAB"; Feed.token_symbol := "AB"; Feed.token_name := "Alpha Beta" |}.

Definition pool_100 : Feed.Pair :=
  {| Feed.chainId := "solana"; Feed.baseToken := token_AB;
     Feed.priceUsd := JS.Text "1.00";
     Feed.priceChange_h24 := Some (JS.Number (JS.Fin 3));
     Feed.fdv := JS.Number (JS.Fin 1000);
     Feed.volume_h24 := Some (JS.Number (JS.Fin 40));
     Feed.liquidity_usd := Some (JS.Fin 100) |}.

Definition pool_500 : Feed.Pair :=
  {| Feed.chainId := "solana"; Feed.baseToken := token_AB;
     Feed.priceUsd := JS.Text "1.25";
     Feed.priceChange_h24 := Some (JS.Number (JS.Fin 4));
     Feed.fdv := JS.Number (JS.Fin 1250);
     Feed.volume_h24 := Some (JS.Number (JS.Fin 70));
     Feed.liquidity_usd := Some (JS.Fin 500) |}.

Definition pool_elsewhere : Feed.Pair :=
  {| Feed.chainId := "ethereum"; Feed.baseToken := token_AB;
     Feed.priceUsd := JS.Text "9";
     Feed.priceChange_h24 := None;
     Feed.fdv := JS.Missing;
     Feed.volume_h24 := None;
     Feed.liquidity_usd := Some (JS.Fin 9000) |}.

(** A pool whose price text is no number. *)
Definition pool_garbled : Feed.Pair :=
  {| Feed.chainId := "solana"; Feed.baseToken := token_AB;
     Feed.priceUsd := JS.Text "abc";
     Feed.priceChange_h24 := None;
     Feed.fdv := JS.Missing;
     Feed.volume_h24 := Some (JS.Text "");
     Feed.liquidity_usd := None |}.

Definition dex_AB : Feed.Dex :=
  {| Feed.search := fun _ =>
       Feed.Response true
         (Feed.Json {| Feed.pairs := Some [pool_100; pool_elsewhere; pool_500] |});
     Feed.token_profiles := Feed.Response true (Feed.Json (Feed.Profiles [Some "0xAB"]));
     Feed.tokens := fun _ =>
       Feed.Response true
         (Feed.Json {| Feed.pairs := Some [pool_100; pool_elsewhere; pool_500] |}) |}.

Definition on_solana : App.State :=
  App.setBlockchain Types.solana (App.setMarketMode Types.memecoins App.initial).

Definition headline_1 : NewsFeed.NewsItem :=
  {| NewsFeed.headline := "ETF inflows rise"; NewsFeed.summary := "Funds add exposure";
     NewsFeed.url := "https://example.org/a"; NewsFeed.timestamp := "10:00" |}.

(** A browser that has never shown the feed. *)
Definition first_visit : NewsFeed.World :=
  {| NewsFeed.state := NewsFeed.initial; NewsFeed.localStorage := ∅;
     NewsFeed.requests := 0 |}.

(** A browser whose cache entry expired at time 1000. *)
Definition stale_visit : NewsFeed.World :=
  with_store
    {[ NewsFeed.CACHE_KEY :=
         NewsFeed.stringify {| NewsFeed.items := [headline_1]; NewsFeed.expiry := 1000 |} ]}
    first_visit.

(** A browser whose cache entry is no JSON. *)
Definition broken_visit : NewsFeed.World :=
  with_store {[ NewsFeed.CACHE_KEY := "{oops" ]} first_visit.

(** A few ranked assets, out of order. *)
Definition asset_of (id : string) (cap change : Z) : Types.Asset :=
  {| Types.id := id; Types.symbol := JS.toUpperCase id; Types.name := id;
     Types.currentPrice := JS.Fin 1;
     Types.priceChange24h := JS.Fin (inject_Z change);
     Types.marketCap := JS.Fin (inject_Z cap);
     Types.volume24h := JS.Fin 5;
     Types.sparklineData := []; Types.image := ""; Types.rank := JS.Fin 1;
     Types.blockchain := None; Types.contractAddress := None |}.

Definition three_assets : App.State :=
  App.setAssets [asset_of "ether" 300 2; asset_of "bitcoin" 900 (-1); asset_of "tether" 100 0]
    App.initial.

(** A DEX whose discovery feed lists no token. *)
Definition dex_nothing_trending : Feed.Dex :=
  {| Feed.search := fun _ => Feed.Failed "unused";
     Feed.token_profiles := Feed.Response true (Feed.Json (Feed.Profiles []));
     Feed.tokens := fun _ => Feed.Failed "unused" |}.

(** A DEX with a given discovery list, whose pair lookup answers with
    the addresses it was asked for as one chain id. *)
Definition dex_echo (profiles : list (option string)) : Feed.Dex :=
  {| Feed.search := fun _ => Feed.Failed "unused";
     Feed.token_profiles := Feed.Response true (Feed.Json (Feed.Profiles profiles));
     Feed.tokens := fun addresses =>
       Feed.Response true
         (Feed.Json {| Feed.pairs :=
            Some [ {| Feed.chainId := addresses; Feed.baseToken := token_AB;
                      Feed.priceUsd := JS.Missing; Feed.priceChange_h24 := None;
                      Feed.fdv := JS.Missing; Feed.volume_h24 := None;
                      Feed.liquidity_usd := None |} ] |}) |}.

(** A ranked asset whose upstream price change is absent. *)
Definition coin_without_change : Feed.Coin :=
  {| Feed.coin_id := "bitcoin"; Feed.coin_symbol := "btc"; Feed.coin_name := "Bitcoin";
     Feed.current_price := JS.Fin 60000; Feed.price_change_percentage_24h := None;
     Feed.market_cap := JS.Fin 1000000; Feed.total_volume := JS.Fin 500;
     Feed.sparkline_in_7d_price := []; Feed.coin_image := "";
     Feed.market_cap_rank := JS.Fin 1 |}.

(** A browser whose cache entry is JSON of another shape, and one whose
    entry is the JSON [null]. *)
Definition shapeless_visit : NewsFeed.World :=
  with_store {[ NewsFeed.CACHE_KEY := "{}" ]} first_visit.

Definition null_visit : NewsFeed.World :=
  with_store {[ NewsFeed.CACHE_KEY := "null" ]} first_visit.

(** A reply with nothing to show. *)
Definition reply_empty : NewsReply.GenerateContentResponse :=
  {| NewsReply.text := None; NewsReply.groundingChunks := None |}.

(** An article whose body is 130 characters long. *)
Definition article_long : PublicFeed.Article :=
  {| PublicFeed.title := "Rates held";
     PublicFeed.body :=
       "0123456789012345678901234567890123456789012345678901234567890123456789012345678901234567890123456789012345678901234567890123456789";
     PublicFeed.article_url := "https://example.org/rates";
     PublicFeed.source_info_name := Some "";
     PublicFeed.published_on := 1700000000 |}.

(** An article whose body is 61 times the letter U+00E9: 122 bytes of
    UTF-8, 61 code units. *)
Definition article_accented : PublicFeed.Article :=
  {| PublicFeed.title := "Taux";
     PublicFeed.body :=
       String.concat "" (List.repeat (String "195" (String "169" "")) 61);
     PublicFeed.article_url := "https://example.org/taux";
     PublicFeed.source_info_name := None;
     PublicFeed.published_on := 1700000000 |}.

(** A browser that has never shown the public feed. *)
Definition public_first_visit : PublicFeed.World :=
  {| PublicFeed.state := PublicFeed.initial; PublicFeed.localStorage := ∅;
     PublicFeed.requests := 0 |}.

(** A clock that prints every time alike. *)
Definition noon (ms : Z) : string := "12:00".

(** * Properties *)

(** ** Click handlers and the comparator *)

(** C9. Clicking a market-mode button, whatever the mode held before and
    whichever button it is, leaves [marketMode] at the clicked mode,
    [blockchain] at [all] and [searchQuery] empty, and touches nothing
    else. *)
Theorem clickMode_resets_filter_and_search :
  forall (mode : Types.MarketMode) (st : App.State),
    let st' := App.clickMode mode st in
    App.marketMode st' = mode /\
    App.blockchain st' = Types.all /\
    App.searchQuery st' = "" /\
    App.assets st' = App.assets st /\
    App.sortKey st' = App.sortKey st /\
    App.sortOrder st' = App.sortOrder st /\
    App.loading st' = App.loading st /\
    App.error st' = App.error st /\
    App.lastUpdated st' = App.lastUpdated st /\
    App.selectedAsset st' = App.selectedAsset st /\
    App.theme st' = App.theme st.
Proof. intros mode st; cbn; repeat split. Qed.

Lemma SortKey_eqb_eq (a b : App.SortKey) : App.SortKey_eqb a b = true <-> a = b.
Proof. destruct a, b; cbn; split; congruence. Qed.

(** C8. Clicking the selected sort key keeps the key and flips the
    order; clicking another key selects it with order [desc]; and for
    every key the ascending comparator is the negation of the
    descending one. *)
Theorem clickSort_toggles_or_resets :
  forall (localeCompare : string -> string -> JS.number) (st : App.State),
    (let st' := App.clickSort (App.sortKey st) st in
     App.sortKey st' = App.sortKey st /\
     App.sortOrder st' =
       match App.sortOrder st with App.desc => App.asc | App.asc => App.desc end) /\
    (forall id, id <> App.sortKey st ->
       App.sortKey (App.clickSort id st) = id /\
       App.sortOrder (App.clickSort id st) = App.desc) /\
    (forall key a b,
       App.comparator localeCompare key App.asc a b
       = JS.neg (App.comparator localeCompare key App.desc a b)).
Proof.
  intros lc st. split; [|split].
  - unfold App.clickSort.
    assert (E : App.SortKey_eqb (App.sortKey st) (App.sortKey st) = true)
      by now apply SortKey_eqb_eq.
    rewrite E. cbn. split; reflexivity.
  - intros id Hne. unfold App.clickSort.
    destruct (App.SortKey_eqb (App.sortKey st) id) eqn:E.
    + apply SortKey_eqb_eq in E. congruence.
    + cbn. split; reflexivity.
  - reflexivity.
Qed.

Lemma clickSort_toggles_or_resets_witness :
  App.sortKey (App.clickSort App.volume App.initial) = App.volume /\
  App.sortOrder (App.clickSort App.volume App.initial) = App.desc.
Proof.
  apply (proj1 (proj2 (clickSort_toggles_or_resets (fun _ _ => JS.NaN) App.initial))).
  cbn. discriminate.
Defined.

(** ** Failed fetches *)

(** C10. When the ranked-asset fetch throws (rejected, status not [ok],
    unreadable body), the state after [fetchBluechips] is the state
    before with only [error] set to the message and [loading] cleared;
    when the DEX lookup throws, the same holds of [fetchMemecoins] with
    its fixed message.  In both, [assets] is what it was. *)
Theorem failed_fetch_keeps_assets :
  forall (net : Feed.reply (list Feed.Coin)) (dex : Feed.Dex)
         (query : option string) (now : Z) (st : App.State),
    App.read net = None ->
    App.pairResults_of dex query = App.Threw ->
    (exists message,
        App.fetchBluechips net now st
        = App.setLoading false (App.setError (Some message) st)) /\
    App.fetchMemecoins dex now query st
    = App.setLoading false (App.setError (Some "Dex Uplink Interrupted") st) /\
    App.assets (App.fetchBluechips net now st) = App.assets st /\
    App.assets (App.fetchMemecoins dex now query st) = App.assets st.
Proof.
  intros net dex query now st Hnet Hdex.
  assert (B : exists message,
             App.fetchBluechips net now st
             = App.setLoading false (App.setError (Some message) st)).
  { unfold App.fetchBluechips, App.fetchBluechips_try.
    destruct net as [m | [|] [m | data]]; cbn in Hnet; try discriminate;
      eexists; reflexivity. }
  assert (M : App.fetchMemecoins dex now query st
              = App.setLoading false (App.setError (Some "Dex Uplink Interrupted") st)).
  { unfold App.fetchMemecoins. rewrite Hdex. reflexivity. }
  split; [exact B|]. split; [exact M|]. split.
  - destruct B as [m ->]. reflexivity.
  - rewrite M. reflexivity.
Qed.

Lemma failed_fetch_keeps_assets_witness :
  App.assets (App.fetchBluechips (Feed.Response false (Feed.Json [])) 7 App.initial) = [] /\
  App.assets (App.fetchMemecoins dex_down 7 None App.initial) = [].
Proof.
  pose proof (failed_fetch_keeps_assets (Feed.Response false (Feed.Json []))
                dex_down None 7 App.initial eq_refl eq_refl) as H.
  split; [apply (proj1 (proj2 (proj2 H))) | apply (proj2 (proj2 (proj2 H)))].
Defined.

(** ** The assistant's fallback *)

Lemma prefix_refl (b : string) : String.prefix b b = true.
Proof.
  induction b as [|c b IH]; cbn; [reflexivity|].
  destruct (ascii_dec c c); [exact IH | congruence].
Qed.

Lemma includes_app_r (a b : string) : JS.includes (a ++ b)%string b = true.
Proof.
  induction a as [|c a IH].
  - change ("" ++ b)%string with b. destruct b as [|c b]; [reflexivity|].
    change (JS.includes (String c b) (String c b))
      with (String.prefix (String c b) (String c b) || JS.includes b (String c b)).
    now rewrite prefix_refl.
  - change (JS.includes (String c a ++ b)%string b)
      with (String.prefix b (String c (a ++ b)) || JS.includes (a ++ b)%string b).
    rewrite IH. apply orb_true_r.
Qed.

Lemma simulated_not_degraded (userInput : string) :
  JS.includes (ChatBot.getSimulatedResponse userInput) ChatBot.degraded = false.
Proof.
  unfold ChatBot.getSimulatedResponse.
  repeat match goal with
         | |- context [if ?c then _ else _] => destruct c
         end; vm_compute; reflexivity.
Qed.

(** C7. For a request that passes the guard: without the credential the
    reply appended is the simulated responder's text for the text sent,
    and that text does not contain the degraded marker; with the
    credential and a live call that throws, the reply is that same text
    followed by the marker. *)
Theorem chat_falls_back_to_simulated :
  forall (live : string -> option ChatBot.GenerateContentResponse)
         (at_send at_reply : string) (overrideInput : option string)
         (st : ChatBot.State),
    ChatBot.accepted overrideInput st = true ->
    let sent := ChatBot.textToSend overrideInput st in
    let question :=
      {| ChatBot.role := ChatBot.user; ChatBot.text := sent;
         ChatBot.sources := None; ChatBot.timestamp := at_send |} in
    let answer (t : string) :=
      {| ChatBot.role := ChatBot.model; ChatBot.text := t;
         ChatBot.sources := None; ChatBot.timestamp := at_reply |} in
    ChatBot.messages (ChatBot.sendMessage false live at_send at_reply overrideInput st)
    = ChatBot.messages st ++ [question; answer (ChatBot.getSimulatedResponse sent)] /\
    JS.includes (ChatBot.getSimulatedResponse sent) ChatBot.degraded = false /\
    (live sent = None ->
     ChatBot.messages (ChatBot.sendMessage true live at_send at_reply overrideInput st)
     = ChatBot.messages st
       ++ [question; answer (ChatBot.getSimulatedResponse sent ++ ChatBot.degraded)%string] /\
     JS.includes (ChatBot.getSimulatedResponse sent ++ ChatBot.degraded)%string ChatBot.degraded
     = true).
Proof.
  intros live at_send at_reply o st Hacc sent question answer.
  split; [|split].
  - unfold ChatBot.sendMessage. rewrite Hacc. cbn.
    now rewrite <- List.app_assoc.
  - apply simulated_not_degraded.
  - intros Hlive. split.
    + unfold ChatBot.sendMessage. rewrite Hacc. cbn.
      fold sent. unfold ChatBot.reply. cbn. rewrite Hlive.
      now rewrite <- List.app_assoc.
    + apply includes_app_r.
Qed.

Lemma chat_falls_back_to_simulated_witness :
  JS.includes
    (ChatBot.getSimulatedResponse (ChatBot.textToSend None chat_asking))
    ChatBot.degraded = false /\
  List.length
    (ChatBot.messages
       (ChatBot.sendMessage true (fun _ => None) "10:00" "10:01" None chat_asking)) = 2%nat.
Proof.
  pose proof (chat_falls_back_to_simulated (fun _ => None) "10:00" "10:01" None
                chat_asking eq_refl) as H.
  cbv zeta in H. destruct H as (_ & H1 & H2). split; [exact H1|].
  destruct (H2 eq_refl) as [E _]. rewrite E. reflexivity.
Defined.

(** ** The debounce *)

Lemma eqb_neq_false (a b : string) : a <> b -> String.eqb a b = false.
Proof. intros H. now apply String.eqb_neq. Qed.

(** With an empty table nothing fires. *)
Lemma fire_due_empty (t : Z) (s : App.Scheduler) :
  App.timers s = [] -> App.fire_due t s = s.
Proof.
  intros H. unfold App.fire_due. rewrite H. cbn.
  rewrite List.app_nil_r. destruct s; cbn in *. now subst.
Qed.

(** A timer that is not yet due stays in the table. *)
Lemma fire_due_early (t : Z) (s : App.Scheduler) (timer : nat) (tm : App.Timer) :
  App.timers s = [(timer, tm)] -> (t < App.due tm)%Z -> App.fire_due t s = s.
Proof.
  intros H Ht. unfold App.fire_due. rewrite H. cbn.
  destruct (Z.leb_spec (App.due tm) t); [lia|]. cbn.
  rewrite List.app_nil_r. destruct s; cbn in *. now subst.
Qed.

(** The cleanup clears the timer of the last run. *)
Lemma cleanup_last_run (s : App.Scheduler) :
  last_run_only s -> App.timers (App.cleanup s) = [].
Proof.
  intros [H | (timer & tm & H & D)]; unfold App.cleanup.
  - destruct (App.destroy s); [|exact H]. cbn. now rewrite H.
  - rewrite D. cbn. rewrite H. cbn. now rewrite Nat.eqb_refl.
Qed.

Lemma cleanup_keeps (s : App.Scheduler) :
  App.next_handle (App.cleanup s) = App.next_handle s /\
  App.calls (App.cleanup s) = App.calls s.
Proof. unfold App.cleanup. now destruct (App.destroy s). Qed.

(** A change inside the window clears the pending timer, sets a new one
    and calls nothing. *)
Lemma onChange_rearms (t t' : Z) (text text' : string) (st : App.State) (s : App.Scheduler) :
  App.marketMode st = Types.memecoins ->
  App.searchQuery st = text ->
  App.timers s = [] \/
  (exists (timer : nat) (c : App.Call),
      App.timers s = [(timer, {| App.due := t + 600; App.callback := c |})] /\
      App.destroy s = Some timer) ->
  (t' - t < 600)%Z -> text' <> text ->
  (0 <? String.length (JS.trim text'))%nat = true ->
  App.onChange t' text' (st, s)
  = (App.setSearchQuery text' st,
     {| App.timers :=
          [(App.next_handle s,
            {| App.due := t' + 600; App.callback := App.CallMemecoins (Some text') |})];
        App.next_handle := S (App.next_handle s);
        App.destroy := Some (App.next_handle s);
        App.calls := App.calls s |}).
Proof.
  intros Hm Hq Hp Ht Hne Hnb. unfold App.onChange.
  assert (F : App.fire_due t' s = s).
  { destruct Hp as [Hp | (timer & c & Hp & _)].
    - now apply fire_due_empty.
    - apply (fire_due_early _ _ _ _ Hp). cbn. lia. }
  assert (L : last_run_only s).
  { destruct Hp as [Hp | (timer & c & Hp & D)]; [now left | right; eauto]. }
  rewrite F, Hq, (eqb_neq_false _ _ Hne).
  unfold App.run_effect, App.effect.
  change (App.marketMode (App.setSearchQuery text' st)) with (App.marketMode st).
  change (App.searchQuery (App.setSearchQuery text' st)) with text'.
  rewrite Hm, Hnb. unfold App.setTimeout.
  cbn [App.timers App.next_handle App.calls].
  destruct (cleanup_keeps s) as [-> ->].
  now rewrite (cleanup_last_run s L).
Qed.

Lemma last_cons {A : Type} (l : list A) :
  forall (a d : A), List.last (a :: l) d = List.last l a.
Proof.
  induction l as [|b l IH]; intros a d; [reflexivity|].
  change (List.last (a :: b :: l) d) with (List.last (b :: l) d).
  now rewrite !IH.
Qed.

Lemma typing_burst (rest : list (Z * string)) :
  forall (t : Z) (text : string) (st : App.State) (s : App.Scheduler) (timer : nat),
    App.marketMode st = Types.memecoins ->
    App.searchQuery st = text ->
    App.timers s
    = [(timer, {| App.due := t + 600; App.callback := App.CallMemecoins (Some text) |})] ->
    App.destroy s = Some timer ->
    burst t text rest ->
    let final := List.last rest (t, text) in
    App.calls (snd (App.typing rest (st, s))) = App.calls s /\
    (exists timer' : nat,
        App.timers (snd (App.typing rest (st, s)))
        = [(timer', {| App.due := fst final + 600;
                       App.callback := App.CallMemecoins (Some (snd final)) |})]) /\
    App.next_handle (snd (App.typing rest (st, s)))
    = (App.next_handle s + List.length rest)%nat.
Proof.
  induction rest as [|[t' text'] rest IH]; intros t text st s timer Hm Hq Hp Hd Hb.
  - cbn. split; [reflexivity|]. split; [eauto | lia].
  - destruct Hb as (Ht & Hne & Hnb & Hb).
    change (App.typing ((t', text') :: rest) (st, s))
      with (App.typing rest (App.onChange t' text' (st, s))).
    rewrite (onChange_rearms t t' text text' st s Hm Hq) by eauto 6.
    cbv zeta. rewrite (last_cons rest (t', text') (t, text)).
    destruct (IH t' text' (App.setSearchQuery text' st)
                {| App.timers :=
                     [(App.next_handle s,
                       {| App.due := t' + 600;
                          App.callback := App.CallMemecoins (Some text') |})];
                   App.next_handle := S (App.next_handle s);
                   App.destroy := Some (App.next_handle s);
                   App.calls := App.calls s |} (App.next_handle s))
      as (C & T & N); [assumption | reflexivity | reflexivity | reflexivity | assumption |].
    split; [exact C|]. split; [exact T|].
    rewrite N. cbn [App.next_handle List.length]. lia.
Qed.

(** C6. In Memecoin mode with no timer pending, a burst of search-text
    changes, each to a non-blank text and each less than 600 ms after
    the one before, makes exactly one call once time has passed:
    [fetchMemecoins] with the last text, 600 ms after the last change.
    Every change has set a timer of its own, and after the burst the
    table holds the timer of the last change alone: the cleanup has
    cleared the timer of each change before it. *)
Theorem debounce_fires_once_after_last_change :
  forall (st : App.State) (s : App.Scheduler) (t : Z) (text : string)
         (rest : list (Z * string)),
    App.marketMode st = Types.memecoins ->
    App.timers s = [] ->
    text <> App.searchQuery st ->
    (0 <? String.length (JS.trim text))%nat = true ->
    burst t text rest ->
    let final := List.last rest (t, text) in
    let after := snd (App.typing ((t, text) :: rest) (st, s)) in
    App.calls (App.settle after)
    = App.calls s ++ [((fst final + 600)%Z, App.CallMemecoins (Some (snd final)))] /\
    (exists timer : nat,
        App.timers after
        = [(timer, {| App.due := fst final + 600;
                      App.callback := App.CallMemecoins (Some (snd final)) |})]) /\
    App.next_handle after = (App.next_handle s + S (List.length rest))%nat.
Proof.
  intros st s t text rest Hm Hp Hne Hnb Hb final after. unfold after.
  change (App.typing ((t, text) :: rest) (st, s))
    with (App.typing rest (App.onChange t text (st, s))).
  rewrite (onChange_rearms t t (App.searchQuery st) text st s Hm eq_refl (or_introl Hp));
    [ | lia | assumption | assumption ].
  destruct (typing_burst rest t text (App.setSearchQuery text st)
              {| App.timers :=
                   [(App.next_handle s,
                     {| App.due := t + 600;
                        App.callback := App.CallMemecoins (Some text) |})];
                 App.next_handle := S (App.next_handle s);
                 App.destroy := Some (App.next_handle s);
                 App.calls := App.calls s |} (App.next_handle s))
    as (C & (timer' & T) & N);
    [assumption | reflexivity | reflexivity | reflexivity | assumption |].
  split; [|split].
  - unfold App.settle. cbn [App.calls]. rewrite C, T. reflexivity.
  - exists timer'. exact T.
  - rewrite N. cbn [App.next_handle]. lia.
Qed.

Lemma debounce_fires_once_after_last_change_witness :
  App.calls
    (App.settle
       (snd (App.typing [(0, "p"); (100, "pe"); (200, "pep"); (300, "pepe")]%Z
               memecoin_idle)))
  = [(900%Z, App.CallMemecoins (Some "pepe"))].
Proof.
  apply (debounce_fires_once_after_last_change
           (fst memecoin_idle) (snd memecoin_idle) 0 "p"
           [(100, "pe"); (200, "pep"); (300, "pepe")]%Z).
  - reflexivity.
  - reflexivity.
  - discriminate.
  - reflexivity.
  - cbn. repeat split; try lia; discriminate.
Defined.

(** ** Reconciliation of the DEX pairs *)

Lemma liquidity_not_NaN (p : Feed.Pair) : App.liquidity p <> JS.NaN.
Proof.
  unfold App.liquidity, JS.or_zero, JS.zero.
  destruct (Feed.liquidity_usd p) as [[| |q]|]; cbn; try discriminate.
  destruct (Qeq_bool q 0); discriminate.
Qed.

Lemma positive_sub (x y : JS.number) :
  x <> JS.NaN -> y <> JS.NaN -> JS.positive (JS.sub y x) = JS.lt x y.
Proof.
  destruct x as [|a|p], y as [|b|q]; intros Hx Hy; try congruence; cbn.
  - destruct a, b; reflexivity.
  - now rewrite negb_involutive.
  - reflexivity.
  - f_equal. apply eq_true_iff_eq. rewrite !Qle_bool_iff. split; intros H; lra.
Qed.

Lemma leb_negb_lt (x y : JS.number) :
  x <> JS.NaN -> y <> JS.NaN -> JS.leb x y = negb (JS.lt y x).
Proof.
  destruct x as [|a|p], y as [|b|q]; intros Hx Hy; try congruence; cbn.
  - destruct a, b; reflexivity.
  - now rewrite negb_involutive.
  - reflexivity.
  - now rewrite negb_involutive.
Qed.

Lemma leb_refl (x : JS.number) : x <> JS.NaN -> JS.leb x x = true.
Proof.
  destruct x as [|a|p]; intros Hx; try congruence; cbn.
  - now destruct a.
  - apply Qle_bool_iff. lra.
Qed.

Lemma leb_trans (x y z : JS.number) :
  JS.leb x y = true -> JS.leb y z = true -> JS.leb x z = true.
Proof.
  destruct x as [|a|p], y as [|b|q], z as [|c|r]; cbn; try congruence;
    try (destruct a, b, c; cbn; congruence);
    try (destruct a, b; cbn; congruence);
    try (destruct a, c; cbn; congruence);
    try (destruct b, c; cbn; congruence);
    try (destruct b; cbn; congruence).
  rewrite !Qle_bool_iff. intros; lra.
Qed.

Lemma leb_of_lt (x y : JS.number) : JS.lt x y = true -> JS.leb x y = true.
Proof.
  destruct x as [|a|p], y as [|b|q]; cbn; try congruence.
  - destruct a, b; cbn; congruence.
  - rewrite negb_true_iff. intros H. apply Qle_bool_iff.
    destruct (Qlt_le_dec p q) as [L|L]; [lra|].
    apply Qle_bool_iff in L. congruence.
Qed.

Lemma above_refl (p : Feed.Pair) : above p p.
Proof. apply leb_refl, liquidity_not_NaN. Qed.

Lemma above_trans (p q r : Feed.Pair) : above p q -> above q r -> above p r.
Proof. unfold above. intros H1 H2. exact (leb_trans _ _ _ H2 H1). Qed.

(** The comparator puts [x] after [y] exactly when [y] is strictly more
    liquid. *)
Lemma by_liquidity_positive (x y : Feed.Pair) :
  JS.positive (App.by_liquidity x y) = JS.lt (App.liquidity x) (App.liquidity y).
Proof. apply positive_sub; apply liquidity_not_NaN. Qed.

Lemma insert_In {A : Type} (cmp : A -> A -> JS.number) (x y : A) (l : list A) :
  In y (JS.insert cmp x l) <-> y = x \/ In y l.
Proof.
  induction l as [|z l IH]; cbn.
  - intuition.
  - destruct (JS.positive (cmp x z)); cbn; rewrite ?IH; intuition.
Qed.

Lemma sort_In {A : Type} (cmp : A -> A -> JS.number) (y : A) (l : list A) :
  In y (JS.sort cmp l) <-> In y l.
Proof.
  induction l as [|z l IH]; cbn; [tauto|].
  fold (JS.sort cmp l). rewrite insert_In, IH. intuition.
Qed.

Lemma insert_Permutation {A : Type} (cmp : A -> A -> JS.number) (x : A) (l : list A) :
  Permutation (JS.insert cmp x l) (x :: l).
Proof.
  induction l as [|y l IH]; cbn; [reflexivity|].
  destruct (JS.positive (cmp x y)); [|reflexivity].
  rewrite IH. apply perm_swap.
Qed.

(** Sorting rearranges: nothing is lost, nothing is added. *)
Lemma sort_Permutation {A : Type} (cmp : A -> A -> JS.number) (l : list A) :
  Permutation (JS.sort cmp l) l.
Proof.
  induction l as [|x l IH]; cbn; [reflexivity|].
  fold (JS.sort cmp l). rewrite insert_Permutation. now apply perm_skip.
Qed.

Lemma insert_sorted (x : Feed.Pair) (l : list Feed.Pair) :
  StronglySorted above l -> StronglySorted above (JS.insert App.by_liquidity x l).
Proof.
  induction 1 as [|y l Hl IH Hy]; cbn.
  - repeat constructor.
  - rewrite by_liquidity_positive.
    destruct (JS.lt (App.liquidity x) (App.liquidity y)) eqn:E.
    + constructor; [exact IH|].
      apply List.Forall_forall. intros z Hz. apply insert_In in Hz as [->|Hz].
      * now apply leb_of_lt.
      * rewrite List.Forall_forall in Hy. now apply Hy.
    + assert (Hxy : above x y).
      { unfold above. rewrite leb_negb_lt by apply liquidity_not_NaN. now rewrite E. }
      constructor; [now constructor|].
      constructor; [exact Hxy|].
      apply List.Forall_forall. intros z Hz. rewrite List.Forall_forall in Hy.
      exact (above_trans _ _ _ Hxy (Hy z Hz)).
Qed.

Lemma sortedPairs_sorted (l : list Feed.Pair) : StronglySorted above (App.sortedPairs l).
Proof.
  unfold App.sortedPairs, JS.sort.
  induction l as [|x l IH]; cbn; [constructor | now apply insert_sorted].
Qed.

(** The [forEach] computes [firsts]. *)
Lemma fold_visit (l : list Feed.Pair) :
  forall (seen : gset string) (acc : list Types.Asset),
    snd (fold_left App.visit l (seen, acc)) = acc ++ List.map App.mapPair (firsts seen l).
Proof.
  induction l as [|p l IH]; intros seen acc; cbn.
  - now rewrite List.app_nil_r.
  - destruct (decide (Feed.address (Feed.baseToken p) ∈ seen)).
    + apply IH.
    + rewrite IH. cbn. now rewrite <- List.app_assoc.
Qed.

Lemma firsts_In (l : list Feed.Pair) :
  forall (seen : gset string) (p : Feed.Pair),
    In p (firsts seen l) -> In p l /\ Feed.address (Feed.baseToken p) ∉ seen.
Proof.
  induction l as [|x l IH]; intros seen p; cbn; [tauto|].
  destruct (decide (Feed.address (Feed.baseToken x) ∈ seen)) as [Hx|Hx].
  - intros H. destruct (IH _ _ H) as [H1 H2]. tauto.
  - intros [->|H]; [tauto|]. destruct (IH _ _ H) as [H1 H2].
    split; [tauto|]. intros H3. apply H2. apply elem_of_union. now right.
Qed.

Lemma firsts_NoDup (l : list Feed.Pair) :
  forall seen : gset string,
    List.NoDup (List.map (fun p => Feed.address (Feed.baseToken p)) (firsts seen l)).
Proof.
  induction l as [|x l IH]; intros seen; cbn; [constructor|].
  destruct (decide (Feed.address (Feed.baseToken x) ∈ seen)) as [Hx|Hx]; [apply IH|].
  cbn. constructor; [|apply IH].
  intros H. apply in_map_iff in H as (p & E & H).
  apply firsts_In in H as [_ H]. rewrite E in H. set_solver.
Qed.

Lemma firsts_complete (l : list Feed.Pair) :
  forall (seen : gset string) (q : Feed.Pair),
    In q l -> Feed.address (Feed.baseToken q) ∉ seen ->
    exists p, In p (firsts seen l)
              /\ Feed.address (Feed.baseToken p) = Feed.address (Feed.baseToken q).
Proof.
  induction l as [|x l IH]; intros seen q; cbn; [tauto|].
  destruct (decide (Feed.address (Feed.baseToken x) ∈ seen)) as [Hx|Hx].
  - intros [->|H] Hq; [tauto|]. now apply IH.
  - intros [->|H] Hq; [exists q; cbn; tauto|].
    destruct (decide (Feed.address (Feed.baseToken q) = Feed.address (Feed.baseToken x)))
      as [E|E].
    + exists x. cbn. split; [tauto|congruence].
    + assert (Hq' : Feed.address (Feed.baseToken q)
                    ∉ ({[Feed.address (Feed.baseToken x)]} ∪ seen : gset string)).
      { intros H3. apply elem_of_union in H3 as [H3|H3]; [|contradiction].
        apply elem_of_singleton in H3. contradiction. }
      destruct (IH _ q H Hq') as (p & Hp & Ep).
      exists p. cbn. tauto.
Qed.

Lemma firsts_most_liquid (l : list Feed.Pair) :
  StronglySorted above l ->
  forall (seen : gset string) (p q : Feed.Pair),
    In p (firsts seen l) -> In q l ->
    Feed.address (Feed.baseToken q) = Feed.address (Feed.baseToken p) ->
    above p q.
Proof.
  induction 1 as [|x l Hl IH Hx]; intros seen p q; cbn; [tauto|].
  rewrite List.Forall_forall in Hx.
  destruct (decide (Feed.address (Feed.baseToken x) ∈ seen)) as [Hs|Hs].
  - intros Hp [->|Hq] E.
    + apply firsts_In in Hp as [_ Hp]. rewrite <- E in Hp. contradiction.
    + exact (IH seen p q Hp Hq E).
  - intros [->|Hp] [->|Hq] E.
    + apply above_refl.
    + now apply Hx.
    + apply firsts_In in Hp as [_ Hp]. rewrite <- E in Hp. set_solver.
    + exact (IH _ p q Hp Hq E).
Qed.

Lemma mappedAssets_firsts (blockchain : Types.Blockchain) (pairResults : list Feed.Pair) :
  App.mappedAssets blockchain pairResults
  = List.map App.mapPair
      (firsts ∅ (App.sortedPairs (App.filteredPairs blockchain pairResults))).
Proof. unfold App.mappedAssets. now rewrite fold_visit. Qed.

(** C1. When the DEX lookup returns pair records, [fetchMemecoins]
    stores the mapping of the first occurrence of each address in the
    chain-filtered pairs sorted by descending liquidity.  So the assets
    have pairwise distinct ids (the base-token addresses), and each is
    the mapping of a filtered pair whose quoted liquidity is not below
    that of any filtered pair with the same address: its price, change,
    FDV and volume are that pair's. *)
Theorem reconciled_assets_unique_and_most_liquid :
  forall (dex : Feed.Dex) (now : Z) (query : option string) (st : App.State)
         (pairResults : list Feed.Pair),
    App.pairResults_of dex query = App.Found pairResults ->
    let filtered := App.filteredPairs (App.blockchain st) pairResults in
    let assets := App.assets (App.fetchMemecoins dex now query st) in
    (Permutation (App.sortedPairs filtered) filtered /\
     StronglySorted above (App.sortedPairs filtered) /\
     assets = List.map App.mapPair (firsts ∅ (App.sortedPairs filtered))) /\
    List.NoDup (List.map Types.id assets) /\
    forall a : Types.Asset, In a assets ->
      exists p : Feed.Pair,
        In p filtered /\
        a = App.mapPair p /\
        Types.id a = Feed.address (Feed.baseToken p) /\
        Types.currentPrice a = App.parse_or_zero (Feed.priceUsd p) /\
        Types.priceChange24h a = App.parse_or_zero (App.h24 (Feed.priceChange_h24 p)) /\
        Types.marketCap a = App.parse_or_zero (Feed.fdv p) /\
        Types.volume24h a = App.parse_or_zero (App.h24 (Feed.volume_h24 p)) /\
        forall q : Feed.Pair,
          In q filtered ->
          Feed.address (Feed.baseToken q) = Feed.address (Feed.baseToken p) ->
          JS.leb (App.liquidity q) (App.liquidity p) = true.
Proof.
  intros dex now query st pairResults Hfound filtered assets.
  assert (E : assets = List.map App.mapPair (firsts ∅ (App.sortedPairs filtered))).
  { unfold assets, App.fetchMemecoins. rewrite Hfound. cbn.
    apply mappedAssets_firsts. }
  split; [split; [apply sort_Permutation | split; [apply sortedPairs_sorted | exact E]]|].
  rewrite E. split.
  - rewrite List.map_map. cbn. apply firsts_NoDup.
  - intros a Ha. apply in_map_iff in Ha as (p & <- & Hp).
    exists p. pose proof (firsts_In _ _ _ Hp) as [Hin _].
    split; [now apply sort_In in Hin|].
    repeat (split; [reflexivity|]).
    intros q Hq Eq.
    apply (firsts_most_liquid _ (sortedPairs_sorted filtered) ∅ p q Hp); [|exact Eq].
    now apply sort_In.
Qed.

Lemma reconciled_assets_unique_and_most_liquid_witness :
  List.NoDup (List.map Types.id (App.assets (App.fetchMemecoins dex_AB 0 None on_solana))) /\
  App.assets (App.fetchMemecoins dex_AB 0 None on_solana) = [App.mapPair pool_500].
Proof.
  split.
  - apply (proj1 (proj2 (reconciled_assets_unique_and_most_liquid dex_AB 0 None on_solana
                           [pool_100; pool_elsewhere; pool_500] eq_refl))).
  - vm_compute. reflexivity.
Defined.

(** ** Numeric fields of a pair *)

(** C2, as stated, fails: a price text that is no number maps to [NaN],
    not to zero (the record is kept all the same). *)
Lemma unparseable_price_maps_to_NaN :
  JS.parseFloat "abc" = JS.NaN /\
  App.mappedAssets Types.all [pool_garbled] = [App.mapPair pool_garbled] /\
  Types.currentPrice (App.mapPair pool_garbled) = JS.NaN /\
  Types.currentPrice (App.mapPair pool_garbled) <> JS.zero.
Proof.
  split; [reflexivity|]. split; [vm_compute; reflexivity|].
  split; [reflexivity|]. vm_compute. discriminate.
Qed.

(** C2, amended.  Whatever its numeric fields hold, a pair that passes
    the chain filter has an asset for its address in the result; each of
    the four numeric fields of an asset is [parseFloat(field || '0')] of
    the pair kept; that is zero when the field is absent or the empty
    text, and [NaN] when it is a non-empty text that [parseFloat] cannot
    read. *)
Theorem missing_field_is_zero_and_record_kept :
  forall (blockchain : Types.Blockchain) (pairResults : list Feed.Pair)
         (pair : Feed.Pair),
    In pair (App.filteredPairs blockchain pairResults) ->
    (exists a : Types.Asset,
        In a (App.mappedAssets blockchain pairResults) /\
        Types.id a = Feed.address (Feed.baseToken pair)) /\
    (Types.currentPrice (App.mapPair pair) = App.parse_or_zero (Feed.priceUsd pair) /\
     Types.priceChange24h (App.mapPair pair)
       = App.parse_or_zero (App.h24 (Feed.priceChange_h24 pair)) /\
     Types.marketCap (App.mapPair pair) = App.parse_or_zero (Feed.fdv pair) /\
     Types.volume24h (App.mapPair pair)
       = App.parse_or_zero (App.h24 (Feed.volume_h24 pair))) /\
    App.parse_or_zero JS.Missing = JS.zero /\
    App.parse_or_zero (App.h24 None) = JS.zero /\
    App.parse_or_zero (JS.Text "") = JS.zero /\
    (forall t : string,
        t <> "" -> JS.parseFloat t = JS.NaN ->
        App.parse_or_zero (JS.Text t) = JS.NaN).
Proof.
  intros blockchain pairResults pair Hin. split.
  - rewrite mappedAssets_firsts.
    destruct (firsts_complete
                (App.sortedPairs (App.filteredPairs blockchain pairResults)) ∅ pair)
      as (p & Hp & Ep).
    + now apply sort_In.
    + set_solver.
    + exists (App.mapPair p). split; [|exact Ep].
      apply in_map_iff. now exists p.
  - split; [repeat split|]. repeat (split; [reflexivity|]).
    intros t Ht Hnan. unfold App.parse_or_zero, JS.or_text.
    destruct t as [|c t]; [congruence|]. exact Hnan.
Qed.

Lemma missing_field_is_zero_and_record_kept_witness :
  (exists a : Types.Asset,
      In a (App.mappedAssets Types.solana [pool_garbled]) /\
      Types.id a = "0xAB") /\
  Types.marketCap (App.mapPair pool_garbled) = JS.zero.
Proof.
  pose proof (missing_field_is_zero_and_record_kept Types.solana [pool_garbled]
                pool_garbled (or_introl eq_refl)) as (H1 & (_ & _ & H2 & _) & H3 & _).
  split; [exact H1|]. rewrite H2. exact H3.
Defined.

(** ** [JSON.parse] reads back what [JSON.stringify] wrote *)

Lemma append_cons (x : ascii) (a b : string) :
  (String x a ++ b = String x (a ++ b))%string.
Proof. reflexivity. Qed.

Lemma append_nil_l (b : string) : ("" ++ b = b)%string.
Proof. reflexivity. Qed.

Lemma append_assoc (a b c : string) : ((a ++ b) ++ c = a ++ (b ++ c))%string.
Proof.
  induction a as [|x a IH]; [reflexivity|].
  rewrite !append_cons. now f_equal.
Qed.

Lemma append_nil_r (a : string) : (a ++ "" = a)%string.
Proof.
  induction a as [|x a IH]; [reflexivity|].
  rewrite append_cons. now f_equal.
Qed.

Lemma length_append (a b : string) :
  String.length (a ++ b)%string = (String.length a + String.length b)%nat.
Proof.
  induction a as [|x a IH]; [reflexivity|].
  rewrite append_cons. cbn. now rewrite IH.
Qed.

(** Appends nested to the right, with their known characters in front. *)
Ltac flatten :=
  repeat (rewrite append_assoc || rewrite append_cons || rewrite append_nil_l).

(** *** Numbers *)

Lemma scan_digits_print (u : uint) (c : ascii) (r : string) :
  JS.digit_of c = None ->
  JS.scan_digits (NilEmpty.string_of_uint u ++ String c r) = (u, String c r).
Proof.
  intros Hc. induction u as [|u IH|u IH|u IH|u IH|u IH|u IH|u IH|u IH|u IH|u IH];
    cbn [NilEmpty.string_of_uint]; flatten; cbn [JS.scan_digits]; cbn;
    rewrite ?IH; try reflexivity.
  now rewrite Hc.
Qed.

Lemma scan_minus_digits (u : uint) (r : string) :
  u <> Nil ->
  JSON.scan_minus (NilEmpty.string_of_uint u ++ r)
  = (false, (NilEmpty.string_of_uint u ++ r)%string).
Proof. destruct u; intros H; try congruence; reflexivity. Qed.

Lemma unorm_well_formed (u : uint) : JSON.well_formed_int (unorm u) = true.
Proof.
  unfold unorm. destruct (nzhead u) as [|d|d|d|d|d|d|d|d|d|d] eqn:E; try reflexivity.
  exfalso. exact (DecimalFacts.nzhead_nonzero _ _ E).
Qed.

Lemma N_to_uint_well_formed (n : N) : JSON.well_formed_int (N.to_uint n) = true.
Proof.
  rewrite <- (DecimalN.Unsigned.of_to n) at 1.
  rewrite DecimalN.Unsigned.to_of. apply unorm_well_formed.
Qed.

Lemma N_to_uint_nonnil (n : N) : N.to_uint n <> Nil.
Proof.
  intros E. pose proof (N_to_uint_well_formed n) as H. rewrite E in H. discriminate.
Qed.

Lemma parse_number_N (sg : bool) (n : N) (r : string) :
  JSON.parse_number
    ((if sg then "-" else "") ++ NilEmpty.string_of_uint (N.to_uint n) ++ String "}" r)
  = Some (JS.Fin (if sg then Qopp (inject_Z (Z.of_N n)) else inject_Z (Z.of_N n)),
          String "}" r).
Proof.
  unfold JSON.parse_number.
  assert (M : JSON.scan_minus
                ((if sg then "-" else "") ++ NilEmpty.string_of_uint (N.to_uint n)
                 ++ String "}" r)
              = (sg, (NilEmpty.string_of_uint (N.to_uint n) ++ String "}" r)%string)).
  { destruct sg; [reflexivity|]. apply scan_minus_digits, N_to_uint_nonnil. }
  rewrite M, scan_digits_print by reflexivity.
  rewrite N_to_uint_well_formed. cbn.
  now rewrite DecimalN.Unsigned.of_to.
Qed.

Lemma parse_number_integer (z : Z) (r : string) :
  JSON.parse_number (JSON.integer z ++ String "}" r)
  = Some (JS.Fin (inject_Z z), String "}" r).
Proof.
  destruct z as [|p|p].
  - exact (parse_number_N false 0 r).
  - exact (parse_number_N false (Npos p) r).
  - exact (parse_number_N true (Npos p) r).
Qed.

(** *** Strings *)

Lemma parse_chars_escape (c : ascii) (fuel : nat) (rest : string) :
  JSON.parse_chars (S fuel) (JSON.escape c ++ rest)
  = match JSON.parse_chars fuel rest with
    | Some (t, k) => Some (String c t, k)
    | None => None
    end.
Proof. destruct c as [[] [] [] [] [] [] [] []]; reflexivity. Qed.

Lemma parse_chars_escaped (s : string) :
  forall (fuel : nat) (rest : string),
    (String.length s < fuel)%nat ->
    JSON.parse_chars fuel (JSON.escaped s ++ String JSON.dq rest) = Some (s, rest).
Proof.
  induction s as [|c s IH]; intros fuel rest Hf; (destruct fuel as [|fuel]; [cbn in Hf; lia|]).
  - reflexivity.
  - cbn [JSON.escaped]. rewrite append_assoc, parse_chars_escape.
    rewrite IH by (cbn in Hf; lia). reflexivity.
Qed.

Lemma length_escape (c : ascii) : (1 <= String.length (JSON.escape c))%nat.
Proof. destruct c as [[] [] [] [] [] [] [] []]; vm_compute; lia. Qed.

Lemma length_escaped (s : string) : (String.length s <= String.length (JSON.escaped s))%nat.
Proof.
  induction s as [|c s IH]; cbn [JSON.escaped String.length]; [lia|].
  rewrite length_append. pose proof (length_escape c). lia.
Qed.

Lemma parse_string_escaped (s rest : string) :
  JSON.parse_string (JSON.escaped s ++ String JSON.dq rest) = Some (s, rest).
Proof.
  unfold JSON.parse_string. apply parse_chars_escaped.
  rewrite length_append. pose proof (length_escaped s). cbn. lia.
Qed.

Lemma quote_append (s rest : string) :
  (JSON.quote s ++ rest = String JSON.dq (JSON.escaped s ++ String JSON.dq rest))%string.
Proof. unfold JSON.quote. now flatten. Qed.

(** *** Values *)

#[local] Arguments JSON.parse_string : simpl never.
#[local] Arguments JSON.parse_number : simpl never.
#[local] Arguments JSON.quote : simpl never.

Lemma skip_ws_quote (s rest : string) :
  JSON.skip_ws (JSON.quote s ++ rest) = (JSON.quote s ++ rest)%string.
Proof. now rewrite quote_append. Qed.

Lemma parse_value_quote (fuel : nat) (s rest : string) :
  JSON.parse_value (S fuel) (JSON.quote s ++ rest) = Some (JSON.Str s, rest).
Proof.
  rewrite quote_append. cbn [JSON.parse_value JSON.skip_ws]. cbn.
  now rewrite parse_string_escaped.
Qed.

(** A member followed by a comma hands over to the next member. *)
Lemma parse_members_comma (fuel : nat) (key text more : string) (v : JSON.any)
    (acc : list (string * JSON.any)) :
  JSON.parse_value fuel text = Some (v, String "," more) ->
  JSON.parse_members (S fuel) (JSON.quote key ++ String ":" text) acc
  = JSON.parse_members fuel more ((key, v) :: acc).
Proof.
  intros Hv. rewrite quote_append. cbn [JSON.parse_members JSON.skip_ws]. cbn.
  rewrite parse_string_escaped. cbn. now rewrite Hv.
Qed.

(** A member followed by a brace closes the object. *)
Lemma parse_members_close (fuel : nat) (key text rest : string) (v : JSON.any)
    (acc : list (string * JSON.any)) :
  JSON.parse_value fuel text = Some (v, String "}" rest) ->
  JSON.parse_members (S fuel) (JSON.quote key ++ String ":" text) acc
  = Some (JSON.Obj (List.rev ((key, v) :: acc)), rest).
Proof.
  intros Hv. rewrite quote_append. cbn [JSON.parse_members JSON.skip_ws]. cbn.
  rewrite parse_string_escaped. cbn. now rewrite Hv.
Qed.

Lemma parse_value_object (fuel : nat) (key more : string) :
  JSON.parse_value (S fuel) (String "{" (JSON.quote key ++ more))
  = JSON.parse_members fuel (JSON.quote key ++ more) [].
Proof. rewrite quote_append. reflexivity. Qed.

Lemma stringify_NewsItem_flat (i : NewsFeed.NewsItem) (rest : string) :
  (NewsFeed.stringify_NewsItem i ++ rest)%string
  = String "{"
      (JSON.quote "headline" ++ String ":" (JSON.quote (NewsFeed.headline i) ++ String ","
      (JSON.quote "summary" ++ String ":" (JSON.quote (NewsFeed.summary i) ++ String ","
      (JSON.quote "url" ++ String ":" (JSON.quote (NewsFeed.url i) ++ String ","
      (JSON.quote "timestamp" ++ String ":" (JSON.quote (NewsFeed.timestamp i) ++ String "}"
       rest))))))))%string.
Proof. unfold NewsFeed.stringify_NewsItem, NewsFeed.field. now flatten. Qed.

Lemma parse_value_NewsItem (fuel : nat) (i : NewsFeed.NewsItem) (rest : string) :
  JSON.parse_value (6 + fuel) (NewsFeed.stringify_NewsItem i ++ rest)
  = Some (NewsFeed.any_of_NewsItem i, rest).
Proof.
  rewrite stringify_NewsItem_flat.
  change (6 + fuel)%nat with (S (S (S (S (S (S fuel)))))).
  rewrite parse_value_object.
  do 3 (erewrite parse_members_comma; [|apply parse_value_quote]).
  erewrite parse_members_close; [|apply parse_value_quote].
  reflexivity.
Qed.

Lemma parse_elements_comma (fuel : nat) (text more : string) (v : JSON.any)
    (acc : list JSON.any) :
  JSON.parse_value fuel text = Some (v, String "," more) ->
  JSON.parse_elements (S fuel) text acc = JSON.parse_elements fuel more (v :: acc).
Proof. intros Hv. cbn [JSON.parse_elements]. now rewrite Hv. Qed.

Lemma parse_elements_close (fuel : nat) (text rest : string) (v : JSON.any)
    (acc : list JSON.any) :
  JSON.parse_value fuel text = Some (v, String "]" rest) ->
  JSON.parse_elements (S fuel) text acc = Some (JSON.Arr (List.rev (v :: acc)), rest).
Proof. intros Hv. cbn [JSON.parse_elements]. now rewrite Hv. Qed.

Lemma concat_cons2 (sep a b : string) (l : list string) :
  String.concat sep (a :: b :: l) = (a ++ sep ++ String.concat sep (b :: l))%string.
Proof. reflexivity. Qed.

Lemma parse_elements_items (l : list NewsFeed.NewsItem) :
  forall (i : NewsFeed.NewsItem) (fuel : nat) (acc : list JSON.any) (rest : string),
    (List.length l + 7 <= fuel)%nat ->
    JSON.parse_elements fuel
      (String.concat "," (List.map NewsFeed.stringify_NewsItem (i :: l)) ++ String "]" rest)
      acc
    = Some (JSON.Arr (List.rev acc ++ List.map NewsFeed.any_of_NewsItem (i :: l)), rest).
Proof.
  induction l as [|j l IH]; intros i fuel acc rest Hf.
  - cbn [List.length] in Hf.
    destruct fuel as [|fuel]; [lia|].
    replace fuel with (6 + (fuel - 6))%nat by lia.
    cbn [List.map String.concat].
    erewrite parse_elements_close; [|apply parse_value_NewsItem].
    reflexivity.
  - cbn [List.length] in Hf.
    destruct fuel as [|fuel]; [lia|].
    cbn [List.map]. rewrite concat_cons2. flatten.
    erewrite parse_elements_comma;
      [|replace fuel with (6 + (fuel - 6))%nat by lia; apply parse_value_NewsItem].
    change (NewsFeed.stringify_NewsItem j :: List.map NewsFeed.stringify_NewsItem l)
      with (List.map NewsFeed.stringify_NewsItem (j :: l)).
    rewrite IH by lia. cbn [List.rev List.map].
    now rewrite <- List.app_assoc.
Qed.

Lemma items_text_starts (i : NewsFeed.NewsItem) (l : list NewsFeed.NewsItem) (rest : string) :
  exists r : string,
    (String.concat "," (List.map NewsFeed.stringify_NewsItem (i :: l)) ++ rest)%string
    = String "{" r.
Proof.
  destruct l as [|j l]; cbn [List.map].
  - cbn [String.concat]. rewrite stringify_NewsItem_flat. eauto.
  - rewrite concat_cons2, append_assoc, stringify_NewsItem_flat. eauto.
Qed.

(** The [items] array, with what follows it. *)
Lemma parse_value_items (l : list NewsFeed.NewsItem) (fuel : nat) (rest : string) :
  (List.length l + 8 <= fuel)%nat ->
  JSON.parse_value fuel
    (String "[" (String.concat "," (List.map NewsFeed.stringify_NewsItem l) ++ String "]" rest))
  = Some (NewsFeed.any_of_items l, rest).
Proof.
  intros Hf. destruct fuel as [|fuel]; [lia|].
  destruct l as [|i l].
  - reflexivity.
  - destruct (items_text_starts i l (String "]" rest)) as [r E].
    rewrite E.
    change (JSON.parse_value (S fuel) (String "[" (String "{" r)))
      with (JSON.parse_elements fuel (String "{" r) []).
    rewrite <- E. rewrite parse_elements_items by (cbn [List.length] in Hf; lia).
    reflexivity.
Qed.

Lemma stringify_flat (d : NewsFeed.CacheData) (rest : string) :
  (NewsFeed.stringify d ++ rest)%string
  = String "{"
      (JSON.quote "items" ++ String ":"
         (String "["
            (String.concat "," (List.map NewsFeed.stringify_NewsItem (NewsFeed.items d))
             ++ String "]" (String ","
                (JSON.quote "expiry" ++ String ":"
                   (JSON.integer (NewsFeed.expiry d) ++ String "}" rest))))))%string.
Proof. unfold NewsFeed.stringify, NewsFeed.field. now flatten. Qed.

Lemma parse_value_number (fuel : nat) (z : Z) (r : string) :
  JSON.parse_value (S fuel) (JSON.integer z ++ String "}" r)
  = Some (JSON.Num (JS.Fin (inject_Z z)), String "}" r).
Proof.
  assert (H : exists c t, (JSON.integer z ++ String "}" r)%string = String c t
                          /\ (Ascii.eqb c "-" || match JS.digit_of c with
                                                   | Some _ => true
                                                   | None => false
                                                   end) = true).
  { destruct z as [|p|p]; unfold JSON.integer.
    - exists "0"%char. eexists. split; reflexivity.
    - cbn [Z.to_N N.to_uint].
      pose proof (Unsigned.to_uint_nonnil p) as Hn.
      destruct (Pos.to_uint p) as [|u|u|u|u|u|u|u|u|u|u]; [congruence|..];
        cbn [NilEmpty.string_of_uint]; rewrite append_cons;
        eexists; eexists; (split; [reflexivity|reflexivity]).
    - rewrite append_cons. exists "-"%char. eexists. split; reflexivity. }
  destruct H as (c & t & E & Hc).
  pose proof (parse_number_integer z r) as P. rewrite E in *.
  destruct c as [[] [] [] [] [] [] [] []]; try discriminate Hc;
    cbn; now rewrite P.
Qed.

Lemma parse_value_CacheData (d : NewsFeed.CacheData) (fuel : nat) (rest : string) :
  (List.length (NewsFeed.items d) + 10 <= fuel)%nat ->
  JSON.parse_value fuel (NewsFeed.stringify d ++ rest)
  = Some (NewsFeed.any_of_CacheData d, rest).
Proof.
  intros Hf. rewrite stringify_flat.
  destruct fuel as [|[|[|[|fuel]]]]; try lia.
  rewrite parse_value_object.
  erewrite parse_members_comma; [|apply parse_value_items; lia].
  erewrite parse_members_close; [|apply parse_value_number].
  reflexivity.
Qed.

Lemma length_items_text (l : list NewsFeed.NewsItem) :
  (List.length l
   <= String.length (String.concat "," (List.map NewsFeed.stringify_NewsItem l)))%nat.
Proof.
  induction l as [|i l IH]; [cbn; lia|].
  destruct l as [|j l].
  - cbn [List.map String.concat List.length].
    rewrite <- (append_nil_r (NewsFeed.stringify_NewsItem i)), stringify_NewsItem_flat.
    cbn [String.length]. lia.
  - cbn [List.map]. rewrite concat_cons2, !length_append.
    cbn [List.map] in IH. cbn [List.length] in *.
    change (String.length ",") with 1%nat. lia.
Qed.

Lemma length_stringify (d : NewsFeed.CacheData) :
  (List.length (NewsFeed.items d) + 4 <= String.length (NewsFeed.stringify d))%nat.
Proof.
  rewrite <- (append_nil_r (NewsFeed.stringify d)), stringify_flat.
  cbn [String.length]. rewrite !length_append. cbn [String.length].
  rewrite !length_append. cbn [String.length].
  pose proof (length_items_text (NewsFeed.items d)). lia.
Qed.

(** [JSON.parse(JSON.stringify(cacheData))] is [cacheData]. *)
Lemma parse_stringify (d : NewsFeed.CacheData) :
  JSON.parse (NewsFeed.stringify d) = Some (NewsFeed.any_of_CacheData d).
Proof.
  unfold JSON.parse.
  rewrite <- (append_nil_r (NewsFeed.stringify d)) at 2.
  rewrite parse_value_CacheData; [reflexivity|].
  pose proof (length_stringify d). lia.
Qed.

Lemma stringify_nonempty (d : NewsFeed.CacheData) :
  JS.nonempty (NewsFeed.stringify d) = true.
Proof. now rewrite <- (append_nil_r (NewsFeed.stringify d)), stringify_flat. Qed.

(** ** The news cache *)

Lemma lt_inject_Z (a b : Z) :
  JS.lt (JS.Fin (inject_Z a)) (JS.Fin (inject_Z b)) = (a <? b)%Z.
Proof.
  cbn. unfold Qle_bool. cbn. rewrite !Z.mul_1_r.
  now rewrite Z.ltb_antisym.
Qed.

(** Reading an entry that [fetchNews] wrote: a hit before its expiry, a
    miss from then on, and the store untouched either way. *)
Lemma read_cache_written (now : Z) (store : gmap string string) (d : NewsFeed.CacheData) :
  store !! NewsFeed.CACHE_KEY = Some (NewsFeed.stringify d) ->
  NewsFeed.read_cache now store
  = if (now <? NewsFeed.expiry d)%Z
    then (NewsFeed.Hit (NewsFeed.any_of_items (NewsFeed.items d)), store)
    else (NewsFeed.Miss, store).
Proof.
  intros H. unfold NewsFeed.read_cache.
  rewrite H, stringify_nonempty, parse_stringify.
  change (JSON.get (NewsFeed.any_of_CacheData d) "expiry")
    with (Some (JSON.Num (JS.Fin (inject_Z (NewsFeed.expiry d))))).
  change (JSON.get (NewsFeed.any_of_CacheData d) "items")
    with (Some (NewsFeed.any_of_items (NewsFeed.items d))).
  cbn [JSON.ToNumber]. now rewrite lt_inject_Z.
Qed.

(** Reading a non-empty entry that is no JSON removes it. *)
Lemma read_cache_corrupt (now : Z) (store : gmap string string) (cached : string) :
  store !! NewsFeed.CACHE_KEY = Some cached ->
  JS.nonempty cached = true ->
  JSON.parse cached = None ->
  NewsFeed.read_cache now store = (NewsFeed.Miss, delete NewsFeed.CACHE_KEY store).
Proof. intros H1 H2 H3. unfold NewsFeed.read_cache. now rewrite H1, H2, H3. Qed.

(** C3. Once a fetch has succeeded and written its items with expiry
    [now' + CACHE_TTL], a read that is not forced and happens before
    that expiry shows exactly those items, marks them cached, makes no
    live call, and leaves the store as it is. *)
Theorem cached_items_read_back_without_request :
  forall (w : NewsFeed.World) (i : NewsFeed.NewsItem) (l : list NewsFeed.NewsItem)
         (written_at now now' : Z) (fetched : option (list NewsFeed.NewsItem)),
    (now < written_at + NewsFeed.CACHE_TTL)%Z ->
    let w1 := NewsFeed.fresh_fetch (Some (i :: l)) written_at w in
    let w2 := NewsFeed.fetchNews false now fetched now' w1 in
    NewsFeed.news (NewsFeed.state w2) = NewsFeed.any_of_items (i :: l) /\
    NewsFeed.requests w2 = NewsFeed.requests w1 /\
    NewsFeed.isCached (NewsFeed.state w2) = true /\
    NewsFeed.loading (NewsFeed.state w2) = false /\
    NewsFeed.localStorage w2 = NewsFeed.localStorage w1.
Proof.
  intros w i l written_at now now' fetched Hnow w1 w2.
  assert (E : NewsFeed.read_cache now (NewsFeed.localStorage w1)
              = (NewsFeed.Hit (NewsFeed.any_of_items (i :: l)), NewsFeed.localStorage w1)).
  { rewrite (read_cache_written now _
               {| NewsFeed.items := i :: l;
                  NewsFeed.expiry := written_at + NewsFeed.CACHE_TTL |}).
    - cbn [NewsFeed.expiry NewsFeed.items].
      destruct (Z.ltb_spec now (written_at + NewsFeed.CACHE_TTL)); [reflexivity | lia].
    - unfold w1, NewsFeed.fresh_fetch. cbn [NewsFeed.localStorage].
      apply lookup_insert_eq. }
  unfold w2, NewsFeed.fetchNews. rewrite E. cbn. repeat split.
Qed.

Lemma cached_items_read_back_without_request_witness :
  NewsFeed.requests
    (NewsFeed.fetchNews false 5000 None 5001
       (NewsFeed.fresh_fetch (Some [headline_1]) 1000 first_visit)) = 1%nat.
Proof.
  pose proof (cached_items_read_back_without_request first_visit headline_1 [] 1000
                5000 5001 None eq_refl) as H.
  cbv zeta in H. destruct H as (_ & H & _). rewrite H. reflexivity.
Defined.

(** C4, as stated, fails: a read at time 2000 of an entry that expired
    at time 1000 is a miss that goes on to the live call, and the entry
    is still in the store after the read, and after the whole
    [fetchNews] when the live call fails. *)
Lemma expired_entry_is_left_in_place :
  let entry :=
    NewsFeed.stringify {| NewsFeed.items := [headline_1]; NewsFeed.expiry := 1000 |} in
  NewsFeed.localStorage stale_visit !! NewsFeed.CACHE_KEY = Some entry /\
  NewsFeed.read_cache 2000 (NewsFeed.localStorage stale_visit)
  = (NewsFeed.Miss, NewsFeed.localStorage stale_visit) /\
  NewsFeed.localStorage (NewsFeed.fetchNews false 2000 None 2001 stale_visit)
    !! NewsFeed.CACHE_KEY = Some entry /\
  NewsFeed.requests (NewsFeed.fetchNews false 2000 None 2001 stale_visit) = 1%nat.
Proof. cbv zeta. split; [|split; [|split]]; vm_compute; reflexivity. Qed.

(** C4, amended.  A read that finds a non-empty entry that [JSON.parse]
    rejects deletes the entry during the read and goes on to the live
    call as on a miss.  A read that finds a well-formed entry whose
    expiry has passed goes on to the live call too, but leaves the entry
    in the store: only a successful fetch replaces it. *)
Theorem corrupt_entry_deleted_expired_entry_kept :
  forall (w w' : NewsFeed.World) (cached : string) (d : NewsFeed.CacheData)
         (now now' : Z) (fetched : option (list NewsFeed.NewsItem)),
    NewsFeed.localStorage w !! NewsFeed.CACHE_KEY = Some cached ->
    JS.nonempty cached = true ->
    JSON.parse cached = None ->
    NewsFeed.localStorage w' !! NewsFeed.CACHE_KEY = Some (NewsFeed.stringify d) ->
    (NewsFeed.expiry d <= now)%Z ->
    (snd (NewsFeed.read_cache now (NewsFeed.localStorage w)) !! NewsFeed.CACHE_KEY = None /\
     NewsFeed.fetchNews false now fetched now' w
     = NewsFeed.fresh_fetch fetched now'
         (with_store (delete NewsFeed.CACHE_KEY (NewsFeed.localStorage w)) w) /\
     NewsFeed.requests (NewsFeed.fetchNews false now fetched now' w)
     = S (NewsFeed.requests w)) /\
    (NewsFeed.read_cache now (NewsFeed.localStorage w')
     = (NewsFeed.Miss, NewsFeed.localStorage w') /\
     NewsFeed.fetchNews false now fetched now' w' = NewsFeed.fresh_fetch fetched now' w' /\
     NewsFeed.requests (NewsFeed.fetchNews false now fetched now' w')
     = S (NewsFeed.requests w') /\
     NewsFeed.localStorage (NewsFeed.fetchNews false now None now' w') !! NewsFeed.CACHE_KEY
     = Some (NewsFeed.stringify d)).
Proof.
  intros w w' cached d now now' fetched Hc Hne Hbad Hd Hexp.
  pose proof (read_cache_corrupt now _ _ Hc Hne Hbad) as R.
  assert (R' : NewsFeed.read_cache now (NewsFeed.localStorage w')
               = (NewsFeed.Miss, NewsFeed.localStorage w')).
  { rewrite (read_cache_written now _ d Hd).
    destruct (Z.ltb_spec now (NewsFeed.expiry d)); [lia | reflexivity]. }
  assert (F : forall f x, NewsFeed.requests (NewsFeed.fresh_fetch f now' x)
                          = S (NewsFeed.requests x)).
  { intros [[|? ?]|] x; reflexivity. }
  split; [split; [|split] | split; [|split; [|split]]].
  - rewrite R. apply lookup_delete_eq.
  - unfold NewsFeed.fetchNews. now rewrite R.
  - unfold NewsFeed.fetchNews. rewrite R. now rewrite F.
  - exact R'.
  - unfold NewsFeed.fetchNews. rewrite R'. now destruct w'.
  - unfold NewsFeed.fetchNews. rewrite R'. now rewrite F.
  - unfold NewsFeed.fetchNews. rewrite R'. exact Hd.
Qed.

Lemma corrupt_entry_deleted_expired_entry_kept_witness :
  NewsFeed.localStorage (NewsFeed.fetchNews false 2000 None 2001 broken_visit)
    !! NewsFeed.CACHE_KEY = None /\
  NewsFeed.requests (NewsFeed.fetchNews false 2000 None 2001 stale_visit) = 1%nat.
Proof.
  pose proof (corrupt_entry_deleted_expired_entry_kept broken_visit stale_visit
                "{oops" {| NewsFeed.items := [headline_1]; NewsFeed.expiry := 1000 |}
                2000 2001 None eq_refl eq_refl eq_refl eq_refl) as H.
  destruct H as [(_ & H1 & _) (_ & _ & H2 & _)]; [vm_compute; discriminate|].
  split; [rewrite H1; reflexivity | rewrite H2; reflexivity].
Defined.

(** C5. A forced [fetchNews] is the live fetch whatever the store holds:
    it makes the live call, and what it shows and counts is the same
    with any other store in place of the current one; when the call
    returns items, the entry for the cache key becomes those items with
    expiry [now' + CACHE_TTL], the other keys keep their values, and the
    items are shown. *)
Theorem forced_refresh_skips_cache_and_rewrites_entry :
  forall (w : NewsFeed.World) (store : gmap string string) (now now' : Z)
         (fetched : option (list NewsFeed.NewsItem))
         (i : NewsFeed.NewsItem) (l : list NewsFeed.NewsItem),
    NewsFeed.fetchNews true now fetched now' w = NewsFeed.fresh_fetch fetched now' w /\
    NewsFeed.requests (NewsFeed.fetchNews true now fetched now' w)
    = S (NewsFeed.requests w) /\
    NewsFeed.state (NewsFeed.fetchNews true now fetched now' (with_store store w))
    = NewsFeed.state (NewsFeed.fetchNews true now fetched now' w) /\
    NewsFeed.requests (NewsFeed.fetchNews true now fetched now' (with_store store w))
    = NewsFeed.requests (NewsFeed.fetchNews true now fetched now' w) /\
    let w' := NewsFeed.fetchNews true now (Some (i :: l)) now' w in
    NewsFeed.localStorage w'
    = <[NewsFeed.CACHE_KEY :=
          NewsFeed.stringify {| NewsFeed.items := i :: l;
                                NewsFeed.expiry := now' + NewsFeed.CACHE_TTL |}]>
        (NewsFeed.localStorage w) /\
    JSON.parse <$> (NewsFeed.localStorage w' !! NewsFeed.CACHE_KEY)
    = Some (Some (NewsFeed.any_of_CacheData
                    {| NewsFeed.items := i :: l;
                       NewsFeed.expiry := now' + NewsFeed.CACHE_TTL |})) /\
    NewsFeed.news (NewsFeed.state w') = NewsFeed.any_of_items (i :: l).
Proof.
  intros w store now now' fetched i l.
  split; [reflexivity|]. split; [now destruct fetched as [[|? ?]|]|].
  split; [now destruct fetched as [[|? ?]|]|].
  split; [now destruct fetched as [[|? ?]|]|].
  cbv zeta. split; [reflexivity|]. split; [|reflexivity].
  cbn [NewsFeed.fetchNews NewsFeed.fresh_fetch NewsFeed.localStorage].
  rewrite lookup_insert_eq. cbn. now rewrite parse_stringify.
Qed.

(** * Further properties *)

(** ** The sort/filter pipeline *)

Section SortBy.

Context {A : Type} (cmp : A -> A -> JS.number) (R : A -> A -> Prop) (P : A -> Prop).

Hypothesis R_trans :
  forall x y z, P x -> P y -> P z -> R x y -> R y z -> R x z.
Hypothesis before :
  forall x y, P x -> P y -> JS.positive (cmp x y) = false -> R x y.
Hypothesis after :
  forall x y, P x -> P y -> JS.positive (cmp x y) = true -> R y x.

Lemma insert_Forall (Q : A -> Prop) (x : A) (l : list A) :
  Q x -> List.Forall Q l -> List.Forall Q (JS.insert cmp x l).
Proof.
  intros Hx Hl. apply List.Forall_forall. intros y Hy.
  apply insert_In in Hy as [->|Hy]; [exact Hx|].
  rewrite List.Forall_forall in Hl. now apply Hl.
Qed.

Lemma sort_Forall (Q : A -> Prop) (l : list A) :
  List.Forall Q l -> List.Forall Q (JS.sort cmp l).
Proof.
  intros Hl. apply List.Forall_forall. intros y Hy.
  apply sort_In in Hy. rewrite List.Forall_forall in Hl. now apply Hl.
Qed.

Lemma insert_sorted_by (x : A) (l : list A) :
  P x -> List.Forall P l ->
  StronglySorted R l -> StronglySorted R (JS.insert cmp x l).
Proof.
  intros Px Pl Hs. induction Hs as [|y l Hl IH Hy]; cbn.
  - repeat constructor.
  - apply List.Forall_cons_iff in Pl as [Py Pl].
    destruct (JS.positive (cmp x y)) eqn:E.
    + constructor; [now apply IH|].
      apply List.Forall_forall. intros z Hz. apply insert_In in Hz as [->|Hz].
      * now apply after.
      * rewrite List.Forall_forall in Hy. now apply Hy.
    + assert (Hxy : R x y) by now apply before.
      constructor; [now constructor|].
      constructor; [exact Hxy|].
      apply List.Forall_forall. intros z Hz.
      rewrite List.Forall_forall in Hy, Pl.
      apply (R_trans x y z); auto.
Qed.

Lemma sort_sorted_by (l : list A) :
  List.Forall P l -> StronglySorted R (JS.sort cmp l).
Proof.
  induction l as [|x l IH]; intros Pl; cbn; [constructor|].
  apply List.Forall_cons_iff in Pl as [Px Pl]. fold (JS.sort cmp l).
  apply insert_sorted_by; [exact Px | now apply sort_Forall | now apply IH].
Qed.

Hypothesis keep :
  forall x y, P x -> P y -> R x y -> JS.positive (cmp x y) = false.

(** Sorting a sorted array changes nothing. *)
Lemma sort_fixed (l : list A) :
  List.Forall P l -> StronglySorted R l -> JS.sort cmp l = l.
Proof.
  intros Pl Hs. induction Hs as [|x l Hl IH Hx]; [reflexivity|].
  apply List.Forall_cons_iff in Pl as [Px Pl].
  cbn. fold (JS.sort cmp l). rewrite (IH Pl).
  destruct l as [|y l]; [reflexivity|]. cbn.
  apply List.Forall_cons_iff in Pl as [Py _].
  apply List.Forall_cons_iff in Hx as [Hxy _].
  now rewrite (keep x y Px Py Hxy).
Qed.

End SortBy.

Lemma positive_neg_sub (x y : JS.number) :
  x <> JS.NaN -> y <> JS.NaN -> JS.positive (JS.neg (JS.sub y x)) = JS.lt y x.
Proof.
  destruct x as [|a|p], y as [|b|q]; intros Hx Hy; try congruence; cbn.
  - destruct a, b; reflexivity.
  - now destruct a.
  - now destruct b.
  - f_equal. apply eq_true_iff_eq. rewrite !Qle_bool_iff. split; intros H; lra.
Qed.

(** On assets whose compared field is a number, the comparator says
    "after" exactly when the field is strictly out of order. *)
Lemma comparator_positive (lc : string -> string -> JS.number) (key : App.SortKey)
    (order : App.SortOrder) (a b : Types.Asset) :
  sort_field key a <> JS.NaN -> sort_field key b <> JS.NaN ->
  JS.positive (App.comparator lc key order a b)
  = match order with
    | App.desc => JS.lt (sort_field key a) (sort_field key b)
    | App.asc => JS.lt (sort_field key b) (sort_field key a)
    end.
Proof.
  intros Ha Hb. destruct key; cbn in Ha, Hb; try congruence;
    destruct order; cbn [App.comparator App.comp sort_field];
    (apply positive_sub || apply positive_neg_sub); assumption.
Qed.

Lemma in_order_trans (key : App.SortKey) (order : App.SortOrder) (a b c : Types.Asset) :
  in_order key order a b -> in_order key order b c -> in_order key order a c.
Proof.
  destruct order; unfold in_order; intros H1 H2.
  - exact (leb_trans _ _ _ H2 H1).
  - exact (leb_trans _ _ _ H1 H2).
Qed.

Lemma in_order_before (lc : string -> string -> JS.number) (key : App.SortKey)
    (order : App.SortOrder) (a b : Types.Asset) :
  sort_field key a <> JS.NaN -> sort_field key b <> JS.NaN ->
  JS.positive (App.comparator lc key order a b) = false <-> in_order key order a b.
Proof.
  intros Ha Hb. rewrite comparator_positive by assumption.
  destruct order; unfold in_order; rewrite leb_negb_lt by assumption;
    now rewrite negb_true_iff.
Qed.

Lemma in_order_after (lc : string -> string -> JS.number) (key : App.SortKey)
    (order : App.SortOrder) (a b : Types.Asset) :
  sort_field key a <> JS.NaN -> sort_field key b <> JS.NaN ->
  JS.positive (App.comparator lc key order a b) = true -> in_order key order b a.
Proof.
  intros Ha Hb. rewrite comparator_positive by assumption.
  destruct order; unfold in_order; apply leb_of_lt.
Qed.

(** The assets the pipeline sorts. *)
Lemma processedAssets_eq (lc : string -> string -> JS.number) (st : App.State) :
  App.processedAssets lc st
  = JS.sort (App.comparator lc (App.sortKey st) (App.sortOrder st))
      (if Types.MarketMode_eqb (App.marketMode st) Types.bluechips
          && (0 <? String.length (JS.trim (App.searchQuery st)))%nat
       then List.filter (matches (App.searchQuery st)) (App.assets st)
       else App.assets st).
Proof. reflexivity. Qed.

(** X1. In Bluechip mode with a search text that is not blank, an asset
    is displayed exactly when it is held and the lower-cased search text
    occurs in its lower-cased name or symbol. *)
Theorem bluechip_search_shows_exactly_the_matches :
  forall (lc : string -> string -> JS.number) (st : App.State) (a : Types.Asset),
    App.marketMode st = Types.bluechips ->
    (0 <? String.length (JS.trim (App.searchQuery st)))%nat = true ->
    (In a (App.processedAssets lc st)
     <-> In a (App.assets st) /\ matches (App.searchQuery st) a = true).
Proof.
  intros lc st a Hm Hq. rewrite processedAssets_eq, sort_In, Hm, Hq.
  cbn [Types.MarketMode_eqb andb]. apply List.filter_In.
Qed.

Lemma bluechip_search_shows_exactly_the_matches_witness :
  In (asset_of "tether" 100 0)
    (App.processedAssets (fun _ _ => JS.NaN) (App.setSearchQuery "ETH" three_assets)) /\
  ~ In (asset_of "bitcoin" 900 (-1))
    (App.processedAssets (fun _ _ => JS.NaN) (App.setSearchQuery "ETH" three_assets)).
Proof.
  split.
  - apply (proj2 (bluechip_search_shows_exactly_the_matches (fun _ _ => JS.NaN)
                    (App.setSearchQuery "ETH" three_assets) (asset_of "tether" 100 0)
                    eq_refl eq_refl)).
    split; [cbn; tauto | reflexivity].
  - intros H.
    apply (proj1 (bluechip_search_shows_exactly_the_matches (fun _ _ => JS.NaN)
                    (App.setSearchQuery "ETH" three_assets) (asset_of "bitcoin" 900 (-1))
                    eq_refl eq_refl)) in H.
    destruct H as [_ H]. vm_compute in H. discriminate.
Defined.

(** X2. In Memecoin mode, and in any mode while the search text is
    blank, the displayed list is a rearrangement of the held assets: the
    search box drops nothing on the client side. *)
Theorem unfiltered_display_is_a_rearrangement :
  forall (lc : string -> string -> JS.number) (st : App.State),
    App.marketMode st = Types.memecoins
    \/ (0 <? String.length (JS.trim (App.searchQuery st)))%nat = false ->
    Permutation (App.processedAssets lc st) (App.assets st).
Proof.
  intros lc st H. rewrite processedAssets_eq.
  assert (E : Types.MarketMode_eqb (App.marketMode st) Types.bluechips
              && (0 <? String.length (JS.trim (App.searchQuery st)))%nat = false).
  { destruct H as [-> | ->]; [reflexivity | apply andb_false_r]. }
  rewrite E. apply sort_Permutation.
Qed.

Lemma unfiltered_display_is_a_rearrangement_witness :
  Permutation
    (App.processedAssets (fun _ _ => JS.NaN)
       (App.setSearchQuery "ETH" (App.setMarketMode Types.memecoins three_assets)))
    (App.assets three_assets).
Proof.
  apply (unfiltered_display_is_a_rearrangement (fun _ _ => JS.NaN)
           (App.setSearchQuery "ETH" (App.setMarketMode Types.memecoins three_assets))).
  left. reflexivity.
Defined.

Lemma comparator_sorts (lc : string -> string -> JS.number) (key : App.SortKey)
    (order : App.SortOrder) (l : list Types.Asset) :
  List.Forall (fun a => sort_field key a <> JS.NaN) l ->
  StronglySorted (in_order key order) (JS.sort (App.comparator lc key order) l).
Proof.
  apply sort_sorted_by.
  - intros x y z _ _ _. apply in_order_trans.
  - intros x y Px Py. now apply in_order_before.
  - intros x y Px Py. now apply in_order_after.
Qed.

Lemma filter_Forall {A : Type} (Q : A -> Prop) (f : A -> bool) (l : list A) :
  List.Forall Q l -> List.Forall Q (List.filter f l).
Proof.
  rewrite !List.Forall_forall. intros H x Hx. apply List.filter_In in Hx. now apply H.
Qed.

Lemma shown_Forall (Q : Types.Asset -> Prop) (st : App.State) :
  List.Forall Q (App.assets st) ->
  List.Forall Q
    (if Types.MarketMode_eqb (App.marketMode st) Types.bluechips
        && (0 <? String.length (JS.trim (App.searchQuery st)))%nat
     then List.filter (matches (App.searchQuery st)) (App.assets st)
     else App.assets st).
Proof.
  intros H. destruct (_ && _); [now apply filter_Forall | exact H].
Qed.

(** X3. When the field of the selected sort key is a number (not [NaN])
    on every held asset, the displayed list is in order: with [desc] no
    asset has a larger field than one displayed before it, with [asc] no
    smaller. *)
Theorem display_is_sorted_by_the_selected_key :
  forall (lc : string -> string -> JS.number) (st : App.State),
    (forall a, In a (App.assets st) -> sort_field (App.sortKey st) a <> JS.NaN) ->
    StronglySorted (in_order (App.sortKey st) (App.sortOrder st))
      (App.processedAssets lc st).
Proof.
  intros lc st H. rewrite processedAssets_eq.
  apply comparator_sorts, shown_Forall, List.Forall_forall, H.
Qed.

Lemma display_is_sorted_by_the_selected_key_witness :
  StronglySorted (in_order App.market_cap App.desc)
    (App.processedAssets (fun _ _ => JS.NaN) three_assets) /\
  List.map Types.id (App.processedAssets (fun _ _ => JS.NaN) three_assets)
  = ["bitcoin"; "ether"; "tether"].
Proof.
  split; [|vm_compute; reflexivity].
  apply (display_is_sorted_by_the_selected_key (fun _ _ => JS.NaN) three_assets).
  intros a [<-|[<-|[<-|[]]]]; discriminate.
Defined.

Lemma filter_fixed {A : Type} (f : A -> bool) (l : list A) :
  List.Forall (fun x => f x = true) l -> List.filter f l = l.
Proof.
  induction 1 as [|x l Hx Hl IH]; cbn; [reflexivity|]. now rewrite Hx, IH.
Qed.

(** X4. Under the same condition the pipeline is idempotent: fed its
    own output as the held assets, with the same mode, search text, key
    and order, it returns that output unchanged. *)
Theorem display_is_stable_under_redisplay :
  forall (lc : string -> string -> JS.number) (st : App.State),
    (forall a, In a (App.assets st) -> sort_field (App.sortKey st) a <> JS.NaN) ->
    App.processedAssets lc (App.setAssets (App.processedAssets lc st) st)
    = App.processedAssets lc st.
Proof.
  intros lc st H.
  pose proof (display_is_sorted_by_the_selected_key lc st H) as Hs.
  assert (HP : List.Forall (fun a => sort_field (App.sortKey st) a <> JS.NaN)
                 (App.processedAssets lc st)).
  { rewrite processedAssets_eq.
    apply sort_Forall, shown_Forall, List.Forall_forall, H. }
  rewrite (processedAssets_eq lc (App.setAssets _ st)).
  change (App.marketMode (App.setAssets (App.processedAssets lc st) st))
    with (App.marketMode st).
  change (App.searchQuery (App.setAssets (App.processedAssets lc st) st))
    with (App.searchQuery st).
  change (App.sortKey (App.setAssets (App.processedAssets lc st) st))
    with (App.sortKey st).
  change (App.sortOrder (App.setAssets (App.processedAssets lc st) st))
    with (App.sortOrder st).
  change (App.assets (App.setAssets (App.processedAssets lc st) st))
    with (App.processedAssets lc st).
  assert (E : (if Types.MarketMode_eqb (App.marketMode st) Types.bluechips
                  && (0 <? String.length (JS.trim (App.searchQuery st)))%nat
               then List.filter (matches (App.searchQuery st)) (App.processedAssets lc st)
               else App.processedAssets lc st)
              = App.processedAssets lc st).
  { destruct (_ && _) eqn:C; [|reflexivity].
    apply filter_fixed, List.Forall_forall. intros a Ha.
    rewrite processedAssets_eq, C in Ha. apply sort_In, List.filter_In in Ha. tauto. }
  rewrite E.
  apply (sort_fixed _ (in_order (App.sortKey st) (App.sortOrder st))
           (fun a => sort_field (App.sortKey st) a <> JS.NaN)); [|exact HP|exact Hs].
  intros x y Px Py Hxy. now apply in_order_before.
Qed.

Lemma display_is_stable_under_redisplay_witness :
  App.processedAssets (fun _ _ => JS.NaN)
    (App.setAssets (App.processedAssets (fun _ _ => JS.NaN) three_assets) three_assets)
  = App.processedAssets (fun _ _ => JS.NaN) three_assets.
Proof.
  apply (display_is_stable_under_redisplay (fun _ _ => JS.NaN) three_assets).
  intros a [<-|[<-|[<-|[]]]]; discriminate.
Defined.

(** ** The two adapters *)

Lemma change_or_zero_number (c : option JS.number) : App.change_or_zero c <> JS.NaN.
Proof.
  destruct c as [[| |q]|]; cbn; unfold JS.or_zero; cbn; try discriminate.
  destruct (Qeq_bool q 0); discriminate.
Qed.

(** X5. Whatever the ranked-asset feed sends as 24h change (a number,
    [NaN], zero, or nothing), every asset a successful [fetchBluechips]
    stores has a 24h change that is a number, zero when upstream gave
    none; the assets are as many as the upstream items and keep their
    ranks and order. *)
Theorem bluechip_assets_have_a_numeric_change :
  forall (data : list Feed.Coin) (now : Z) (st : App.State),
    let st' := App.fetchBluechips (Feed.Response true (Feed.Json data)) now st in
    (forall a, In a (App.assets st') -> Types.priceChange24h a <> JS.NaN) /\
    (forall c, In c data -> Feed.price_change_percentage_24h c = None ->
               exists a, In a (App.assets st') /\ Types.id a = Feed.coin_id c
                         /\ Types.priceChange24h a = JS.zero) /\
    List.map Types.rank (App.assets st') = List.map Feed.market_cap_rank data /\
    List.map Types.id (App.assets st') = List.map Feed.coin_id data.
Proof.
  intros data now st st'.
  assert (E : App.assets st' = List.map App.mapCoin data) by reflexivity.
  rewrite E. repeat split.
  - intros a Ha. apply in_map_iff in Ha as (c & <- & _). apply change_or_zero_number.
  - intros c Hc Hn. exists (App.mapCoin c). split; [now apply in_map|].
    split; [reflexivity|]. cbn. now rewrite Hn.
  - now rewrite List.map_map.
  - now rewrite List.map_map.
Qed.

(** X6. Both adapters always end with [loading] cleared, and with
    [error] empty exactly when nothing was thrown: an error left by an
    earlier failure is gone after a fetch that succeeds. *)
Theorem fetch_ends_loaded_with_error_iff_thrown :
  forall (net : Feed.reply (list Feed.Coin)) (dex : Feed.Dex) (query : option string)
         (now : Z) (st : App.State),
    App.loading (App.fetchBluechips net now st) = false /\
    (App.error (App.fetchBluechips net now st) = None <-> App.read net <> None) /\
    App.loading (App.fetchMemecoins dex now query st) = false /\
    (App.error (App.fetchMemecoins dex now query st) = None
     <-> App.pairResults_of dex query <> App.Threw).
Proof.
  intros net dex query now st. repeat split.
  - destruct net as [m | [|] [m | data]]; cbn; congruence.
  - destruct net as [m | [|] [m | data]]; cbn; congruence.
  - unfold App.fetchMemecoins. destruct (App.pairResults_of dex query); cbn; congruence.
  - unfold App.fetchMemecoins. destruct (App.pairResults_of dex query); cbn; congruence.
Qed.

(** X7. A discovery feed that is no array, or an array with no element,
    is not an error: [fetchMemecoins] without a search text then empties
    the asset list, leaves [error] empty and [lastUpdated] as it was,
    and never asks for pairs (the pair endpoint has no say). *)
Theorem empty_discovery_empties_the_list :
  forall (dex : Feed.Dex) (data : Feed.ProfilesData) (now : Z) (query : option string)
         (st : App.State),
    App.searching query = false ->
    Feed.token_profiles dex = Feed.Response true (Feed.Json data) ->
    data = Feed.NotArray \/ data = Feed.Profiles [] ->
    App.fetchMemecoins dex now query st
    = App.setLoading false (App.setAssets [] (App.setError None st)).
Proof.
  intros dex data now query st Hq Hp Hd.
  unfold App.fetchMemecoins, App.pairResults_of. rewrite Hq, Hp.
  destruct Hd as [-> | ->]; reflexivity.
Qed.

Lemma empty_discovery_empties_the_list_witness :
  App.assets (App.fetchMemecoins dex_nothing_trending 7 None three_assets) = [] /\
  App.error (App.fetchMemecoins dex_nothing_trending 7 None three_assets) = None.
Proof.
  rewrite (empty_discovery_empties_the_list dex_nothing_trending (Feed.Profiles []) 7 None
             three_assets eq_refl eq_refl (or_intror eq_refl)).
  split; reflexivity.
Defined.

(** X8. Discovery looks up at most 50 tokens: profiles after the 50th
    change neither the addresses asked for nor the outcome of the
    fetch. *)
Theorem discovery_reads_the_first_50_profiles :
  forall (search : string -> Feed.reply Feed.PairData)
         (tokens : string -> Feed.reply Feed.PairData)
         (profiles more : list (option string)) (now : Z) (st : App.State),
    (50 <= List.length profiles)%nat ->
    App.addresses_of (Feed.Profiles (profiles ++ more))
    = App.addresses_of (Feed.Profiles profiles) /\
    App.fetchMemecoins
      {| Feed.search := search;
         Feed.token_profiles := Feed.Response true (Feed.Json (Feed.Profiles (profiles ++ more)));
         Feed.tokens := tokens |} now None st
    = App.fetchMemecoins
        {| Feed.search := search;
           Feed.token_profiles := Feed.Response true (Feed.Json (Feed.Profiles profiles));
           Feed.tokens := tokens |} now None st.
Proof.
  intros search tokens profiles more now st Hlen.
  assert (E : App.addresses_of (Feed.Profiles (profiles ++ more))
              = App.addresses_of (Feed.Profiles profiles)).
  { unfold App.addresses_of. rewrite List.firstn_app.
    replace (50 - List.length profiles)%nat with 0%nat by lia.
    cbn [List.firstn]. now rewrite List.app_nil_r. }
  split; [exact E|].
  unfold App.fetchMemecoins, App.pairResults_of. cbn [App.searching App.read Feed.token_profiles
    Feed.tokens]. now rewrite E.
Qed.

Lemma discovery_reads_the_first_50_profiles_witness :
  App.fetchMemecoins (dex_echo (List.repeat (Some "a") 50 ++ [Some "b"])) 0 None App.initial
  = App.fetchMemecoins (dex_echo (List.repeat (Some "a") 50)) 0 None App.initial.
Proof.
  apply (proj2 (discovery_reads_the_first_50_profiles _ _ (List.repeat (Some "a") 50)
                  [Some "b"] 0 App.initial (Nat.le_refl 50))).
Defined.

Lemma filteredPairs_In (blockchain : Types.Blockchain) (pairResults : list Feed.Pair)
    (p : Feed.Pair) :
  In p (App.filteredPairs blockchain pairResults) ->
  In p pairResults /\
  (blockchain <> Types.all -> Feed.chainId p = Types.Blockchain_text blockchain).
Proof.
  destruct blockchain; cbn [App.filteredPairs]; intros H;
    try (apply List.filter_In in H as [H1 H2]; apply String.eqb_eq in H2;
         split; [exact H1 | intros _; exact H2]).
  split; [exact H | congruence].
Qed.

(** X9. Every asset a successful [fetchMemecoins] stores is marked as
    DEX-sourced: rank 999, no sparkline, a contract address equal to its
    id, and a chain; and when a chain other than [all] is selected, that
    chain is the selected one. *)
Theorem memecoin_assets_are_on_the_selected_chain :
  forall (dex : Feed.Dex) (now : Z) (query : option string) (st : App.State)
         (pairResults : list Feed.Pair) (a : Types.Asset),
    App.pairResults_of dex query = App.Found pairResults ->
    In a (App.assets (App.fetchMemecoins dex now query st)) ->
    Types.rank a = JS.Fin 999 /\
    Types.sparklineData a = [] /\
    Types.contractAddress a = Some (Types.id a) /\
    (exists chain, Types.blockchain a = Some chain) /\
    (App.blockchain st <> Types.all ->
     Types.blockchain a = Some (Types.Blockchain_text (App.blockchain st))).
Proof.
  intros dex now query st pairResults a Hfound.
  unfold App.fetchMemecoins. rewrite Hfound.
  cbn [App.assets App.setLoading App.setLastUpdated App.setAssets App.blockchain
       App.setError].
  rewrite mappedAssets_firsts. intros Ha.
  apply in_map_iff in Ha as (p & <- & Hp).
  apply firsts_In in Hp as [Hp _]. apply sort_In in Hp.
  apply filteredPairs_In in Hp as [_ Hc].
  repeat split; [eexists; reflexivity|].
  intros Hne. cbn. now rewrite (Hc Hne).
Qed.

Lemma memecoin_assets_are_on_the_selected_chain_witness :
  List.Forall (fun a => Types.blockchain a = Some "solana")
    (App.assets (App.fetchMemecoins dex_AB 0 None on_solana)).
Proof.
  apply List.Forall_forall. intros a Ha.
  apply (memecoin_assets_are_on_the_selected_chain dex_AB 0 None on_solana
           [pool_100; pool_elsewhere; pool_500] a eq_refl Ha).
  discriminate.
Defined.

Lemma firsts_sorted (R : Feed.Pair -> Feed.Pair -> Prop) (l : list Feed.Pair) :
  StronglySorted R l ->
  forall seen : gset string, StronglySorted R (firsts seen l).
Proof.
  induction 1 as [|x l Hl IH Hx]; intros seen; cbn; [constructor|].
  destruct (decide (Feed.address (Feed.baseToken x) ∈ seen)); [apply IH|].
  constructor; [apply IH|].
  apply List.Forall_forall. intros p Hp. apply firsts_In in Hp as [Hp _].
  rewrite List.Forall_forall in Hx. now apply Hx.
Qed.

(** X10. The assets a successful [fetchMemecoins] stores come in order
    of liquidity: they are the mappings of a list of pairs in which no
    pair is more liquid than one before it. *)
Theorem memecoin_assets_come_most_liquid_first :
  forall (dex : Feed.Dex) (now : Z) (query : option string) (st : App.State)
         (pairResults : list Feed.Pair),
    App.pairResults_of dex query = App.Found pairResults ->
    exists kept : list Feed.Pair,
      App.assets (App.fetchMemecoins dex now query st) = List.map App.mapPair kept /\
      StronglySorted above kept /\
      (forall p, In p kept -> In p (App.filteredPairs (App.blockchain st) pairResults)).
Proof.
  intros dex now query st pairResults Hfound.
  exists (firsts ∅ (App.sortedPairs (App.filteredPairs (App.blockchain st) pairResults))).
  split; [|split].
  - unfold App.fetchMemecoins. rewrite Hfound. cbn. apply mappedAssets_firsts.
  - apply firsts_sorted, sortedPairs_sorted.
  - intros p Hp. apply firsts_In in Hp as [Hp _]. now apply sort_In in Hp.
Qed.

Lemma memecoin_assets_come_most_liquid_first_witness :
  exists kept : list Feed.Pair,
    App.assets (App.fetchMemecoins dex_AB 0 None App.initial) = List.map App.mapPair kept /\
    StronglySorted above kept.
Proof.
  destruct (memecoin_assets_come_most_liquid_first dex_AB 0 None App.initial
              [pool_100; pool_elsewhere; pool_500] eq_refl) as (kept & H1 & H2 & _).
  exists kept. split; assumption.
Defined.

(** ** The coordinator under every event *)

(** The search box's handler is the [Typed] event. *)
Lemma step_Typed (t : Z) (text : string) (w : App.State * App.Scheduler) :
  Coordinator.step t (Coordinator.Typed text) w = App.onChange t text w.
Proof.
  destruct w as [st s]. unfold Coordinator.step, App.onChange, Coordinator.commit,
    Coordinator.same_deps, Coordinator.handle.
  change (App.marketMode (App.setSearchQuery text st)) with (App.marketMode st).
  change (App.blockchain (App.setSearchQuery text st)) with (App.blockchain st).
  change (App.searchQuery (App.setSearchQuery text st)) with text.
  assert (M : Types.MarketMode_eqb (App.marketMode st) (App.marketMode st) = true)
    by now destruct (App.marketMode st).
  assert (B : Coordinator.Blockchain_eqb (App.blockchain st) (App.blockchain st) = true)
    by now destruct (App.blockchain st).
  rewrite M, B. cbn [andb]. rewrite (String.eqb_sym (App.searchQuery st) text).
  destruct (String.eqb_spec text (App.searchQuery st)) as [-> | _]; [|reflexivity].
  now destruct st.
Qed.

Lemma same_deps_spec (st st' : App.State) :
  Coordinator.same_deps st st' = true ->
  App.marketMode st' = App.marketMode st /\ App.searchQuery st' = App.searchQuery st.
Proof.
  unfold Coordinator.same_deps. rewrite !andb_true_iff. intros [[M _] Q].
  apply String.eqb_eq in Q. split; [|congruence].
  destruct (App.marketMode st), (App.marketMode st'); cbn in M; congruence.
Qed.

(** Firing leaves the table as it is or empties it, when it holds at
    most the timer of the last run. *)
Lemma fire_due_timers (t : Z) (s : App.Scheduler) :
  last_run_only s ->
  App.destroy (App.fire_due t s) = App.destroy s /\
  (App.timers (App.fire_due t s) = [] \/
   App.fire_due t s = s).
Proof.
  intros [H | (timer & tm & H & _)]; (split; [reflexivity|]).
  - right. now apply fire_due_empty.
  - destruct (Z.leb_spec (App.due tm) t) as [L | L].
    + left. unfold App.fire_due. cbn [App.timers]. rewrite H. cbn.
      now destruct (Z.leb_spec (App.due tm) t); [|lia].
    + right. now apply (fire_due_early t s timer tm).
Qed.

Lemma fire_due_last_run_only (t : Z) (s : App.Scheduler) :
  last_run_only s -> last_run_only (App.fire_due t s).
Proof.
  intros L. destruct (fire_due_timers t s L) as [_ [E | E]]; [now left | now rewrite E].
Qed.

(** One run of the effect on an empty table. *)
Lemma run_effect_fresh (t : Z) (st : App.State) (s : App.Scheduler) :
  App.timers s = [] ->
  App.run_effect t st s
  = match App.effect st with
    | App.Run c =>
        {| App.timers := []; App.next_handle := App.next_handle s;
           App.destroy := None; App.calls := App.calls s ++ [(t, c)] |}
    | App.Timeout c delay =>
        {| App.timers := [(App.next_handle s, {| App.due := t + delay; App.callback := c |})];
           App.next_handle := S (App.next_handle s);
           App.destroy := Some (App.next_handle s);
           App.calls := App.calls s |}
    end.
Proof.
  intros H. unfold App.run_effect, App.setTimeout.
  destruct (App.effect st); cbn [App.timers App.next_handle App.calls]; now rewrite H.
Qed.

(** What a render with a changed dependency leaves: the cleanup and the
    next run, on a table with at most the timer of the last run. *)
Lemma rerun (t : Z) (st : App.State) (s : App.Scheduler) :
  last_run_only s ->
  App.run_effect t st (App.cleanup s)
  = match App.effect st with
    | App.Run c =>
        {| App.timers := []; App.next_handle := App.next_handle s;
           App.destroy := None; App.calls := App.calls s ++ [(t, c)] |}
    | App.Timeout c delay =>
        {| App.timers := [(App.next_handle s, {| App.due := t + delay; App.callback := c |})];
           App.next_handle := S (App.next_handle s);
           App.destroy := Some (App.next_handle s);
           App.calls := App.calls s |}
    end.
Proof.
  intros L. rewrite (run_effect_fresh t st _ (cleanup_last_run s L)).
  now destruct (cleanup_keeps s) as [-> ->].
Qed.

Lemma effect_current (t : Z) (st : App.State) (s : App.Scheduler) :
  App.timers s = [] ->
  timer_is_current (st, App.run_effect t st s) /\ last_run_only (App.run_effect t st s).
Proof.
  intros H. rewrite (run_effect_fresh t st s H).
  unfold timer_is_current, last_run_only, App.effect. cbn [fst snd].
  destruct (App.marketMode st) eqn:M; cbn [App.timers]; [now auto|].
  destruct (0 <? String.length (JS.trim (App.searchQuery st)))%nat eqn:Q;
    cbn [App.timers App.callback App.destroy]; [|now auto].
  split; [now auto|]. right. eauto.
Qed.

Lemma step_current (t : Z) (e : Coordinator.Event) (w : App.State * App.Scheduler) :
  timer_is_current w /\ last_run_only (snd w) ->
  timer_is_current (Coordinator.step t e w) /\ last_run_only (snd (Coordinator.step t e w)).
Proof.
  destruct w as [st s]. cbn [snd]. intros [H L].
  unfold Coordinator.step, Coordinator.commit.
  destruct (Coordinator.same_deps st (Coordinator.handle e st)) eqn:D.
  - apply same_deps_spec in D as [M Q]. cbn [snd].
    split; [|now apply fire_due_last_run_only].
    unfold timer_is_current in *. cbn [fst snd] in *. rewrite M, Q.
    destruct (fire_due_timers t s L) as [_ [-> | ->]]; [exact I | exact H].
  - cbn [snd]. apply effect_current, cleanup_last_run, fire_due_last_run_only, L.
Qed.

Lemma run_current (events : list (Z * Coordinator.Event)) :
  forall w,
    timer_is_current w /\ last_run_only (snd w) ->
    timer_is_current (Coordinator.run events w) /\
    last_run_only (snd (Coordinator.run events w)).
Proof.
  induction events as [|[t e] events IH]; intros w H; [exact H|].
  apply IH. now apply step_current.
Qed.

(** X11. From the first render on, whatever the user types and clicks
    and whenever, a pending debounce timer belongs to the current state:
    it exists only in Memecoin mode with a non-blank search text, and
    the call it makes when it fires is [fetchMemecoins] with the search
    text as it is then.  No timer fires for a text or a mode that has
    since changed.  The timer table never holds more than that one
    timer, the one of the effect's last run. *)
Theorem pending_timer_is_never_stale :
  forall (t0 : Z) (st0 : App.State) (events : list (Z * Coordinator.Event)) (t : Z),
    let w := Coordinator.run events (Coordinator.mount t0 st0) in
    timer_is_current w /\
    (App.calls (App.fire_due t (snd w)) = App.calls (snd w) \/
     App.marketMode (fst w) = Types.memecoins /\
     exists due : Z,
       App.calls (App.fire_due t (snd w))
       = App.calls (snd w) ++ [(due, App.CallMemecoins (Some (App.searchQuery (fst w))))]) /\
    last_run_only (snd w).
Proof.
  intros t0 st0 events t w.
  assert (H : timer_is_current w /\ last_run_only (snd w))
    by (apply run_current; now apply effect_current).
  destruct H as [H L]. split; [exact H|]. split; [|exact L].
  unfold timer_is_current in H. unfold App.fire_due. cbn [App.calls].
  destruct (App.timers (snd w)) as [|[timer tm] [|? ?]]; [left | | contradiction].
  - cbn. apply List.app_nil_r.
  - cbn [List.filter snd]. destruct (App.due tm <=? t)%Z.
    + right. destruct H as (M & C & _). split; [exact M|].
      exists (App.due tm). cbn. now rewrite C.
    + left. cbn. apply List.app_nil_r.
Qed.

Lemma settle_empty (s : App.Scheduler) : App.timers s = [] -> App.settle s = s.
Proof.
  intros H. unfold App.settle. rewrite H. cbn. rewrite List.app_nil_r.
  destruct s; cbn in *. now subst.
Qed.

(** X12. Clicking the button of the other market mode cancels a pending
    search and calls the new mode's fetch at once: [fetchBluechips], or
    [fetchMemecoins] without a text (the search text has been cleared).
    Nothing is left pending. *)
Theorem mode_switch_cancels_the_pending_search :
  forall (t : Z) (mode : Types.MarketMode) (st : App.State) (s : App.Scheduler),
    App.marketMode st <> mode ->
    last_run_only s ->
    let w' := Coordinator.step t (Coordinator.ModeClicked mode) (st, s) in
    App.timers (snd w') = [] /\
    App.calls (snd w')
    = App.calls (App.fire_due t s)
      ++ [(t, match mode with
              | Types.bluechips => App.CallBluechips
              | Types.memecoins => App.CallMemecoins None
              end)] /\
    App.settle (snd w') = snd w'.
Proof.
  intros t mode st s Hne L w'.
  assert (D : Coordinator.same_deps st (Coordinator.handle (Coordinator.ModeClicked mode) st)
              = false).
  { unfold Coordinator.same_deps. cbn.
    destruct (App.marketMode st), mode; cbn; congruence. }
  assert (E : snd w'
              = {| App.timers := [];
                   App.next_handle := App.next_handle (App.fire_due t s);
                   App.destroy := None;
                   App.calls := App.calls (App.fire_due t s)
                                ++ [(t, match mode with
                                        | Types.bluechips => App.CallBluechips
                                        | Types.memecoins => App.CallMemecoins None
                                        end)] |}).
  { unfold w', Coordinator.step, Coordinator.commit. rewrite D. cbn [snd].
    rewrite (rerun t _ _ (fire_due_last_run_only t s L)).
    now destruct mode. }
  rewrite E. split; [reflexivity|]. split; [reflexivity|].
  now apply settle_empty.
Qed.

Lemma mode_switch_cancels_the_pending_search_witness :
  App.calls
    (App.settle
       (snd (Coordinator.step 300 (Coordinator.ModeClicked Types.bluechips)
               (App.onChange 0 "pepe" memecoin_idle))))
  = [(300%Z, App.CallBluechips)].
Proof.
  destruct (App.onChange 0 "pepe" memecoin_idle) as [st1 s1] eqn:E.
  assert (M : App.marketMode st1 = Types.memecoins)
    by (change st1 with (fst (st1, s1)); now rewrite <- E).
  assert (C : App.calls s1 = [] /\
              exists tm, App.timers s1 = [(0%nat, tm)] /\ App.destroy s1 = Some 0%nat /\
                         App.due tm = 600%Z).
  { change s1 with (snd (st1, s1)). rewrite <- E. split; [reflexivity|].
    eexists. repeat split. }
  destruct C as (C1 & tm & C2 & C3 & C4).
  destruct (mode_switch_cancels_the_pending_search 300 Types.bluechips st1 s1)
    as (_ & H2 & H3); [congruence | right; eauto |].
  cbv zeta in H2, H3. rewrite H3, H2.
  unfold App.fire_due. rewrite C2. cbn. rewrite C4. cbn.
  now rewrite C1.
Defined.

(** X13. In Memecoin mode, clicking another chain re-runs the effect:
    with a blank search text the discovery fetch is called at once; with
    a search text the change is debounced like typing, the search being
    called 600 ms after the click and the timer of the run before
    cleared. *)
Theorem chain_switch_refetches_or_restarts_the_window :
  forall (t : Z) (chain : Types.Blockchain) (st : App.State) (s : App.Scheduler),
    App.marketMode st = Types.memecoins ->
    App.blockchain st <> chain ->
    last_run_only s ->
    let w' := Coordinator.step t (Coordinator.ChainClicked chain) (st, s) in
    let s1 := App.fire_due t s in
    App.blockchain (fst w') = chain /\
    App.searchQuery (fst w') = App.searchQuery st /\
    snd w'
    = if (0 <? String.length (JS.trim (App.searchQuery st)))%nat
      then {| App.timers :=
                [(App.next_handle s1,
                  {| App.due := t + 600;
                     App.callback := App.CallMemecoins (Some (App.searchQuery st)) |})];
              App.next_handle := S (App.next_handle s1);
              App.destroy := Some (App.next_handle s1);
              App.calls := App.calls s1 |}
      else {| App.timers := [];
              App.next_handle := App.next_handle s1;
              App.destroy := None;
              App.calls := App.calls s1 ++ [(t, App.CallMemecoins None)] |}.
Proof.
  intros t chain st s Hm Hne L w' s1.
  unfold w', Coordinator.step, Coordinator.handle. rewrite Hm. cbn [fst snd].
  split; [reflexivity|]. split; [reflexivity|].
  assert (D : Coordinator.same_deps st (App.setBlockchain chain st) = false).
  { unfold Coordinator.same_deps. cbn [App.blockchain App.setBlockchain].
    replace (Coordinator.Blockchain_eqb (App.blockchain st) chain) with false
      by (destruct (App.blockchain st), chain; cbn; congruence).
    now rewrite andb_false_r. }
  unfold Coordinator.commit. rewrite D.
  rewrite (rerun t _ _ (fire_due_last_run_only t s L)). unfold App.effect.
  change (App.marketMode (App.setBlockchain chain st)) with (App.marketMode st).
  change (App.searchQuery (App.setBlockchain chain st)) with (App.searchQuery st).
  rewrite Hm. now destruct (0 <? String.length (JS.trim (App.searchQuery st)))%nat.
Qed.

Lemma chain_switch_refetches_or_restarts_the_window_witness :
  App.calls
    (snd (Coordinator.step 50 (Coordinator.ChainClicked Types.base) memecoin_idle))
  = [(50%Z, App.CallMemecoins None)].
Proof.
  pose proof (chain_switch_refetches_or_restarts_the_window 50 Types.base
                (fst memecoin_idle) (snd memecoin_idle) eq_refl) as H.
  destruct H as (_ & _ & H); [discriminate | now left |].
  change (fst memecoin_idle, snd memecoin_idle) with memecoin_idle in H.
  rewrite H. reflexivity.
Defined.

(** X14. In Memecoin mode, changing the search text to a blank one (the
    box is cleared) cancels the pending search and calls the discovery
    fetch at once. *)
Theorem clearing_the_search_fetches_discovery_at_once :
  forall (t : Z) (text : string) (st : App.State) (s : App.Scheduler),
    App.marketMode st = Types.memecoins ->
    text <> App.searchQuery st ->
    (0 <? String.length (JS.trim text))%nat = false ->
    last_run_only s ->
    snd (App.onChange t text (st, s))
    = {| App.timers := [];
         App.next_handle := App.next_handle (App.fire_due t s);
         App.destroy := None;
         App.calls := App.calls (App.fire_due t s) ++ [(t, App.CallMemecoins None)] |}.
Proof.
  intros t text st s Hm Hne Hb L. unfold App.onChange.
  rewrite (eqb_neq_false _ _ Hne). cbn [snd].
  rewrite (rerun t _ _ (fire_due_last_run_only t s L)). unfold App.effect.
  change (App.marketMode (App.setSearchQuery text st)) with (App.marketMode st).
  change (App.searchQuery (App.setSearchQuery text st)) with text.
  now rewrite Hm, Hb.
Qed.

Lemma clearing_the_search_fetches_discovery_at_once_witness :
  App.calls
    (App.settle (snd (App.onChange 200 "" (App.onChange 0 "pepe" memecoin_idle))))
  = [(200%Z, App.CallMemecoins None)].
Proof.
  destruct (App.onChange 0 "pepe" memecoin_idle) as [st1 s1] eqn:E.
  assert (M : App.marketMode st1 = Types.memecoins)
    by (change st1 with (fst (st1, s1)); now rewrite <- E).
  assert (Q : App.searchQuery st1 = "pepe")
    by (change st1 with (fst (st1, s1)); now rewrite <- E).
  assert (C : App.calls s1 = [] /\
              exists tm, App.timers s1 = [(0%nat, tm)] /\ App.destroy s1 = Some 0%nat /\
                         App.due tm = 600%Z).
  { change s1 with (snd (st1, s1)). rewrite <- E. split; [reflexivity|].
    eexists. repeat split. }
  destruct C as (C1 & tm & C2 & C3 & C4).
  rewrite (clearing_the_search_fetches_discovery_at_once 200 "" st1 s1 M);
    [ | rewrite Q; discriminate | reflexivity | right; eauto ].
  unfold App.settle, App.fire_due. rewrite C2. cbn. rewrite C4. cbn.
  now rewrite C1.
Defined.

(** X15. In Bluechip mode the search is not debounced: every change of
    the search text calls [fetchBluechips] again at once (the text only
    filters on the client side). *)
Theorem bluechip_typing_refetches_on_every_change :
  forall (t : Z) (text : string) (st : App.State) (s : App.Scheduler),
    App.marketMode st = Types.bluechips ->
    text <> App.searchQuery st ->
    last_run_only s ->
    snd (App.onChange t text (st, s))
    = {| App.timers := [];
         App.next_handle := App.next_handle (App.fire_due t s);
         App.destroy := None;
         App.calls := App.calls (App.fire_due t s) ++ [(t, App.CallBluechips)] |}.
Proof.
  intros t text st s Hm Hne L. unfold App.onChange.
  rewrite (eqb_neq_false _ _ Hne). cbn [snd].
  rewrite (rerun t _ _ (fire_due_last_run_only t s L)). unfold App.effect.
  change (App.marketMode (App.setSearchQuery text st)) with (App.marketMode st).
  now rewrite Hm.
Qed.

Lemma bluechip_typing_refetches_on_every_change_witness :
  App.calls
    (snd (App.typing [(0, "b"); (100, "bt"); (200, "btc")]%Z (App.initial, App.idle)))
  = [(0%Z, App.CallBluechips); (100%Z, App.CallBluechips); (200%Z, App.CallBluechips)].
Proof.
  assert (H := bluechip_typing_refetches_on_every_change 0 "b" App.initial App.idle eq_refl).
  assert (E : App.typing [(0, "b"); (100, "bt"); (200, "btc")]%Z (App.initial, App.idle)
              = App.typing [(100, "bt"); (200, "btc")]%Z
                  (fst (App.onChange 0 "b" (App.initial, App.idle)),
                   snd (App.onChange 0 "b" (App.initial, App.idle))))
    by reflexivity.
  rewrite E, H; [reflexivity | discriminate | now left].
Defined.

(** ** The news feed beyond the cache claims *)

(** The cache check leaves the store as it is or without its entry. *)
Lemma read_cache_store (now : Z) (store : gmap string string) :
  snd (NewsFeed.read_cache now store) = store \/
  snd (NewsFeed.read_cache now store) = delete NewsFeed.CACHE_KEY store.
Proof.
  unfold NewsFeed.read_cache.
  destruct (store !! NewsFeed.CACHE_KEY) as [cached|]; [|now left].
  destruct (JS.nonempty cached); [|now left].
  destruct (JSON.parse cached) as [parsed|]; [|now right].
  destruct (JSON.get parsed "expiry") as [expiry|]; [|now right].
  destruct (JS.lt _ _); now left.
Qed.

(** X16. A refresh that goes to the network and fails, because the live
    call throws or because the reply yields no item, loses nothing that
    is shown, forced or not and whatever the cache held: the items on
    screen are what they were, the error flag is raised, the loading and
    cached flags are cleared, and exactly one live call was made.  The
    store gains nothing and no entry of it changes (at most the cache
    entry is gone); after a forced refresh it is what it was. *)
Theorem failed_refresh_keeps_items_and_cache :
  forall (force : bool) (fetched : option (list NewsFeed.NewsItem)) (now now' : Z)
         (w : NewsFeed.World),
    fetched = None \/ fetched = Some [] ->
    let w' := NewsFeed.fetchNews force now fetched now' w in
    NewsFeed.requests w' <> NewsFeed.requests w ->
    NewsFeed.news (NewsFeed.state w') = NewsFeed.news (NewsFeed.state w) /\
    NewsFeed.localStorage w' ⊆ NewsFeed.localStorage w /\
    (force = true -> NewsFeed.localStorage w' = NewsFeed.localStorage w) /\
    NewsFeed.error (NewsFeed.state w') = true /\
    NewsFeed.loading (NewsFeed.state w') = false /\
    NewsFeed.isCached (NewsFeed.state w') = false /\
    NewsFeed.requests w' = S (NewsFeed.requests w).
Proof.
  intros force fetched now now' w Hf w' Hlive.
  assert (F : forall v : NewsFeed.World,
             NewsFeed.fresh_fetch fetched now' v
             = {| NewsFeed.state :=
                    {| NewsFeed.news := NewsFeed.news (NewsFeed.state v);
                       NewsFeed.loading := false; NewsFeed.error := true;
                       NewsFeed.isCached := false |};
                  NewsFeed.localStorage := NewsFeed.localStorage v;
                  NewsFeed.requests := S (NewsFeed.requests v) |}).
  { intros v. now destruct Hf as [-> | ->]. }
  unfold NewsFeed.fetchNews in w'. destruct force.
  - unfold w'. rewrite F. cbn. repeat split; reflexivity.
  - pose proof (read_cache_store now (NewsFeed.localStorage w)) as Hs.
    destruct (NewsFeed.read_cache now (NewsFeed.localStorage w)) as [[items|] store] eqn:E.
    + now contradiction Hlive.
    + unfold w'. rewrite F. cbn in *. repeat split; try discriminate.
      destruct Hs as [-> | ->]; [reflexivity | apply delete_subseteq].
Qed.

Lemma failed_refresh_keeps_items_and_cache_witness :
  NewsFeed.localStorage (NewsFeed.fetchNews false 2000 (Some []) 2001 broken_visit)
  ⊆ NewsFeed.localStorage broken_visit.
Proof.
  apply (failed_refresh_keeps_items_and_cache false (Some []) 2000 2001 broken_visit).
  - now right.
  - vm_compute. discriminate.
Defined.

(** X17. The error flag outlives a cache hit.  After a successful fetch,
    a forced refresh that fails raises the flag; a later read that is not
    forced and comes before the entry expires shows the cached items
    without a live call, marks them cached, and leaves the flag raised. *)
Theorem error_flag_survives_a_cache_hit :
  forall (w : NewsFeed.World) (i : NewsFeed.NewsItem) (l : list NewsFeed.NewsItem)
         (written_at t1 t1' t2 t2' : Z) (fetched : option (list NewsFeed.NewsItem)),
    (t2 < written_at + NewsFeed.CACHE_TTL)%Z ->
    let w1 := NewsFeed.fresh_fetch (Some (i :: l)) written_at w in
    let w2 := NewsFeed.fetchNews true t1 None t1' w1 in
    let w3 := NewsFeed.fetchNews false t2 fetched t2' w2 in
    NewsFeed.error (NewsFeed.state w1) = false /\
    NewsFeed.error (NewsFeed.state w3) = true /\
    NewsFeed.isCached (NewsFeed.state w3) = true /\
    NewsFeed.news (NewsFeed.state w3) = NewsFeed.any_of_items (i :: l) /\
    NewsFeed.requests w3 = NewsFeed.requests w2.
Proof.
  intros w i l written_at t1 t1' t2 t2' fetched Ht w1 w2 w3.
  assert (E : NewsFeed.read_cache t2 (NewsFeed.localStorage w2)
              = (NewsFeed.Hit (NewsFeed.any_of_items (i :: l)), NewsFeed.localStorage w2)).
  { rewrite (read_cache_written t2 _
               {| NewsFeed.items := i :: l;
                  NewsFeed.expiry := written_at + NewsFeed.CACHE_TTL |}).
    - cbn [NewsFeed.expiry NewsFeed.items].
      destruct (Z.ltb_spec t2 (written_at + NewsFeed.CACHE_TTL)); [reflexivity | lia].
    - unfold w2, w1. cbn [NewsFeed.fetchNews NewsFeed.fresh_fetch NewsFeed.localStorage].
      apply lookup_insert_eq. }
  split; [reflexivity|].
  assert (W : w3 = {| NewsFeed.state :=
                        {| NewsFeed.news := NewsFeed.any_of_items (i :: l);
                           NewsFeed.loading := false;
                           NewsFeed.error := NewsFeed.error (NewsFeed.state w2);
                           NewsFeed.isCached := true |};
                      NewsFeed.localStorage := NewsFeed.localStorage w2;
                      NewsFeed.requests := NewsFeed.requests w2 |}).
  { unfold w3. unfold NewsFeed.fetchNews at 1. now rewrite E. }
  rewrite W. repeat split.
Qed.

Lemma error_flag_survives_a_cache_hit_witness :
  NewsFeed.error
    (NewsFeed.state
       (NewsFeed.fetchNews false 3000 None 3001
          (NewsFeed.fetchNews true 2000 None 2001
             (NewsFeed.fresh_fetch (Some [headline_1]) 1000 first_visit)))) = true.
Proof.
  apply (error_flag_survives_a_cache_hit first_visit headline_1 [] 1000 2000 2001
           3000 3001 None eq_refl).
Defined.

(** X18. The self-healing of the cache covers what throws and nothing
    else.  An entry whose text is JSON for [null] is deleted by the read
    (reading its [expiry] throws).  An entry that parses to any other
    value without an [expiry] member is a miss that stays in the store:
    the read goes on to the live call and only a successful fetch
    replaces it. *)
Theorem only_throwing_entries_are_deleted :
  forall (w w' : NewsFeed.World) (cached cached' : string) (v : JSON.any) (now : Z),
    NewsFeed.localStorage w !! NewsFeed.CACHE_KEY = Some cached ->
    JS.nonempty cached = true ->
    JSON.parse cached = Some JSON.Null ->
    NewsFeed.localStorage w' !! NewsFeed.CACHE_KEY = Some cached' ->
    JS.nonempty cached' = true ->
    JSON.parse cached' = Some v ->
    JSON.get v "expiry" = Some JSON.Undefined ->
    NewsFeed.read_cache now (NewsFeed.localStorage w)
    = (NewsFeed.Miss, delete NewsFeed.CACHE_KEY (NewsFeed.localStorage w)) /\
    NewsFeed.read_cache now (NewsFeed.localStorage w')
    = (NewsFeed.Miss, NewsFeed.localStorage w') /\
    forall now', NewsFeed.localStorage (NewsFeed.fetchNews false now None now' w')
                 !! NewsFeed.CACHE_KEY = Some cached'.
Proof.
  intros w w' cached cached' v now H1 H2 H3 H4 H5 H6 H7.
  assert (R : NewsFeed.read_cache now (NewsFeed.localStorage w')
              = (NewsFeed.Miss, NewsFeed.localStorage w')).
  { unfold NewsFeed.read_cache. now rewrite H4, H5, H6, H7. }
  split; [|split].
  - unfold NewsFeed.read_cache. now rewrite H1, H2, H3.
  - exact R.
  - intros now'. unfold NewsFeed.fetchNews. rewrite R. exact H4.
Qed.

Lemma only_throwing_entries_are_deleted_witness :
  snd (NewsFeed.read_cache 5 (NewsFeed.localStorage null_visit)) !! NewsFeed.CACHE_KEY = None /\
  snd (NewsFeed.read_cache 5 (NewsFeed.localStorage shapeless_visit)) !! NewsFeed.CACHE_KEY
  = Some "{}".
Proof.
  destruct (only_throwing_entries_are_deleted null_visit shapeless_visit "null" "{}"
              (JSON.Obj []) 5 eq_refl eq_refl eq_refl eq_refl eq_refl eq_refl eq_refl)
    as (H1 & H2 & _).
  rewrite H1, H2. split; reflexivity.
Defined.

(** ** The items built from the live reply *)

Lemma split_nonempty (sep : ascii) (s : string) : NewsReply.split sep s <> [].
Proof.
  destruct s as [|c r]; cbn; [discriminate|].
  destruct (Ascii.eqb c sep); [discriminate|].
  destruct (NewsReply.split sep r); discriminate.
Qed.

(** [split] and [join] undo each other. *)
Lemma join_split (sep : ascii) (s : string) :
  String.concat (String sep "") (NewsReply.split sep s) = s.
Proof.
  induction s as [|c r IH]; [reflexivity|]. cbn [NewsReply.split].
  destruct (Ascii.eqb_spec c sep) as [-> | Hne].
  - pose proof (split_nonempty sep r) as Hn.
    destruct (NewsReply.split sep r) as [|x xs] eqn:E; [congruence|].
    change (String.concat (String sep "") ("" :: x :: xs))
      with ("" ++ String sep "" ++ String.concat (String sep "") (x :: xs))%string.
    rewrite IH. reflexivity.
  - pose proof (split_nonempty sep r) as Hn.
    destruct (NewsReply.split sep r) as [|x xs] eqn:E; [congruence|].
    destruct xs as [|y ys].
    + cbn in IH |- *. now rewrite IH.
    + change (String.concat (String sep "") (String c x :: y :: ys))
        with (String c x ++ String sep "" ++ String.concat (String sep "") (y :: ys))%string.
      change (String.concat (String sep "") (x :: y :: ys))
        with (x ++ String sep "" ++ String.concat (String sep "") (y :: ys))%string in IH.
      rewrite append_cons. now rewrite IH.
Qed.

Lemma free_of_includes (c : ascii) (s : string) :
  JS.includes s (String c "") = negb (free_of c s).
Proof.
  induction s as [|a r IH]; [reflexivity|].
  change (JS.includes (String a r) (String c ""))
    with (String.prefix (String c "") (String a r) || JS.includes r (String c "")).
  rewrite IH. cbn [String.prefix free_of].
  destruct (ascii_dec c a) as [-> | Hne].
  - rewrite Ascii.eqb_refl. now destruct r.
  - destruct (Ascii.eqb_spec a c) as [-> | _]; [congruence|]. reflexivity.
Qed.

Lemma split_head_free (sep : ascii) (s : string) :
  free_of sep (List.hd "" (NewsReply.split sep s)) = true.
Proof.
  induction s as [|c r IH]; [reflexivity|]. cbn [NewsReply.split].
  destruct (Ascii.eqb c sep) eqn:E; [reflexivity|].
  destruct (NewsReply.split sep r) as [|x xs]; cbn in *; now rewrite E.
Qed.

Lemma split_at_first (sep : ascii) (h r : string) :
  free_of sep h = true ->
  NewsReply.split sep (h ++ String sep r) = h :: NewsReply.split sep r.
Proof.
  induction h as [|c h IH]; intros Hf.
  - rewrite append_nil_l. cbn [NewsReply.split]. now rewrite Ascii.eqb_refl.
  - cbn [free_of] in Hf. apply andb_true_iff in Hf as [Hc Hf].
    rewrite append_cons. cbn [NewsReply.split].
    apply negb_true_iff in Hc. rewrite Hc, (IH Hf). reflexivity.
Qed.

Lemma url_of_nonempty (chunks : list (option string)) (i : nat) :
  NewsReply.url_of chunks i <> "".
Proof.
  assert (U : forall j u, NewsReply.uri_at chunks j = Some u -> u <> "").
  { intros j u. unfold NewsReply.uri_at.
    destruct (List.nth_error chunks j) as [[v|]|]; try discriminate.
    destruct v; cbn; [discriminate|]. intros [= <-]. discriminate. }
  unfold NewsReply.url_of.
  destruct (NewsReply.uri_at chunks i) eqn:E; [exact (U _ _ E)|].
  destruct (NewsReply.uri_at chunks 0) eqn:E0; [exact (U _ _ E0) | discriminate].
Qed.

Lemma headline_of_shape (line : string) :
  NewsReply.headline_of line <> "" /\ free_of ":" (NewsReply.headline_of line) = true.
Proof.
  unfold NewsReply.headline_of, NewsReply.before_colon.
  pose proof (split_head_free ":" (NewsReply.strip_bullet (NewsReply.strip_ordinal line)))
    as F.
  destruct (List.hd "" (NewsReply.split ":" _)) as [|c h]; cbn [JS.nonempty].
  - split; [discriminate | reflexivity].
  - split; [discriminate | exact F].
Qed.

(** X19. The live reply yields at most eight items, one for each of the
    first eight lines that are longer than ten characters once trimmed,
    whatever the reply holds; each has a headline that is not empty and
    holds no colon, and a link that is not empty. *)
Theorem reply_yields_at_most_eight_well_formed_items :
  forall (toLocaleTimeString : Z -> string)
         (response : NewsReply.GenerateContentResponse) (now : Z),
    let items := NewsReply.newsItems toLocaleTimeString response now in
    List.length items
    = Nat.min 8 (List.length (NewsReply.lines (default "" (NewsReply.text response)))) /\
    (List.length items <= 8)%nat /\
    forall item, In item items ->
      NewsFeed.headline item <> "" /\
      JS.includes (NewsFeed.headline item) ":" = false /\
      NewsFeed.url item <> "".
Proof.
  intros fmt response now items.
  assert (L : List.length items
              = Nat.min 8 (List.length (NewsReply.lines (default "" (NewsReply.text response))))).
  { unfold items, NewsReply.newsItems. rewrite length_imap, List.length_firstn.
    now destruct (NewsReply.text response). }
  split; [exact L|]. split; [rewrite L; apply Nat.le_min_l|].
  intros item Hin. apply list_elem_of_In, elem_of_lookup_imap_1 in Hin
    as (i & line & -> & _).
  cbn [NewsFeed.headline NewsFeed.url NewsReply.item].
  destruct (headline_of_shape line) as [H1 H2].
  split; [exact H1|]. split; [|apply url_of_nonempty].
  now rewrite free_of_includes, H2.
Qed.

(** X20. A line [h:r] whose part [h] before the first colon is not
    empty and does not start with a digit, a dash or a star gives the
    headline [h] and the summary [r] trimmed; and for every line with a
    colon, the text before its first colon, the colon and the text after
    it make up the line again. *)
Theorem colon_splits_headline_from_summary :
  forall (c : ascii) (h r : string),
    JS.digit_of c = None -> c <> "-"%char -> c <> "*"%char ->
    free_of ":" (String c h) = true ->
    NewsReply.headline_of (String c h ++ String ":" r) = String c h /\
    NewsReply.summary_of (String c h ++ String ":" r) = JS.trim r /\
    forall line,
      (NewsReply.before_colon line ++ String ":" (NewsReply.after_colon line))%string = line
      \/ JS.includes line ":" = false.
Proof.
  intros c h r Hd Hdash Hstar Hf.
  assert (S : NewsReply.split ":" (String c h ++ String ":" r)
              = String c h :: NewsReply.split ":" r) by now apply split_at_first.
  split; [|split].
  - unfold NewsReply.headline_of, NewsReply.before_colon.
    assert (O : NewsReply.strip_ordinal (String c h ++ String ":" r)
                = (String c h ++ String ":" r)%string).
    { unfold NewsReply.strip_ordinal. rewrite append_cons. cbn [JS.scan_digits].
      now rewrite Hd. }
    assert (B : NewsReply.strip_bullet (String c h ++ String ":" r)
                = (String c h ++ String ":" r)%string).
    { unfold NewsReply.strip_bullet. rewrite append_cons.
      destruct (Ascii.eqb_spec c "-"); [congruence|].
      destruct (Ascii.eqb_spec c "*"); [congruence|]. reflexivity. }
    rewrite O, B, S. reflexivity.
  - unfold NewsReply.summary_of, NewsReply.after_colon.
    assert (I : JS.includes (String c h ++ String ":" r) ":" = true).
    { rewrite free_of_includes.
      apply negb_true_iff. clear. induction (String c h) as [|a s IH];
        [rewrite append_nil_l; reflexivity|].
      rewrite append_cons. cbn [free_of]. rewrite IH. apply andb_false_r. }
    rewrite I, S. cbn [List.tl]. now rewrite join_split.
  - intros line. pose proof (join_split ":" line) as J.
    pose proof (split_nonempty ":" line) as N.
    unfold NewsReply.before_colon, NewsReply.after_colon.
    destruct (NewsReply.split ":" line) as [|x [|y ys]] eqn:E; [congruence| |].
    + right. cbn in J. subst x. rewrite free_of_includes.
      apply negb_false_iff.
      pose proof (split_head_free ":" line) as F. now rewrite E in F.
    + left. cbn [List.hd List.tl].
      change (String.concat ":" (x :: y :: ys))
        with (x ++ String ":" "" ++ String.concat ":" (y :: ys))%string in J.
      rewrite append_cons, append_nil_l in J. exact J.
Qed.

Lemma colon_splits_headline_from_summary_witness :
  NewsReply.headline_of "Bitcoin rallies: ETF inflows" = "Bitcoin rallies" /\
  NewsReply.summary_of "Bitcoin rallies: ETF inflows" = "ETF inflows".
Proof.
  destruct (colon_splits_headline_from_summary "B" "itcoin rallies" " ETF inflows"
              eq_refl) as (H1 & H2 & _); try discriminate; [reflexivity|].
  split; [exact H1 | exact H2].
Defined.

(** X21. A reply with no line longer than ten characters once trimmed
    (an absent or empty text among them) is a failed fetch: on a forced
    refresh the items shown and the store stay as they were and the
    error flag is raised. *)
Theorem reply_without_usable_line_is_a_failure :
  forall (toLocaleTimeString : Z -> string)
         (response : NewsReply.GenerateContentResponse) (now date now' : Z)
         (w : NewsFeed.World),
    (forall line, In line (NewsReply.split "010" (default "" (NewsReply.text response))) ->
                  (String.length (JS.trim line) <= 10)%nat) ->
    let w' := NewsReply.fetchNews_live toLocaleTimeString true now (Some response)
                date now' w in
    NewsFeed.news (NewsFeed.state w') = NewsFeed.news (NewsFeed.state w) /\
    NewsFeed.localStorage w' = NewsFeed.localStorage w /\
    NewsFeed.error (NewsFeed.state w') = true.
Proof.
  intros fmt response now date now' w H w'.
  assert (E : NewsReply.newsItems fmt response date = []).
  { unfold NewsReply.newsItems.
    replace (NewsReply.lines match NewsReply.text response with
                             | Some t => t
                             | None => ""
                             end) with (@nil string); [reflexivity|].
    symmetry. unfold NewsReply.lines.
    assert (G : forall l : list string,
               (forall line, In line l -> (String.length (JS.trim line) <= 10)%nat) ->
               List.filter (fun l => (10 <? String.length (JS.trim l))%nat) l = []).
    { induction l as [|x l IH]; intros Hl; [reflexivity|]. cbn [List.filter].
      assert (L : (10 <? String.length (JS.trim x))%nat = false)
        by (apply Nat.ltb_ge, Hl; now left).
      rewrite L. apply IH. intros line Hin. apply Hl. now right. }
    apply G. destruct (NewsReply.text response); exact H. }
  unfold w', NewsReply.fetchNews_live. rewrite E. cbn. repeat split.
Qed.

Lemma reply_without_usable_line_is_a_failure_witness :
  NewsFeed.error
    (NewsFeed.state
       (NewsReply.fetchNews_live JSON.integer true 0 (Some reply_empty) 1 2 first_visit))
  = true.
Proof.
  apply (reply_without_usable_line_is_a_failure JSON.integer reply_empty 0 1 2 first_visit).
  intros line [<-|[]]. cbn. lia.
Defined.

(** ** The assistant beyond the fallback claim *)

Lemma trimStart_all_space (s : string) : all_space s = true -> JS.trimStart s = "".
Proof.
  induction s as [|c r IH]; [reflexivity|]. cbn [all_space JS.trimStart].
  intros H. apply andb_true_iff in H as [Hc Hr]. now rewrite Hc, IH.
Qed.

(** X22. A message that is white space throughout, or one sent while a
    reply is awaited, is ignored: [sendMessage] changes nothing, with or
    without the credential and whatever the live call would do. *)
Theorem blank_or_early_message_is_ignored :
  forall (HAS_API_KEY : bool) (live : string -> option ChatBot.GenerateContentResponse)
         (at_send at_reply : string) (overrideInput : option string) (st : ChatBot.State),
    all_space (ChatBot.textToSend overrideInput st) = true \/ ChatBot.isTyping st = true ->
    ChatBot.sendMessage HAS_API_KEY live at_send at_reply overrideInput st = st.
Proof.
  intros key live at_send at_reply o st H. unfold ChatBot.sendMessage.
  assert (A : ChatBot.accepted o st = false).
  { unfold ChatBot.accepted. destruct H as [H | H].
    - unfold JS.trim. now rewrite (trimStart_all_space _ H).
    - rewrite H. apply andb_false_r. }
  now rewrite A.
Qed.

Lemma blank_or_early_message_is_ignored_witness :
  ChatBot.sendMessage true (fun _ => None) "10:00" "10:01" (Some "   ")
    {| ChatBot.messages := []; ChatBot.input := ""; ChatBot.isTyping := false |}
  = {| ChatBot.messages := []; ChatBot.input := ""; ChatBot.isTyping := false |}.
Proof.
  apply (blank_or_early_message_is_ignored true (fun _ => None) "10:00" "10:01"
           (Some "   ")).
  left. reflexivity.
Defined.

Lemma toLowerCase_app (a b : string) :
  JS.toLowerCase (a ++ b) = (JS.toLowerCase a ++ JS.toLowerCase b)%string.
Proof.
  induction a as [|c a IH]; [reflexivity|].
  rewrite append_cons. cbn [JS.toLowerCase]. now rewrite IH, append_cons.
Qed.

Lemma prefix_app (k b : string) : String.prefix k (k ++ b) = true.
Proof.
  induction k as [|c k IH]; [now destruct b|].
  rewrite append_cons. cbn [String.prefix]. destruct (ascii_dec c c); [exact IH | congruence].
Qed.

Lemma includes_unfold (s sub : string) :
  JS.includes s sub
  = String.prefix sub s
    || match s with
       | EmptyString => false
       | String _ r => JS.includes r sub
       end.
Proof. now destruct s. Qed.

(** A text includes what it has in the middle. *)
Lemma includes_middle (a k b : string) : JS.includes (a ++ k ++ b) k = true.
Proof.
  induction a as [|c a IH].
  - rewrite append_nil_l, includes_unfold, prefix_app. reflexivity.
  - rewrite append_cons, includes_unfold, IH. apply orb_true_r.
Qed.

(** X23. The keywords are matched anywhere in the message and in any
    letter case, and Bitcoin has priority: a message that contains
    [bitcoin] or [btc], in upper or lower case, gets the Bitcoin answer
    whatever else it mentions. *)
Theorem bitcoin_keyword_wins_anywhere_in_any_case :
  forall (before keyword after : string),
    JS.toLowerCase keyword = "bitcoin" \/ JS.toLowerCase keyword = "btc" ->
    ChatBot.getSimulatedResponse (before ++ keyword ++ after)
    = ChatBot.getSimulatedResponse "bitcoin".
Proof.
  intros a k b H.
  change (ChatBot.getSimulatedResponse "bitcoin")
    with "Bitcoin is currently testing major psychological resistance levels. On-chain data suggests institutional wallets are in a 'holding' phase, while retail sentiment remains cautiously optimistic. Watch the 200-day moving average for trend confirmation.".
  unfold ChatBot.getSimulatedResponse.
  rewrite !toLowerCase_app.
  destruct H as [-> | ->].
  - now rewrite includes_middle.
  - rewrite (includes_middle _ "btc"). now rewrite orb_true_r.
Qed.

Lemma bitcoin_keyword_wins_anywhere_in_any_case_witness :
  ChatBot.getSimulatedResponse "Is Ethereum beating BTC this week?"
  = ChatBot.getSimulatedResponse "bitcoin".
Proof.
  apply (bitcoin_keyword_wins_anywhere_in_any_case "Is Ethereum beating " "BTC"
           " this week?").
  right. reflexivity.
Defined.

(** X24. A reply built from a live answer always has a text (the
    fallback line when the answer has none), never carries an empty list
    of sources, and carries only sources whose link is not empty. *)
Theorem live_reply_has_text_and_only_linked_sources :
  forall (response : ChatBot.GenerateContentResponse) (textToSend at_reply : string),
    let m := ChatBot.reply true (Some response) textToSend at_reply in
    ChatBot.text m <> "" /\
    ChatBot.sources m <> Some [] /\
    (forall l src, ChatBot.sources m = Some l -> In src l -> ChatBot.uri src <> "") /\
    (forall l src, ChatBot.sources m = Some l -> In src l ->
       In (Some src) (default [] (ChatBot.groundingChunks response))).
Proof.
  intros response sent at_reply m.
  assert (K : forall src,
             In src (ChatBot.sources_of (default [] (ChatBot.groundingChunks response))) ->
             ChatBot.uri src <> ""
             /\ In (Some src) (default [] (ChatBot.groundingChunks response))).
  { intros src Hin. unfold ChatBot.sources_of in Hin.
    apply list_elem_of_In, list_elem_of_omap in Hin as ([w|] & Hw & E); [|discriminate].
    destruct (JS.nonempty (ChatBot.uri w)) eqn:N; [|discriminate].
    injection E as <-. split; [|now apply list_elem_of_In].
    destruct (ChatBot.uri w); [discriminate N | discriminate]. }
  unfold m, ChatBot.reply. cbn [negb ChatBot.text ChatBot.sources].
  split; [|split; [|split]].
  - destruct (ChatBot.response_text response) as [[|c t]|]; discriminate.
  - destruct (ChatBot.sources_of _); discriminate.
  - intros l src Hl Hin.
    destruct (ChatBot.sources_of _) as [|x xs] eqn:E; [discriminate|].
    injection Hl as <-. now apply K.
  - intros l src Hl Hin.
    destruct (ChatBot.sources_of _) as [|x xs] eqn:E; [discriminate|].
    injection Hl as <-. now apply K.
Qed.

(** X25. The suggestion bar is never emptied: from the four initial
    suggestions, after any number of refreshes, with or without the
    credential and whatever the live calls return or throw, there is at
    least one suggestion. *)
Theorem suggestion_bar_is_never_empty :
  forall (HAS_API_KEY : bool) (replies : list (option (option (list string)))),
    Suggestions.suggestions
      (fold_left (fun st reply => Suggestions.fetchDynamicSuggestions HAS_API_KEY reply st)
         replies Suggestions.initial) <> [].
Proof.
  intros key replies.
  assert (G : forall st, Suggestions.suggestions st <> [] ->
              Suggestions.suggestions
                (fold_left (fun st reply =>
                              Suggestions.fetchDynamicSuggestions key reply st)
                   replies st) <> []).
  { induction replies as [|r replies IH]; intros st Hst; [exact Hst|].
    cbn [fold_left]. apply IH. unfold Suggestions.fetchDynamicSuggestions.
    destruct key; cbn [negb]; [|discriminate].
    destruct r as [[[|x l]|]|]; cbn; (exact Hst || discriminate). }
  apply G. discriminate.
Qed.

(** ** The public news feed *)

Lemma units_continuation (x : N) : JS.units (ascii_of_N (128 + x mod 64)) = 0%nat.
Proof.
  unfold JS.units. pose proof (N.mod_upper_bound x 64 ltac:(discriminate)) as B.
  set (r := (x mod 64)%N) in *. clearbody r.
  assert (H : (128 + r < 256)%N) by lia.
  rewrite (N_ascii_embedding _ H).
  destruct (N.ltb_spec (128 + r) 128); [lia|].
  destruct (N.ltb_spec (128 + r) 192); [reflexivity | lia].
Qed.

Lemma length_high_surrogate (c : ascii) (r : string) :
  JS.length (JS.high_surrogate c r) = 1%nat.
Proof.
  unfold JS.high_surrogate. cbv zeta. cbn [JS.length].
  now rewrite !units_continuation.
Qed.

Lemma units_cases (c : ascii) :
  JS.units c = 0%nat \/ JS.units c = 1%nat \/ JS.units c = 2%nat.
Proof.
  unfold JS.units. cbv zeta.
  destruct (_ <? 128)%N; [auto|]. destruct (_ <? 192)%N; [auto|].
  destruct (_ <? 240)%N; auto.
Qed.

(** A cut has the asked number of code units, or all there are. *)
Lemma length_substring_from_0 (s : string) :
  forall n : nat, JS.length (JS.substring_from_0 n s) = Nat.min n (JS.length s).
Proof.
  induction s as [|c r IH]; intros n; [now destruct n|].
  cbn [JS.substring_from_0 JS.length].
  destruct (units_cases c) as [U | [U | U]]; rewrite U.
  - cbn [JS.length]. now rewrite U, IH.
  - destruct n as [|m]; [reflexivity|].
    cbn [JS.length]. rewrite U, IH. reflexivity.
  - destruct n as [|[|m]]; [reflexivity | |].
    + now rewrite length_high_surrogate.
    + cbn [JS.length]. rewrite U, IH. reflexivity.
Qed.

Lemma length_units_append (a b : string) :
  JS.length (a ++ b)%string = (JS.length a + JS.length b)%nat.
Proof.
  induction a as [|x a IH]; [reflexivity|].
  rewrite append_cons. cbn [JS.length]. rewrite IH. lia.
Qed.

(** A clipped summary has exactly 120 code units. *)
Lemma summary_clipped (fmt : Z -> string) (a : PublicFeed.Article) :
  JS.length (PublicFeed.summary (PublicFeed.mapArticle fmt a))
  = Nat.min 120 (JS.length (PublicFeed.body a)).
Proof.
  cbn [PublicFeed.mapArticle PublicFeed.summary].
  destruct (Nat.ltb_spec 120 (JS.length (PublicFeed.body a))) as [Hl|Hl]; [|lia].
  rewrite length_units_append, length_substring_from_0.
  change (JS.length "...") with 3%nat. lia.
Qed.

Lemma source_named (fmt : Z -> string) (a : PublicFeed.Article) :
  PublicFeed.source (PublicFeed.mapArticle fmt a) <> "".
Proof.
  cbn [PublicFeed.mapArticle PublicFeed.source].
  destruct (PublicFeed.source_info_name a) as [[|c name]|]; cbn; congruence.
Qed.

(** A body of 61 accented letters is within the limit and shown whole,
    though it takes 122 bytes. *)
Lemma accented_body_is_shown_whole :
  String.length (PublicFeed.body article_accented) = 122%nat /\
  JS.length (PublicFeed.body article_accented) = 61%nat /\
  PublicFeed.summary (PublicFeed.mapArticle noon article_accented)
  = PublicFeed.body article_accented.
Proof. split; [|split]; vm_compute; reflexivity. Qed.

(** X26. The public feed shows at most fifteen items, the first fifteen
    entries of the reply in their order; every summary has at most 120
    UTF-16 code units, the unit of [length] and [substring], and every
    item names a source.  A summary is the entry's body exactly when the
    body has at most 120 code units; a longer body gives a summary of
    exactly 120. *)
Theorem public_items_are_capped_and_clipped :
  forall (toLocaleTimeString : Z -> string) (Data : list PublicFeed.Article),
    let items := PublicFeed.mappedItems toLocaleTimeString Data in
    List.length items = Nat.min 15 (List.length Data) /\
    List.map PublicFeed.headline items
    = List.map PublicFeed.title (List.firstn 15 Data) /\
    List.Forall (fun item =>
                   (JS.length (PublicFeed.summary item) <= 120)%nat /\
                   PublicFeed.source item <> "") items /\
    forall a : PublicFeed.Article,
      (PublicFeed.summary (PublicFeed.mapArticle toLocaleTimeString a) = PublicFeed.body a
       <-> (JS.length (PublicFeed.body a) <= 120)%nat) /\
      JS.length (PublicFeed.summary (PublicFeed.mapArticle toLocaleTimeString a))
      = Nat.min 120 (JS.length (PublicFeed.body a)).
Proof.
  intros fmt Data items. unfold items, PublicFeed.mappedItems.
  split; [now rewrite List.length_map, List.length_firstn|].
  split; [now rewrite List.map_map|].
  split.
  - apply List.Forall_forall. intros item Hin.
    apply List.in_map_iff in Hin as (a & <- & _).
    split; [rewrite summary_clipped; lia | apply source_named].
  - intros a. split; [|apply summary_clipped]. split.
    + intros E. rewrite <- E, summary_clipped. lia.
    + intros Hl. cbn [PublicFeed.mapArticle PublicFeed.summary].
      destruct (Nat.ltb_spec 120 (JS.length (PublicFeed.body a))); [lia | reflexivity].
Qed.

Lemma public_stringify_NewsItem_flat (i : PublicFeed.NewsItem) (rest : string) :
  (PublicFeed.stringify_NewsItem i ++ rest)%string
  = String "{"
      (JSON.quote "headline" ++ String ":" (JSON.quote (PublicFeed.headline i) ++ String ","
      (JSON.quote "summary" ++ String ":" (JSON.quote (PublicFeed.summary i) ++ String ","
      (JSON.quote "url" ++ String ":" (JSON.quote (PublicFeed.url i) ++ String ","
      (JSON.quote "source" ++ String ":" (JSON.quote (PublicFeed.source i) ++ String ","
      (JSON.quote "timestamp" ++ String ":" (JSON.quote (PublicFeed.timestamp i) ++ String "}"
       rest))))))))))%string.
Proof. unfold PublicFeed.stringify_NewsItem, PublicFeed.field. now flatten. Qed.

Lemma public_parse_value_NewsItem (fuel : nat) (i : PublicFeed.NewsItem) (rest : string) :
  JSON.parse_value (7 + fuel) (PublicFeed.stringify_NewsItem i ++ rest)
  = Some (PublicFeed.any_of_NewsItem i, rest).
Proof.
  rewrite public_stringify_NewsItem_flat.
  change (7 + fuel)%nat with (S (S (S (S (S (S (S fuel))))))).
  rewrite parse_value_object.
  do 4 (erewrite parse_members_comma; [|apply parse_value_quote]).
  erewrite parse_members_close; [|apply parse_value_quote].
  reflexivity.
Qed.

Lemma public_parse_elements_items (l : list PublicFeed.NewsItem) :
  forall (i : PublicFeed.NewsItem) (fuel : nat) (acc : list JSON.any) (rest : string),
    (List.length l + 8 <= fuel)%nat ->
    JSON.parse_elements fuel
      (String.concat "," (List.map PublicFeed.stringify_NewsItem (i :: l)) ++ String "]" rest)
      acc
    = Some (JSON.Arr (List.rev acc ++ List.map PublicFeed.any_of_NewsItem (i :: l)), rest).
Proof.
  induction l as [|j l IH]; intros i fuel acc rest Hf.
  - cbn [List.length] in Hf.
    destruct fuel as [|fuel]; [lia|].
    replace fuel with (7 + (fuel - 7))%nat by lia.
    cbn [List.map String.concat].
    erewrite parse_elements_close; [|apply public_parse_value_NewsItem].
    reflexivity.
  - cbn [List.length] in Hf.
    destruct fuel as [|fuel]; [lia|].
    cbn [List.map]. rewrite concat_cons2. flatten.
    erewrite parse_elements_comma;
      [|replace fuel with (7 + (fuel - 7))%nat by lia; apply public_parse_value_NewsItem].
    change (PublicFeed.stringify_NewsItem j :: List.map PublicFeed.stringify_NewsItem l)
      with (List.map PublicFeed.stringify_NewsItem (j :: l)).
    rewrite IH by lia. cbn [List.rev List.map].
    now rewrite <- List.app_assoc.
Qed.

Lemma public_items_text_starts (i : PublicFeed.NewsItem) (l : list PublicFeed.NewsItem)
    (rest : string) :
  exists r : string,
    (String.concat "," (List.map PublicFeed.stringify_NewsItem (i :: l)) ++ rest)%string
    = String "{" r.
Proof.
  destruct l as [|j l]; cbn [List.map].
  - cbn [String.concat]. rewrite public_stringify_NewsItem_flat. eauto.
  - rewrite concat_cons2, append_assoc, public_stringify_NewsItem_flat. eauto.
Qed.

Lemma public_parse_value_items (l : list PublicFeed.NewsItem) (fuel : nat) (rest : string) :
  (List.length l + 9 <= fuel)%nat ->
  JSON.parse_value fuel
    (String "[" (String.concat "," (List.map PublicFeed.stringify_NewsItem l) ++ String "]" rest))
  = Some (PublicFeed.any_of_items l, rest).
Proof.
  intros Hf. destruct fuel as [|fuel]; [lia|].
  destruct l as [|i l].
  - reflexivity.
  - destruct (public_items_text_starts i l (String "]" rest)) as [r E].
    rewrite E.
    change (JSON.parse_value (S fuel) (String "[" (String "{" r)))
      with (JSON.parse_elements fuel (String "{" r) []).
    rewrite <- E. rewrite public_parse_elements_items by (cbn [List.length] in Hf; lia).
    reflexivity.
Qed.

Lemma public_stringify_flat (d : PublicFeed.CacheData) (rest : string) :
  (PublicFeed.stringify d ++ rest)%string
  = String "{"
      (JSON.quote "items" ++ String ":"
         (String "["
            (String.concat "," (List.map PublicFeed.stringify_NewsItem (PublicFeed.items d))
             ++ String "]" (String ","
                (JSON.quote "expiry" ++ String ":"
                   (JSON.integer (PublicFeed.expiry d) ++ String "}" rest))))))%string.
Proof. unfold PublicFeed.stringify, PublicFeed.field. now flatten. Qed.

Lemma public_parse_value_CacheData (d : PublicFeed.CacheData) (fuel : nat) (rest : string) :
  (List.length (PublicFeed.items d) + 11 <= fuel)%nat ->
  JSON.parse_value fuel (PublicFeed.stringify d ++ rest)
  = Some (PublicFeed.any_of_CacheData d, rest).
Proof.
  intros Hf. rewrite public_stringify_flat.
  destruct fuel as [|[|[|[|fuel]]]]; try lia.
  rewrite parse_value_object.
  erewrite parse_members_comma; [|apply public_parse_value_items; lia].
  erewrite parse_members_close; [|apply parse_value_number].
  reflexivity.
Qed.

Lemma public_length_items_text (l : list PublicFeed.NewsItem) :
  (List.length l
   <= String.length (String.concat "," (List.map PublicFeed.stringify_NewsItem l)))%nat.
Proof.
  induction l as [|i l IH]; [cbn; lia|].
  destruct l as [|j l].
  - cbn [List.map String.concat List.length].
    rewrite <- (append_nil_r (PublicFeed.stringify_NewsItem i)), public_stringify_NewsItem_flat.
    cbn [String.length]. lia.
  - cbn [List.map]. rewrite concat_cons2, !length_append.
    cbn [List.map] in IH. cbn [List.length] in *.
    change (String.length ",") with 1%nat. lia.
Qed.

Lemma public_length_stringify (d : PublicFeed.CacheData) :
  (List.length (PublicFeed.items d) + 5 <= String.length (PublicFeed.stringify d))%nat.
Proof.
  rewrite <- (append_nil_r (PublicFeed.stringify d)), public_stringify_flat.
  cbn [String.length]. rewrite !length_append. cbn [String.length].
  rewrite !length_append. cbn [String.length].
  pose proof (public_length_items_text (PublicFeed.items d)).
  rewrite !length_append. cbn [String.length]. lia.
Qed.

Lemma public_parse_stringify (d : PublicFeed.CacheData) :
  JSON.parse (PublicFeed.stringify d) = Some (PublicFeed.any_of_CacheData d).
Proof.
  unfold JSON.parse.
  rewrite <- (append_nil_r (PublicFeed.stringify d)) at 2.
  rewrite public_parse_value_CacheData; [reflexivity|].
  pose proof (public_length_stringify d). lia.
Qed.

Lemma public_stringify_nonempty (d : PublicFeed.CacheData) :
  JS.nonempty (PublicFeed.stringify d) = true.
Proof. now rewrite <- (append_nil_r (PublicFeed.stringify d)), public_stringify_flat. Qed.

Lemma public_read_cache_written (now : Z) (store : gmap string string)
    (d : PublicFeed.CacheData) :
  store !! PublicFeed.CACHE_KEY = Some (PublicFeed.stringify d) ->
  PublicFeed.read_cache now store
  = if (now <? PublicFeed.expiry d)%Z
    then (PublicFeed.Hit (PublicFeed.any_of_items (PublicFeed.items d)), store)
    else (PublicFeed.Miss, store).
Proof.
  intros H. unfold PublicFeed.read_cache.
  rewrite H, public_stringify_nonempty, public_parse_stringify.
  change (JSON.get (PublicFeed.any_of_CacheData d) "expiry")
    with (Some (JSON.Num (JS.Fin (inject_Z (PublicFeed.expiry d))))).
  change (JSON.get (PublicFeed.any_of_CacheData d) "items")
    with (Some (PublicFeed.any_of_items (PublicFeed.items d))).
  cbn [JSON.ToNumber]. now rewrite lt_inject_Z.
Qed.
(** X27. Whatever array the public feed's reply holds, even an empty
    one, its items are shown without an error and cached; an unforced
    read within five minutes of the write shows them again, makes no
    request and leaves the store as it is. *)
Theorem public_reply_is_cached_even_when_empty :
  forall (toLocaleTimeString : Z -> string) (w : PublicFeed.World)
         (Data : list PublicFeed.Article) (written_at now now' : Z)
         (net : Feed.reply PublicFeed.NewsData),
    (now < written_at + PublicFeed.CACHE_TTL)%Z ->
    let shown := PublicFeed.any_of_items (PublicFeed.mappedItems toLocaleTimeString Data) in
    let w1 := PublicFeed.fresh_fetch toLocaleTimeString
                (Feed.Response true (Feed.Json (PublicFeed.Entries Data))) written_at w in
    let w2 := PublicFeed.fetchNews toLocaleTimeString false now net now' w1 in
    PublicFeed.news (PublicFeed.state w1) = shown /\
    PublicFeed.error (PublicFeed.state w1) = false /\
    PublicFeed.news (PublicFeed.state w2) = shown /\
    PublicFeed.loading (PublicFeed.state w2) = false /\
    PublicFeed.requests w2 = PublicFeed.requests w1 /\
    PublicFeed.localStorage w2 = PublicFeed.localStorage w1.
Proof.
  intros fmt w Data written_at now now' net Hnow shown w1 w2.
  assert (E : PublicFeed.read_cache now (PublicFeed.localStorage w1)
              = (PublicFeed.Hit shown, PublicFeed.localStorage w1)).
  { rewrite (public_read_cache_written now _
               {| PublicFeed.items := PublicFeed.mappedItems fmt Data;
                  PublicFeed.expiry := written_at + PublicFeed.CACHE_TTL |}).
    - cbn [PublicFeed.expiry PublicFeed.items].
      destruct (Z.ltb_spec now (written_at + PublicFeed.CACHE_TTL)); [reflexivity | lia].
    - unfold w1, PublicFeed.fresh_fetch. cbn [App.read PublicFeed.localStorage].
      apply lookup_insert_eq. }
  unfold w2, PublicFeed.fetchNews. rewrite E. cbn. repeat split.
Qed.

Lemma public_reply_is_cached_even_when_empty_witness :
  PublicFeed.news
    (PublicFeed.state
       (PublicFeed.fetchNews noon false 5000 (Feed.Failed "offline") 5001
          (PublicFeed.fresh_fetch noon
             (Feed.Response true (Feed.Json (PublicFeed.Entries []))) 1000
             public_first_visit)))
  = JSON.Arr [].
Proof.
  pose proof (public_reply_is_cached_even_when_empty noon public_first_visit [] 1000
                5000 5001 (Feed.Failed "offline") eq_refl) as H.
  cbv zeta in H. destruct H as (_ & _ & H & _). rewrite H. reflexivity.
Defined.

(** ** The auto-refresh *)

Lemma fetchNews_hit (w : NewsFeed.World) (d : NewsFeed.CacheData) (now now' : Z)
    (fetched : option (list NewsFeed.NewsItem)) :
  NewsFeed.localStorage w !! NewsFeed.CACHE_KEY = Some (NewsFeed.stringify d) ->
  (now < NewsFeed.expiry d)%Z ->
  NewsFeed.fetchNews false now fetched now' w
  = {| NewsFeed.state :=
         {| NewsFeed.news := NewsFeed.any_of_items (NewsFeed.items d);
            NewsFeed.loading := false;
            NewsFeed.error := NewsFeed.error (NewsFeed.state w);
            NewsFeed.isCached := true |};
       NewsFeed.localStorage := NewsFeed.localStorage w;
       NewsFeed.requests := NewsFeed.requests w |}.
Proof.
  intros Hs Hn. unfold NewsFeed.fetchNews.
  rewrite (read_cache_written now _ d Hs).
  now destruct (Z.ltb_spec now (NewsFeed.expiry d)); [|lia].
Qed.

Lemma fetchNews_expired (w : NewsFeed.World) (d : NewsFeed.CacheData) (now now' : Z)
    (fetched : option (list NewsFeed.NewsItem)) :
  NewsFeed.localStorage w !! NewsFeed.CACHE_KEY = Some (NewsFeed.stringify d) ->
  (NewsFeed.expiry d <= now)%Z ->
  NewsFeed.fetchNews false now fetched now' w = NewsFeed.fresh_fetch fetched now' w.
Proof.
  intros Hs Hn. unfold NewsFeed.fetchNews.
  rewrite (read_cache_written now _ d Hs).
  destruct (Z.ltb_spec now (NewsFeed.expiry d)); [lia|].
  now destruct w.
Qed.

(** Ticks that all come before the entry's expiry are all hits. *)
Lemma refresh_hits (ticks : list Refresh.Tick) :
  forall (now : Z) (w : NewsFeed.World) (d : NewsFeed.CacheData),
    NewsFeed.localStorage w !! NewsFeed.CACHE_KEY = Some (NewsFeed.stringify d) ->
    ticks <> [] ->
    (now + (Z.of_nat (List.length ticks) - 1) * Refresh.INTERVAL < NewsFeed.expiry d)%Z ->
    Refresh.refresh now ticks w
    = {| NewsFeed.state :=
           {| NewsFeed.news := NewsFeed.any_of_items (NewsFeed.items d);
              NewsFeed.loading := false;
              NewsFeed.error := NewsFeed.error (NewsFeed.state w);
              NewsFeed.isCached := true |};
         NewsFeed.localStorage := NewsFeed.localStorage w;
         NewsFeed.requests := NewsFeed.requests w |}.
Proof.
  induction ticks as [|t ticks IH]; intros now w d Hs Hne Hn; [congruence|].
  cbn [Refresh.refresh]. unfold Refresh.INTERVAL in *.
  rewrite (fetchNews_hit w d) by (try exact Hs; cbn [List.length] in Hn; lia).
  destruct ticks as [|t' ticks]; [reflexivity|].
  rewrite (IH _ _ d); [reflexivity | exact Hs | discriminate |].
  cbn [List.length] in *. lia.
Qed.

(** X28. After a live call that succeeded and took some time, less than
    a full interval, the next three ticks of the auto-refresh are
    served from the cache, with the fetched items on screen and no
    request made; the fourth tick makes the next live call.  The feed
    thus goes to the network on every fourth tick, every twenty
    minutes, however the three ticks in between would have been
    answered. *)
Theorem refresh_goes_live_every_fourth_tick :
  forall (w : NewsFeed.World) (i : NewsFeed.NewsItem) (l : list NewsFeed.NewsItem)
         (checked took : Z) (t1 t2 t3 t4 : Refresh.Tick),
    (0 < took < Refresh.INTERVAL)%Z ->
    let w1 := NewsFeed.fresh_fetch (Some (i :: l)) (checked + took) w in
    let w2 := Refresh.refresh (checked + Refresh.INTERVAL) [t1; t2; t3] w1 in
    let w3 := Refresh.refresh (checked + Refresh.INTERVAL) [t1; t2; t3; t4] w1 in
    NewsFeed.requests w2 = NewsFeed.requests w1 /\
    NewsFeed.news (NewsFeed.state w2) = NewsFeed.any_of_items (i :: l) /\
    NewsFeed.localStorage w2 = NewsFeed.localStorage w1 /\
    NewsFeed.requests w3 = S (NewsFeed.requests w1).
Proof.
  intros w i l checked took t1 t2 t3 t4 Ht w1 w2 w3.
  set (d := {| NewsFeed.items := i :: l;
               NewsFeed.expiry := checked + took + NewsFeed.CACHE_TTL |}).
  assert (S1 : NewsFeed.localStorage w1 !! NewsFeed.CACHE_KEY = Some (NewsFeed.stringify d))
    by apply lookup_insert_eq.
  unfold Refresh.INTERVAL in *.
  assert (E2 : w2 = {| NewsFeed.state :=
                         {| NewsFeed.news := NewsFeed.any_of_items (i :: l);
                            NewsFeed.loading := false;
                            NewsFeed.error := NewsFeed.error (NewsFeed.state w1);
                            NewsFeed.isCached := true |};
                       NewsFeed.localStorage := NewsFeed.localStorage w1;
                       NewsFeed.requests := NewsFeed.requests w1 |}).
  { unfold w2. apply (refresh_hits [t1; t2; t3] _ w1 d S1); [discriminate|].
    cbn. unfold Refresh.INTERVAL, NewsFeed.CACHE_TTL. lia. }
  assert (E3 : w3 = NewsFeed.fetchNews false (checked + 300000 + 300000 + 300000 + 300000)
                      (Refresh.fetched t4)
                      (checked + 300000 + 300000 + 300000 + 300000 + Refresh.took t4) w2).
  { reflexivity. }
  rewrite E3, E2.
  rewrite (fetchNews_expired _ d) by (try exact S1; cbn; unfold NewsFeed.CACHE_TTL; lia).
  repeat split. unfold NewsFeed.fresh_fetch.
  now destruct (Refresh.fetched t4) as [[|? ?]|].
Qed.

Lemma refresh_goes_live_every_fourth_tick_witness :
  let idle := {| Refresh.fetched := None; Refresh.took := 40 |} in
  let w1 := NewsFeed.fresh_fetch (Some [headline_1]) 250 first_visit in
  NewsFeed.requests (Refresh.refresh 300000 [idle; idle; idle] w1) = 1%nat /\
  NewsFeed.requests (Refresh.refresh 300000 [idle; idle; idle; idle] w1) = 2%nat.
Proof.
  cbv zeta.
  pose proof (refresh_goes_live_every_fourth_tick first_visit headline_1 [] 0 250
                {| Refresh.fetched := None; Refresh.took := 40 |}
                {| Refresh.fetched := None; Refresh.took := 40 |}
                {| Refresh.fetched := None; Refresh.took := 40 |}
                {| Refresh.fetched := None; Refresh.took := 40 |}
                (conj eq_refl eq_refl)) as H.
  cbv zeta in H. destruct H as (H2 & _ & _ & H3).
  split; [exact H2 | exact H3].
Defined.

Lemma public_fetchNews_hit (fmt : Z -> string) (w : PublicFeed.World)
    (d : PublicFeed.CacheData) (now now' : Z) (net : Feed.reply PublicFeed.NewsData) :
  PublicFeed.localStorage w !! PublicFeed.CACHE_KEY = Some (PublicFeed.stringify d) ->
  (now < PublicFeed.expiry d)%Z ->
  PublicFeed.fetchNews fmt false now net now' w
  = {| PublicFeed.state :=
         {| PublicFeed.news := PublicFeed.any_of_items (PublicFeed.items d);
            PublicFeed.loading := false;
            PublicFeed.error := PublicFeed.error (PublicFeed.state w) |};
       PublicFeed.localStorage := PublicFeed.localStorage w;
       PublicFeed.requests := PublicFeed.requests w |}.
Proof.
  intros Hs Hn. unfold PublicFeed.fetchNews.
  rewrite (public_read_cache_written now _ d Hs).
  now destruct (Z.ltb_spec now (PublicFeed.expiry d)); [|lia].
Qed.

Lemma public_fetchNews_expired (fmt : Z -> string) (w : PublicFeed.World)
    (d : PublicFeed.CacheData) (now now' : Z) (net : Feed.reply PublicFeed.NewsData) :
  PublicFeed.localStorage w !! PublicFeed.CACHE_KEY = Some (PublicFeed.stringify d) ->
  (PublicFeed.expiry d <= now)%Z ->
  PublicFeed.fetchNews fmt false now net now' w = PublicFeed.fresh_fetch fmt net now' w.
Proof.
  intros Hs Hn. unfold PublicFeed.fetchNews.
  rewrite (public_read_cache_written now _ d Hs).
  destruct (Z.ltb_spec now (PublicFeed.expiry d)); [lia|].
  now destruct w.
Qed.

Lemma public_fresh_fetch_requests (fmt : Z -> string) (w : PublicFeed.World)
    (now : Z) (net : Feed.reply PublicFeed.NewsData) :
  PublicFeed.requests (PublicFeed.fresh_fetch fmt net now w) = S (PublicFeed.requests w).
Proof.
  unfold PublicFeed.fresh_fetch.
  now destruct (App.read net) as [[| |]|].
Qed.

(** X29. In the public feed the cache lives exactly one refresh
    interval.  After a live call that succeeded and took some time,
    less than a full interval, the next tick of the auto-refresh is
    still served from the cache and makes no request; the tick after it
    makes the next live call.  The feed thus goes to the network on
    every other tick, every ten minutes. *)
Theorem public_refresh_goes_live_every_other_tick :
  forall (toLocaleTimeString : Z -> string) (w : PublicFeed.World)
         (Data : list PublicFeed.Article) (checked took : Z)
         (t1 t2 : Refresh.PublicTick),
    (0 < took < Refresh.INTERVAL)%Z ->
    let w1 := PublicFeed.fresh_fetch toLocaleTimeString
                (Feed.Response true (Feed.Json (PublicFeed.Entries Data)))
                (checked + took) w in
    let w2 := Refresh.public_refresh toLocaleTimeString
                (checked + Refresh.INTERVAL) [t1] w1 in
    let w3 := Refresh.public_refresh toLocaleTimeString
                (checked + Refresh.INTERVAL) [t1; t2] w1 in
    PublicFeed.requests w2 = PublicFeed.requests w1 /\
    PublicFeed.news (PublicFeed.state w2)
    = PublicFeed.any_of_items (PublicFeed.mappedItems toLocaleTimeString Data) /\
    PublicFeed.localStorage w2 = PublicFeed.localStorage w1 /\
    PublicFeed.requests w3 = S (PublicFeed.requests w1).
Proof.
  intros fmt w Data checked took t1 t2 Ht w1 w2 w3.
  set (d := {| PublicFeed.items := PublicFeed.mappedItems fmt Data;
               PublicFeed.expiry := checked + took + PublicFeed.CACHE_TTL |}).
  assert (S1 : PublicFeed.localStorage w1 !! PublicFeed.CACHE_KEY
               = Some (PublicFeed.stringify d))
    by apply lookup_insert_eq.
  unfold Refresh.INTERVAL in *.
  assert (E2 : w2 = {| PublicFeed.state :=
                         {| PublicFeed.news := PublicFeed.any_of_items (PublicFeed.items d);
                            PublicFeed.loading := false;
                            PublicFeed.error := PublicFeed.error (PublicFeed.state w1) |};
                       PublicFeed.localStorage := PublicFeed.localStorage w1;
                       PublicFeed.requests := PublicFeed.requests w1 |}).
  { unfold w2. cbn [Refresh.public_refresh].
    now rewrite (public_fetchNews_hit fmt w1 d)
      by (try exact S1; cbn; unfold PublicFeed.CACHE_TTL; lia). }
  assert (E3 : w3 = PublicFeed.fetchNews fmt false (checked + 300000 + 300000)
                      (Refresh.net t2)
                      (checked + 300000 + 300000 + Refresh.public_took t2) w2).
  { reflexivity. }
  rewrite E3, E2.
  rewrite (public_fetchNews_expired fmt _ d)
    by (try exact S1; cbn; unfold PublicFeed.CACHE_TTL; lia).
  repeat split. now rewrite public_fresh_fetch_requests.
Qed.

Lemma public_refresh_goes_live_every_other_tick_witness :
  let down := {| Refresh.net := Feed.Failed "offline"; Refresh.public_took := 40 |} in
  let w1 := PublicFeed.fresh_fetch noon
              (Feed.Response true (Feed.Json (PublicFeed.Entries [article_long]))) 250
              public_first_visit in
  PublicFeed.requests (Refresh.public_refresh noon 300000 [down] w1) = 1%nat /\
  PublicFeed.requests (Refresh.public_refresh noon 300000 [down; down] w1) = 2%nat.
Proof.
  cbv zeta.
  pose proof (public_refresh_goes_live_every_other_tick noon public_first_visit
                [article_long] 0 250
                {| Refresh.net := Feed.Failed "offline"; Refresh.public_took := 40 |}
                {| Refresh.net := Feed.Failed "offline"; Refresh.public_took := 40 |}
                (conj eq_refl eq_refl)) as H.
  cbv zeta in H. destruct H as (H2 & _ & _ & H3).
  split; [exact H2 | exact H3].
Defined.
